(** * create_test_conflict.py: the merge-conflict scenario builder

    A shallow embedding of [src/create_test_conflict.py].  The script is
    sequential glue around an external version-control tool, the file
    system and a random source, so it is embedded as a program over an
    explicit effect signature:

    - Python values: [str] is a sequence of Unicode code points, a
      [pathlib.Path] is a root and a list of components;
    - [prog A] is the tree of requests the script makes to its
      environment, with Python's [raise] and [try/except];
    - [exec p tr o] is the trace semantics: program [p] can run with the
      events [tr] (requests together with the environment's answers) and
      finish with outcome [o].  It quantifies over every answer the
      environment can give;
    - [Sim] is an executable model of the environment (file system, the
      five git command shapes the script issues, the random source), used
      where a property is about what the commands leave behind. *)

From Stdlib Require Import ZArith NArith List String Ascii Lia.
From Stdlib.Strings Require Import Byte.
From stdpp Require Import base option list gmap.
Import ListNotations.

Local Open Scope N_scope.
Local Open Scope list_scope.

(** ** Python [str] *)

Module PyStr.

(** A Python [str]: the sequence of its code points. *)
Abbreviation str := (list N).

(** A source file is UTF-8: a literal denotes the decoded code points. *)
Fixpoint utf8_decode (bs : list N) : str :=
  match bs with
  | [] => []
  | b :: r =>
    if b <? 0x80 then b :: utf8_decode r
    else if b <? 0xE0 then
      match r with
      | c1 :: r1 =>
        N.lor (N.shiftl (N.land b 0x1F) 6) (N.land c1 0x3F) :: utf8_decode r1
      | _ => []
      end
    else if b <? 0xF0 then
      match r with
      | c1 :: c2 :: r2 =>
        N.lor (N.shiftl (N.land b 0x0F) 12)
          (N.lor (N.shiftl (N.land c1 0x3F) 6) (N.land c2 0x3F))
        :: utf8_decode r2
      | _ => []
      end
    else
      match r with
      | c1 :: c2 :: c3 :: r3 =>
        N.lor (N.shiftl (N.land b 0x07) 18)
          (N.lor (N.shiftl (N.land c1 0x3F) 12)
             (N.lor (N.shiftl (N.land c2 0x3F) 6) (N.land c3 0x3F)))
        :: utf8_decode r3
      | _ => []
      end
  end.

Definition py (s : string) : str :=
  utf8_decode (map N_of_ascii (list_ascii_of_string s)).

(** The line feed, written [\n] in the source. *)
Definition nl : str := [10].

(** [str.isspace] on one code point: CPython's [_Py_ascii_whitespace]
    table below 128 and [_PyUnicode_IsWhitespace] above. *)
Definition isspace (c : N) : bool :=
  ((0x09 <=? c) && (c <=? 0x0D)) || ((0x1C <=? c) && (c <=? 0x20))
  || (c =? 0x85) || (c =? 0xA0) || (c =? 0x1680)
  || ((0x2000 <=? c) && (c <=? 0x200A))
  || (c =? 0x2028) || (c =? 0x2029) || (c =? 0x202F) || (c =? 0x205F)
  || (c =? 0x3000).

Fixpoint lstrip (s : str) : str :=
  match s with
  | [] => []
  | c :: r => if isspace c then lstrip r else s
  end.

Definition rstrip (s : str) : str := rev (lstrip (rev s)).

(** [s.strip()] *)
Definition strip (s : str) : str := rstrip (lstrip s).

(** [sep.join(l)] *)
Fixpoint join (sep : str) (l : list str) : str :=
  match l with
  | [] => []
  | [s] => s
  | s :: r => s ++ sep ++ join sep r
  end.

(** [s * n] *)
Fixpoint repeat_str (s : str) (n : nat) : str :=
  match n with
  | O => []
  | S n' => s ++ repeat_str s n'
  end.

(** [s.split(sep)] for a one-character separator. *)
Fixpoint split_on (sep : N) (s : str) : list str :=
  match s with
  | [] => [[]]
  | c :: r =>
    if c =? sep then [] :: split_on sep r
    else match split_on sep r with
         | [] => [[c]]
         | w :: ws => (c :: w) :: ws
         end
  end.

(** The lines of a text as git counts them: runs ended by a line feed (a
    last run without one is a line too). *)
Definition lines (s : str) : list str :=
  match rev (split_on 10 s) with
  | [] :: r => rev r
  | _ => split_on 10 s
  end.

Definition str_eqb (a b : str) : bool := bool_decide (a = b).

(** [x in l] for a list of strings. *)
Definition str_in (x : str) (l : list str) : bool :=
  existsb (str_eqb x) l.

(** The digit of [d < 16] in lower-case hexadecimal. *)
Definition hex_digit (d : N) : N :=
  if d <? 10 then 48 + d else 87 + d.

Definition is_hex_digit (c : N) : bool :=
  ((48 <=? c) && (c <=? 57)) || ((97 <=? c) && (c <=? 102)).

(** The hexadecimal digits of [n], most significant first; [fuel] bounds
    the number of digits after the first. *)
Fixpoint hex_aux (fuel : nat) (n : N) (acc : str) : str :=
  match fuel with
  | O => hex_digit (n mod 16) :: acc
  | S f =>
    if n <? 16 then hex_digit n :: acc
    else hex_aux f (n / 16) (hex_digit (n mod 16) :: acc)
  end.

(** ['%x' % n] *)
Definition hex (n : N) : str := hex_aux (N.to_nat (N.size n)) n [].

(** ['%0<w>x' % n]: padded with zeros on the left up to [w] characters,
    never truncated. *)
Definition hex_pad (w : nat) (n : N) : str :=
  let h := hex n in
  repeat 48 (w - length h)%nat ++ h.

(** The slice [s[a:b]] for [0 <= a <= b]. *)
Definition slice (a b : nat) (s : str) : str := take (b - a) (drop a s).

End PyStr.
Import PyStr.

Arguments py : simpl never.

(** ** [pathlib.PurePosixPath] *)

Module PosixPath.

(** A path is its root ([], [/] or [//]) and its components. *)
Record Path : Type := mkPath { root : str; parts : list str }.

#[global] Instance Path_eq_dec : EqDecision Path.
Proof. solve_decision. Defined.

#[global] Instance Path_countable : Countable Path.
Proof.
  refine (inj_countable' (fun p => (root p, parts p))
            (fun x => mkPath (fst x) (snd x)) _).
  intros []; reflexivity.
Defined.

(** [posixpath.splitroot]: exactly two leading slashes are kept as the
    root, one or three and more collapse to one. *)
Definition splitroot (s : str) : str * str :=
  if negb (str_eqb (slice 0 1 s) [47]) then ([], s)
  else if negb (str_eqb (slice 1 2 s) [47]) || str_eqb (slice 2 3 s) [47]
  then ([47], drop 1 s)
  else (take 2 s, drop 2 s).

Definition keep_part (x : str) : bool :=
  negb (str_eqb x []) && negb (str_eqb x [46]).

(** [Path(s)]: empty components and [.] are dropped. *)
Definition parse (s : str) : Path :=
  let (rt, rel) := splitroot s in
  mkPath rt (List.filter keep_part (split_on 47 rel)).

(** [p / s]: a rooted right operand replaces the left one. *)
Definition div (p : Path) (s : str) : Path :=
  let q := parse s in
  match root q with
  | [] => mkPath (root p) (parts p ++ parts q)
  | _ => q
  end.

(** [p.name] *)
Definition name (p : Path) : str := List.last (parts p) [].

(** [str(p)] *)
Definition path_str (p : Path) : str :=
  match root p, parts p with
  | [], [] => [46]
  | rt, ps => rt ++ join [47] ps
  end.

End PosixPath.
Import PosixPath.

Declare Scope path_scope.
Infix "/" := div : path_scope.
Delimit Scope path_scope with path.
Bind Scope path_scope with Path.

(** ** The script's effects *)

(** Python exceptions the script can meet.  [CalledProcessError] is what
    [subprocess.run(..., check=True)] raises on a non-zero exit; every
    other class (an [OSError] from the file system, a missing [git]
    executable, ...) is [PyError] with the class name. *)
Inductive exn : Type :=
| CalledProcessError (returncode : Z) (cmd : list str) (output stderr : str)
| PyError (cls : str).

(** [subprocess.CompletedProcess] with captured text output. *)
Record CompletedProcess : Type :=
  mkCompleted { returncode : Z; stdout : str; stderr : str }.

(** What the environment answers to a call that can fail: its result, or
    the class of the exception the call raises. *)
Inductive answer (A : Type) : Type :=
| Done (a : A)
| Failed (cls : str).
Arguments Done {A} a.
Arguments Failed {A} cls.

(** The requests of the script, each with the continuation that receives
    the environment's answer. *)
Inductive prog (A : Type) : Type :=
| Ret (a : A)
| Raise (e : exn)
| Print (s : str) (k : prog A)
| PathExists (p : Path) (k : bool -> prog A)
| HomeDir (k : answer str -> prog A)
| Mkdir (p : Path) (parents exist_ok : bool) (k : answer unit -> prog A)
| Rmtree (p : Path) (k : answer unit -> prog A)
| WriteText (p : Path) (data : str) (k : answer unit -> prog A)
| Urandom (n : nat) (k : list byte -> prog A)
| Spawn (cmd : list str) (cwd : Path) (k : answer CompletedProcess -> prog A).
Arguments Ret {A} a.
Arguments Raise {A} e.
Arguments Print {A} s k.
Arguments PathExists {A} p k.
Arguments HomeDir {A} k.
Arguments Mkdir {A} p parents exist_ok k.
Arguments Rmtree {A} p k.
Arguments WriteText {A} p data k.
Arguments Urandom {A} n k.
Arguments Spawn {A} cmd cwd k.

Fixpoint bind {A B : Type} (p : prog A) (f : A -> prog B) : prog B :=
  match p with
  | Ret a => f a
  | Raise e => Raise e
  | Print s k => Print s (bind k f)
  | PathExists q k => PathExists q (fun b => bind (k b) f)
  | HomeDir k => HomeDir (fun r => bind (k r) f)
  | Mkdir q ps eo k => Mkdir q ps eo (fun r => bind (k r) f)
  | Rmtree q k => Rmtree q (fun r => bind (k r) f)
  | WriteText q d k => WriteText q d (fun r => bind (k r) f)
  | Urandom n k => Urandom n (fun bs => bind (k bs) f)
  | Spawn c d k => Spawn c d (fun r => bind (k r) f)
  end.

#[global] Instance prog_ret : MRet prog := @Ret.
#[global] Instance prog_bind : MBind prog := fun A B f p => bind p f.

(** [try: p  except <all>: h e] *)
Fixpoint try_except {A : Type} (p : prog A) (h : exn -> prog A) : prog A :=
  match p with
  | Ret a => Ret a
  | Raise e => h e
  | Print s k => Print s (try_except k h)
  | PathExists q k => PathExists q (fun b => try_except (k b) h)
  | HomeDir k => HomeDir (fun r => try_except (k r) h)
  | Mkdir q ps eo k => Mkdir q ps eo (fun r => try_except (k r) h)
  | Rmtree q k => Rmtree q (fun r => try_except (k r) h)
  | WriteText q d k => WriteText q d (fun r => try_except (k r) h)
  | Urandom n k => Urandom n (fun bs => try_except (k bs) h)
  | Spawn c d k => Spawn c d (fun r => try_except (k r) h)
  end.

(** A library call raises what the environment reports. *)
Definition lift {A : Type} (r : answer A) : prog A :=
  match r with
  | Done a => Ret a
  | Failed cls => Raise (PyError cls)
  end.

(** [print(s)] *)
Definition print (s : str) : prog unit := Print s (Ret tt).
(** [p.exists()] *)
Definition path_exists (p : Path) : prog bool := PathExists p Ret.
(** [Path.home()]: the user's home directory as the system reports it,
    made a [Path]. *)
Definition path_home : prog Path :=
  HomeDir (fun r => bind (lift r) (fun s => Ret (parse s))).
(** [p.mkdir(parents=..., exist_ok=...)] *)
Definition mkdir (p : Path) (parents exist_ok : bool) : prog unit :=
  Mkdir p parents exist_ok lift.
(** [shutil.rmtree(p)] *)
Definition rmtree (p : Path) : prog unit := Rmtree p lift.
(** [p.write_text(data)] *)
Definition write_text (p : Path) (data : str) : prog unit :=
  WriteText p data lift.

(** [subprocess.run(cmd, cwd=cwd, capture_output=True, text=True,
    check=True)]: a process that could not be started raises what the
    system reports, a process that exits non-zero raises
    [CalledProcessError] with the captured output. *)
Definition subprocess_run (cmd : list str) (cwd : Path)
  : prog CompletedProcess :=
  Spawn cmd cwd (fun r =>
    match r with
    | Failed cls => Raise (PyError cls)
    | Done cp =>
      if (returncode cp =? 0)%Z then Ret cp
      else Raise (CalledProcessError (returncode cp) cmd (stdout cp) (stderr cp))
    end).

(** *** [uuid.uuid4] *)

(** [int.from_bytes(bs, 'big')] *)
Definition int_from_bytes (bs : list byte) : N :=
  fold_left (fun acc b => acc * 256 + Byte.to_N b) bs 0.

(** [UUID(bytes=bs, version=4).int]: the variant and version bits are
    forced, the other 122 bits are the random ones. *)
Definition uuid4_int (bs : list byte) : N :=
  let i := int_from_bytes bs in
  let i := N.ldiff i (N.shiftl 0xc000 48) in
  let i := N.lor i (N.shiftl 0x8000 48) in
  let i := N.ldiff i (N.shiftl 0xf000 64) in
  N.lor i (N.shiftl 4 76).

(** [str(u)] for a UUID with integer value [i]. *)
Definition uuid_str (i : N) : str :=
  let h := hex_pad 32 i in
  slice 0 8 h ++ py "-" ++ slice 8 12 h ++ py "-" ++ slice 12 16 h
  ++ py "-" ++ slice 16 20 h ++ py "-" ++ drop 20 h.

(** [str(uuid.uuid4())] *)
Definition str_uuid4 : prog str :=
  Urandom 16 (fun bs => Ret (uuid_str (uuid4_int bs))).

(** ** The script *)

Local Open Scope path_scope.

(** Target repository (lines 20-21). *)
Definition REPO_PATH : Path := parse (py "/Users/user/projects/website").
Definition TEST_FILE : str := py "abc.txt".

(** [run_git_command] (lines 24-38).  [cwd or REPO_PATH]: a [Path] is
    always true, so only [None] falls back to the repository. *)
Definition run_git_command (cmd : list str) (cwd : option Path) : prog str :=
  try_except
    (result ← subprocess_run cmd (default REPO_PATH cwd);
     Ret (strip (stdout result)))
    (fun e =>
       match e with
       | CalledProcessError _ _ _ err =>
         print (py "❌ Git command failed: " ++ join (py " ") cmd);;
         print (py "   Error: " ++ err);;
         Raise e
       | _ => Raise e
       end).

(** The three versions of the fixture file (lines 83-87, 122-126,
    137-141). *)
Definition initial_content : str :=
  py "Line 1: Initial content" ++ nl ++
  py "Line 2: This will cause a conflict" ++ nl ++
  py "Line 3: Because both branches will modify this" ++ nl ++
  py "Line 4: Final line" ++ nl.

Definition almond_content : str :=
  py "Line 1: Initial content" ++ nl ++
  py "Line 2: ALMONDCODER VERSION - This is the AI's change" ++ nl ++
  py "Line 3: ALMONDCODER VERSION - Modified by the assistant" ++ nl ++
  py "Line 4: Final line" ++ nl.

Definition main_content : str :=
  py "Line 1: Initial content" ++ nl ++
  py "Line 2: MAIN VERSION - This is the manual change" ++ nl ++
  py "Line 3: MAIN VERSION - Modified directly on main" ++ nl ++
  py "Line 4: Final line" ++ nl.

(** Names derived from the random token (lines 96-97). *)
Definition almond_branch_of (short_uuid : str) : str :=
  py "almondcoder/test-conflict-" ++ short_uuid.
Definition worktree_name_of (short_uuid : str) : str :=
  py "test-conflict-" ++ short_uuid.

(** The git command lines the script issues. *)
Definition git_show_current : list str :=
  [py "git"; py "branch"; py "--show-current"].
Definition git_checkout (b : str) : list str :=
  [py "git"; py "checkout"; b].
Definition git_add : list str := [py "git"; py "add"; TEST_FILE].
Definition git_commit (msg : str) : list str :=
  [py "git"; py "commit"; py "-m"; msg].
Definition git_worktree_add (branch path base : str) : list str :=
  [py "git"; py "worktree"; py "add"; py "-b"; branch; path; base].

Definition msg_initial : str := py "Add initial abc.txt file".
Definition msg_almond : str := py "Modify abc.txt in almondcoder branch".
Definition msg_main : str := py "Modify abc.txt on main branch (conflicting)".

(** Step 7 of [main], the summary (lines 149-168). *)
Definition summary (main_branch almond_branch : str) (worktree_path : Path)
  : prog unit :=
  print (nl ++ repeat_str (py "=") 50);;
  print (py "✅ Merge conflict scenario created successfully!");;
  print (nl ++ py "📋 What was created:");;
  print (py "   • File: " ++ TEST_FILE);;
  print (py "   • Main branch: " ++ main_branch
         ++ py " (with MAIN VERSION changes)");;
  print (py "   • Worktree branch: " ++ almond_branch
         ++ py " (with ALMONDCODER VERSION changes)");;
  print (py "   • Worktree location: " ++ path_str worktree_path);;
  print (nl ++ py "🧪 To test in AlmondCoder:");;
  print (py "   1. Open the project: " ++ path_str REPO_PATH);;
  print (py "   2. Go to the Overview tab");;
  print (py "   3. Drag the '" ++ almond_branch ++ py "' node onto '"
         ++ main_branch ++ py "'");;
  print (py "   4. Click 'Merge Changes'");;
  print (py "   5. The conflict modal should appear!");;
  print (nl ++ py "🧹 To clean up later:");;
  print (py "   cd " ++ path_str REPO_PATH);;
  print (py "   git worktree remove " ++ path_str worktree_path);;
  print (py "   git branch -D " ++ almond_branch);;
  print (py "   git reset --hard HEAD~2  # Remove test commits");;
  print (py "   rm " ++ TEST_FILE);;
  print [].

(** Steps 3 to 7 of [main] (lines 79-168), entered once the base branch
    is known. *)
Definition scenario (main_branch : str) : prog unit :=
  (* 3. Create initial test file on main branch *)
  let test_file_path := REPO_PATH / TEST_FILE in
  print (nl ++ py "📝 Creating test file: " ++ TEST_FILE);;
  write_text test_file_path initial_content;;
  run_git_command git_add None;;
  run_git_command (git_commit msg_initial) None;;
  print (py "✅ Committed " ++ TEST_FILE ++ py " to " ++ main_branch);;
  (* 4. Create almondcoder branch and worktree *)
  u ← str_uuid4;
  let short_uuid := slice 0 8 u in
  let almond_branch := almond_branch_of short_uuid in
  let worktree_name := worktree_name_of short_uuid in
  home ← path_home;
  let almondcoder_dir := home / py ".almondcoder" in
  let project_name := name REPO_PATH in
  let project_worktree_dir := almondcoder_dir / project_name in
  let worktree_path := project_worktree_dir / worktree_name in
  mkdir project_worktree_dir true true;;
  print (nl ++ py "🌿 Creating worktree with branch: " ++ almond_branch);;
  print (py "📂 Worktree path: " ++ path_str worktree_path);;
  stale ← path_exists worktree_path;
  (if (stale : bool) then
     print (py "⚠️  Removing existing worktree directory: "
            ++ path_str worktree_path);;
     rmtree worktree_path
   else Ret tt);;
  run_git_command
    (git_worktree_add almond_branch (path_str worktree_path) main_branch)
    None;;
  print (py "✅ Created worktree at " ++ path_str worktree_path);;
  (* 5. Modify the file in the worktree *)
  let worktree_test_file := worktree_path / TEST_FILE in
  print (nl ++ py "✏️  Modifying " ++ TEST_FILE ++ py " in worktree...");;
  write_text worktree_test_file almond_content;;
  run_git_command git_add (Some worktree_path);;
  run_git_command (git_commit msg_almond) (Some worktree_path);;
  print (py "✅ Modified and committed " ++ TEST_FILE ++ py " in "
         ++ almond_branch);;
  (* 6. Make conflicting changes in main branch *)
  print (nl ++ py "🔄 Creating conflicting change in " ++ main_branch);;
  write_text test_file_path main_content;;
  run_git_command git_add None;;
  run_git_command (git_commit msg_main) None;;
  print (py "✅ Created conflicting change in " ++ main_branch);;
  summary main_branch almond_branch worktree_path.

(** Step 2 of [main] (lines 59-74): the base branch, or [None] where
    [main] returns early. *)
Definition resolve_branch : prog (option str) :=
  current_branch ← run_git_command git_show_current None;
  print (py "📍 Current branch: " ++ current_branch);;
  if negb (str_in current_branch [py "main"; py "master"]) then
    print (py "⚠️  Not on main/master. Switching to main...");;
    try_except
      (run_git_command (git_checkout (py "main")) None;;
       Ret (Some (py "main")))
      (fun _ =>
         try_except
           (run_git_command (git_checkout (py "master")) None;;
            Ret (Some (py "master")))
           (fun _ =>
              print (py "❌ Could not switch to main/master branch");;
              Ret None))
  else Ret (Some current_branch).

(** [main] (lines 41-168). *)
Definition main : prog unit :=
  print (py "🔧 AlmondCoder Merge Conflict Test Setup (Worktree Version)");;
  print (repeat_str (py "=") 50);;
  (* 1. Check if repo exists *)
  found ← path_exists REPO_PATH;
  if negb found then
    print (py "❌ Repository not found: " ++ path_str REPO_PATH);;
    print (py "   Please create the repository first.");;
    Ret tt
  else
    is_repo ← path_exists (REPO_PATH / py ".git");
    if negb is_repo then
      print (py "❌ Not a git repository: " ++ path_str REPO_PATH);;
      print (py "   Please initialize git first: cd " ++ path_str REPO_PATH
             ++ py " && git init");;
      Ret tt
    else
      print (py "✅ Found git repository: " ++ path_str REPO_PATH);;
      (* 2. Get current branch (should be main/master) *)
      resolved ← resolve_branch;
      match resolved with
      | None => Ret tt
      | Some current_branch =>
        let main_branch := current_branch in
        print (py "✅ Working on branch: " ++ main_branch);;
        scenario main_branch
      end.

(** The process status the interpreter exits with after
    [if __name__ == "__main__": main()]: 0 when [main] returns, 1 when an
    exception escapes it. *)
Inductive outcome (A : Type) : Type :=
| Returned (a : A)
| Raised (e : exn).
Arguments Returned {A} a.
Arguments Raised {A} e.

Definition exit_status (o : outcome unit) : Z :=
  match o with
  | Returned _ => 0
  | Raised _ => 1
  end.

(** ** Trace semantics *)

(** One request of the script together with the environment's answer. *)
Inductive event : Type :=
| EPrint (s : str)
| EExists (p : Path) (b : bool)
| EHome (r : answer str)
| EMkdir (p : Path) (parents exist_ok : bool) (r : answer unit)
| ERmtree (p : Path) (r : answer unit)
| EWrite (p : Path) (data : str) (r : answer unit)
| EUrandom (n : nat) (bs : list byte)
| ESpawn (cmd : list str) (cwd : Path) (r : answer CompletedProcess).

(** [exec p tr o]: [p] runs with the events [tr] and ends with [o].  The
    environment is free in every answer, except that [os.urandom(n)]
    returns [n] bytes. *)
Inductive exec {A : Type} : prog A -> list event -> outcome A -> Prop :=
| exec_Ret a : exec (Ret a) [] (Returned a)
| exec_Raise e : exec (Raise e) [] (Raised e)
| exec_Print s k tr o :
    exec k tr o -> exec (Print s k) (EPrint s :: tr) o
| exec_PathExists p k b tr o :
    exec (k b) tr o -> exec (PathExists p k) (EExists p b :: tr) o
| exec_HomeDir k r tr o :
    exec (k r) tr o -> exec (HomeDir k) (EHome r :: tr) o
| exec_Mkdir p ps eo k r tr o :
    exec (k r) tr o -> exec (Mkdir p ps eo k) (EMkdir p ps eo r :: tr) o
| exec_Rmtree p k r tr o :
    exec (k r) tr o -> exec (Rmtree p k) (ERmtree p r :: tr) o
| exec_WriteText p d k r tr o :
    exec (k r) tr o -> exec (WriteText p d k) (EWrite p d r :: tr) o
| exec_Urandom n k bs tr o :
    length bs = n ->
    exec (k bs) tr o -> exec (Urandom n k) (EUrandom n bs :: tr) o
| exec_Spawn c d k r tr o :
    exec (k r) tr o -> exec (Spawn c d k) (ESpawn c d r :: tr) o.

(** The same semantics by recursion on the program, for inversion. *)
Fixpoint runs {A : Type} (p : prog A) (tr : list event) (o : outcome A)
  : Prop :=
  match p with
  | Ret a => tr = [] /\ o = Returned a
  | Raise e => tr = [] /\ o = Raised e
  | Print s k => exists tr', tr = EPrint s :: tr' /\ runs k tr' o
  | PathExists p k =>
    exists b tr', tr = EExists p b :: tr' /\ runs (k b) tr' o
  | HomeDir k => exists r tr', tr = EHome r :: tr' /\ runs (k r) tr' o
  | Mkdir p ps eo k =>
    exists r tr', tr = EMkdir p ps eo r :: tr' /\ runs (k r) tr' o
  | Rmtree p k => exists r tr', tr = ERmtree p r :: tr' /\ runs (k r) tr' o
  | WriteText p d k =>
    exists r tr', tr = EWrite p d r :: tr' /\ runs (k r) tr' o
  | Urandom n k =>
    exists bs tr',
      tr = EUrandom n bs :: tr' /\ length bs = n /\ runs (k bs) tr' o
  | Spawn c d k => exists r tr', tr = ESpawn c d r :: tr' /\ runs (k r) tr' o
  end.

(** The git invocations of a trace, in order. *)
Definition is_spawn (e : event) : bool :=
  match e with ESpawn _ _ _ => true | _ => false end.
Definition spawns (tr : list event) : list event := List.filter is_spawn tr.

(** The lines printed by a trace, in order. *)
Definition printed (tr : list event) : list str :=
  omap (fun e => match e with EPrint s => Some s | _ => None end) tr.

(** ** An executable environment *)

(** The file system, the version-control tool and the random source are
    outside the script.  [Sim] models them as far as the script can see
    them: [pathlib]'s and [shutil]'s calls on a tree of directories and
    files, and the five git command shapes of the script on a repository
    reduced to branch tips, working trees, their indexes and the log of
    the commits created.  A git command can also fail for a cause the
    model does not track (no identity configured, a lock, a full disk):
    [faults] says for each coming invocation whether it does. *)
Module Sim.

Inductive node : Type :=
| Dir
| File (data : str).

(** A tree: tracked file name to content. *)
Abbreviation tree := (gmap str str).

Record Commit : Type :=
  mkCommit { c_branch : str; c_message : str; c_tree : tree }.

Record World : Type := mkWorld {
  fs : gmap Path node;
  home_dir : answer str;
  entropy : list byte;
  console : list str;
  tips : gmap str tree;
  checked_out : gmap Path str;
  index : gmap Path tree;
  commits : list Commit;
  faults : list bool
}.

(** *** File system *)

Definition parent (p : Path) : Path := mkPath (root p) (removelast (parts p)).

(** The root is a directory and is not stored. *)
Definition node_at (m : gmap Path node) (p : Path) : option node :=
  match parts p with
  | [] => Some Dir
  | _ => m !! p
  end.

Definition exists_at (m : gmap Path node) (p : Path) : bool :=
  bool_decide (is_Some (node_at m p)).

(** [q] is [p] or lies below it. *)
Definition under (p q : Path) : Prop :=
  root p = root q /\ parts p `prefix_of` parts q.

#[global] Instance under_dec p q : Decision (under p q).
Proof. unfold under. apply _. Defined.

(** [p] and the directories above it, the nearest to the root first. *)
Definition chain (p : Path) : list Path :=
  List.map (fun n => mkPath (root p) (take n (parts p)))
    (seq 1 (length (parts p))).

Definition is_file (m : gmap Path node) (p : Path) : bool :=
  match node_at m p with
  | Some (File _) => true
  | _ => false
  end.

Definition make_dirs (ps : list Path) (m : gmap Path node) : gmap Path node :=
  foldr (fun q acc => <[q := Dir]> acc) m ps.

Definition fs_mkdir (p : Path) (parents exist_ok : bool) (m : gmap Path node)
  : answer unit * gmap Path node :=
  match node_at m p with
  | Some Dir =>
    if exist_ok then (Done tt, m) else (Failed (py "FileExistsError"), m)
  | Some (File _) => (Failed (py "FileExistsError"), m)
  | None =>
    if parents then
      if existsb (is_file m) (chain p)
      then (Failed (py "NotADirectoryError"), m)
      else (Done tt, make_dirs (chain p) m)
    else
      match node_at m (parent p) with
      | Some Dir => (Done tt, <[p := Dir]> m)
      | Some (File _) => (Failed (py "NotADirectoryError"), m)
      | None => (Failed (py "FileNotFoundError"), m)
      end
  end.

Definition fs_rmtree (p : Path) (m : gmap Path node)
  : answer unit * gmap Path node :=
  match node_at m p with
  | Some Dir => (Done tt, filter (fun kv => ~ under p kv.1) m)
  | Some (File _) => (Failed (py "NotADirectoryError"), m)
  | None => (Failed (py "FileNotFoundError"), m)
  end.

Definition fs_write (p : Path) (data : str) (m : gmap Path node)
  : answer unit * gmap Path node :=
  match node_at m p with
  | Some Dir => (Failed (py "IsADirectoryError"), m)
  | _ =>
    match node_at m (parent p) with
    | Some Dir => (Done tt, <[p := File data]> m)
    | Some (File _) => (Failed (py "NotADirectoryError"), m)
    | None => (Failed (py "FileNotFoundError"), m)
    end
  end.

(** The files of a tree written below [p]. *)
Definition materialize (p : Path) (t : tree) (m : gmap Path node)
  : gmap Path node :=
  foldr (fun fc acc => <[mkPath (root p) (parts p ++ [fc.1]) := File fc.2]> acc)
    m (map_to_list t).

(** *** git *)

Inductive git_cmd : Type :=
| ShowCurrent
| Checkout (b : str)
| Add (f : str)
| CommitM (msg : str)
| WorktreeAdd (b path base : str)
| Other.

Definition parse_git (cmd : list str) : git_cmd :=
  match cmd with
  | [g; a; b] =>
    if str_eqb g (py "git") && str_eqb a (py "branch")
       && str_eqb b (py "--show-current") then ShowCurrent
    else if str_eqb g (py "git") && str_eqb a (py "checkout") then Checkout b
    else if str_eqb g (py "git") && str_eqb a (py "add") then Add b
    else Other
  | [g; a; o; m] =>
    if str_eqb g (py "git") && str_eqb a (py "commit") && str_eqb o (py "-m")
    then CommitM m else Other
  | [g; a; s; o; b; p; base] =>
    if str_eqb g (py "git") && str_eqb a (py "worktree")
       && str_eqb s (py "add") && str_eqb o (py "-b")
    then WorktreeAdd b p base else Other
  | _ => Other
  end.

Definition ok (out : str) : answer CompletedProcess := Done (mkCompleted 0 out []).
Definition fatal (rc : Z) (err : str) : answer CompletedProcess :=
  Done (mkCompleted rc [] (py "fatal: " ++ err ++ nl)).

Definition set_git (w : World) (m : gmap Path node) (t : gmap str tree)
  (co : gmap Path str) (ix : gmap Path tree) (cs : list Commit) : World :=
  mkWorld m (home_dir w) (entropy w) (console w) t co ix cs (faults w).

(** The tree at the tip of a branch; a branch without commits has none. *)
Definition tip (w : World) (b : str) : tree := default ∅ (tips w !! b).

(** One git command in working tree [cwd], checked out on [b].  A
    command that is refused exits non-zero; the texts of the refusals are
    git's for the plain case (a commit without changes prints the status
    of a clean working tree on standard output and exits with 1, a
    working tree for an existing branch is refused with 255) and are
    abridged elsewhere.  The properties below use of a refusal only that
    its status is not 0. *)
Definition git_in (w : World) (cwd : Path) (b : str) (c : git_cmd)
  : answer CompletedProcess * World :=
  match c with
  | ShowCurrent => (ok (b ++ nl), w)
  | Checkout b' =>
    if bool_decide (b' ∈ dom (tips w)) then
      (ok [], set_git w (materialize cwd (tip w b') (fs w)) (tips w)
                (<[cwd := b']> (checked_out w))
                (<[cwd := tip w b']> (index w)) (commits w))
    else (fatal 1 (py "pathspec did not match"), w)
  | Add f =>
    match node_at (fs w) (cwd / f) with
    | Some (File data) =>
      (ok [], set_git w (fs w) (tips w) (checked_out w)
                (<[cwd := <[f := data]> (default ∅ (index w !! cwd))]> (index w))
                (commits w))
    | _ => (fatal 128 (py "pathspec did not match any files"), w)
    end
  | CommitM msg =>
    let staged := default ∅ (index w !! cwd) in
    if bool_decide (staged = tip w b) then
      (Done (mkCompleted 1
               (py "On branch " ++ b ++ nl
                ++ py "nothing to commit, working tree clean" ++ nl) []),
       w)
    else
      (ok [], set_git w (fs w) (<[b := staged]> (tips w)) (checked_out w)
                (index w) (mkCommit b msg staged :: commits w))
  | WorktreeAdd b' path base =>
    let p := parse path in
    if bool_decide (b' ∈ dom (tips w)) then
      (fatal 255 (py "a branch named '" ++ b' ++ py "' already exists"), w)
    else if bool_decide (base ∉ dom (tips w)) then
      (fatal 128 (py "invalid reference: " ++ base), w)
    else if exists_at (fs w) p
    then (fatal 128 (py "'" ++ path ++ py "' already exists"), w)
    else if bool_decide (is_Some (checked_out w !! p))
    then (fatal 128 (py "'" ++ path ++ py "' is already registered"), w)
    else
      (ok [],
       set_git w
         (materialize p (tip w base)
            (<[p / py ".git" := File (py "gitdir")]>
               (make_dirs (chain p) (fs w))))
         (<[b' := tip w base]> (tips w))
         (<[p := b']> (checked_out w))
         (<[p := tip w base]> (index w))
         (commits w))
  | Other => (fatal 129 (py "unknown command"), w)
  end.

Definition pop_fault (w : World) : bool * World :=
  match faults w with
  | [] => (false, w)
  | f :: r =>
    (f, mkWorld (fs w) (home_dir w) (entropy w) (console w) (tips w)
          (checked_out w) (index w) (commits w) r)
  end.

(** Starting [cmd] in [cwd]: the directory must exist; outside a working
    tree git exits with 128. *)
Definition git_exec (cmd : list str) (cwd : Path) (w : World)
  : answer CompletedProcess * World :=
  match node_at (fs w) cwd with
  | Some Dir =>
    let (f, w1) := pop_fault w in
    if f then (fatal 1 (py "failed"), w1)
    else match checked_out w1 !! cwd with
         | None => (fatal 128 (py "not a git repository"), w1)
         | Some b => git_in w1 cwd b (parse_git cmd)
         end
  | Some (File _) => (Failed (py "NotADirectoryError"), w)
  | None => (Failed (py "FileNotFoundError"), w)
  end.

(** *** The other requests *)

Definition set_fs (w : World) (m : gmap Path node) : World :=
  set_git w m (tips w) (checked_out w) (index w) (commits w).

Definition do_print (s : str) (w : World) : World :=
  mkWorld (fs w) (home_dir w) (entropy w) (console w ++ [s]) (tips w)
    (checked_out w) (index w) (commits w) (faults w).

(** [os.urandom(n)]: the next [n] bytes of the source (zero bytes once it
    is used up). *)
Definition do_urandom (n : nat) (w : World) : list byte * World :=
  (take n (entropy w ++ repeat x00 n),
   mkWorld (fs w) (home_dir w) (drop n (entropy w)) (console w) (tips w)
     (checked_out w) (index w) (commits w) (faults w)).

(** *** Running a program *)

Fixpoint interp {A : Type} (p : prog A) (w : World)
  : list event * outcome A * World :=
  match p with
  | Ret a => ([], Returned a, w)
  | Raise e => ([], Raised e, w)
  | Print s k =>
    let '(tr, o, w') := interp k (do_print s w) in (EPrint s :: tr, o, w')
  | PathExists q k =>
    let b := exists_at (fs w) q in
    let '(tr, o, w') := interp (k b) w in (EExists q b :: tr, o, w')
  | HomeDir k =>
    let r := home_dir w in
    let '(tr, o, w') := interp (k r) w in (EHome r :: tr, o, w')
  | Mkdir q ps eo k =>
    let (r, m) := fs_mkdir q ps eo (fs w) in
    let '(tr, o, w') := interp (k r) (set_fs w m) in
    (EMkdir q ps eo r :: tr, o, w')
  | Rmtree q k =>
    let (r, m) := fs_rmtree q (fs w) in
    let '(tr, o, w') := interp (k r) (set_fs w m) in
    (ERmtree q r :: tr, o, w')
  | WriteText q d k =>
    let (r, m) := fs_write q d (fs w) in
    let '(tr, o, w') := interp (k r) (set_fs w m) in
    (EWrite q d r :: tr, o, w')
  | Urandom n k =>
    let (bs, w1) := do_urandom n w in
    let '(tr, o, w') := interp (k bs) w1 in (EUrandom n bs :: tr, o, w')
  | Spawn c d k =>
    let (r, w1) := git_exec c d w in
    let '(tr, o, w') := interp (k r) w1 in (ESpawn c d r :: tr, o, w')
  end.

(** The environment's move on one event: the event carries the answer
    the environment gives in [w], and [w'] is the world after it. *)
Definition move (e : event) (w w' : World) : Prop :=
  match e with
  | EPrint s => w' = do_print s w
  | EExists q b => b = exists_at (fs w) q /\ w' = w
  | EHome r => r = home_dir w /\ w' = w
  | EMkdir q ps eo r =>
    exists m, fs_mkdir q ps eo (fs w) = (r, m) /\ w' = set_fs w m
  | ERmtree q r => exists m, fs_rmtree q (fs w) = (r, m) /\ w' = set_fs w m
  | EWrite q d r => exists m, fs_write q d (fs w) = (r, m) /\ w' = set_fs w m
  | EUrandom n bs => do_urandom n w = (bs, w')
  | ESpawn c d r => git_exec c d w = (r, w')
  end.

(** The worlds a whole trace leads through. *)
Fixpoint replay (tr : list event) (w w' : World) : Prop :=
  match tr with
  | [] => w' = w
  | e :: r => exists w1, move e w w1 /\ replay r w1 w'
  end.

(** *** Example worlds *)

Definition example_fs : gmap Path node :=
  <[REPO_PATH / py ".git" := Dir]> (make_dirs (chain REPO_PATH) ∅).

Definition example_tree : tree := {[ py "README.md" := py "hello" ]}.

(** An initialized repository on [main] with one tracked file. *)
Definition example_repo : World :=
  mkWorld example_fs (Done (py "/Users/user"))
    [xde; xad; xbe; xef; x00; x01; x02; x03; x04; x05; x06; x07; x08; x09;
     x0a; x0b;
     xca; xfe; xf0; x0d; x10; x11; x12; x13; x14; x15; x16; x17; x18; x19;
     x1a; x1b]
    [] {[ py "main" := example_tree ]} {[ REPO_PATH := py "main" ]}
    {[ REPO_PATH := example_tree ]} [] [].

(** No directory at the repository path. *)
Definition no_repo : World :=
  mkWorld ∅ (Done (py "/Users/user")) [] [] ∅ ∅ ∅ [] [].

(** A linked working tree: [.git] is a regular file. *)
Definition linked_repo : World :=
  mkWorld
    (<[REPO_PATH / py ".git" := File (py "gitdir: /srv/main/.git/worktrees/w")]>
       (make_dirs (chain REPO_PATH) ∅))
    (Done (py "/Users/user")) [] []
    {[ py "topic" := example_tree ]} {[ REPO_PATH := py "topic" ]}
    {[ REPO_PATH := example_tree ]} [] [].

(** The repository with an outside failure at the third git command. *)
Definition faulty_repo : World :=
  mkWorld example_fs (Done (py "/Users/user")) (entropy example_repo) []
    (tips example_repo) (checked_out example_repo) (index example_repo) []
    [false; false; true].

(** The repository with a stale directory where the first working tree
    goes. *)
Definition stale_repo : World :=
  mkWorld
    (<[parse (py "/Users/user/.almondcoder/website/test-conflict-deadbeef/old")
       := File (py "left over")]>
       (make_dirs
          (chain
             (parse (py "/Users/user/.almondcoder/website/test-conflict-deadbeef")))
          example_fs))
    (Done (py "/Users/user")) (entropy example_repo) []
    (tips example_repo) (checked_out example_repo) (index example_repo) [] [].

End Sim.

(** One component of a path: not empty, not [.], without a slash. *)
Definition plain (x : str) : Prop := x <> [] /\ x <> [46] /\ 47 ∉ x.

Definition plainb (x : str) : bool :=
  keep_part x && forallb (fun c => negb (c =? 47)) x.

(** The paths [pathlib] builds. *)
Definition wf_path (p : Path) : Prop :=
  (root p = [] \/ root p = [47] \/ root p = [47; 47])
  /\ Forall plain (parts p).

(** The random token of a run: eight lower-case hexadecimal digits. *)
Definition is_token (t : str) : Prop :=
  length t = 8%nat /\ Forall (fun c => is_hex_digit c = true) t.

(** The token the script derives from sixteen random bytes. *)
Definition token_of (bs : list byte) : str :=
  slice 0 8 (uuid_str (uuid4_int bs)).

(** ** Observations on traces *)

(** The answers of the environment to the existence checks, in order. *)
Definition exists_answers (tr : list event) : list (Path * bool) :=
  omap (fun e => match e with EExists p b => Some (p, b) | _ => None end) tr.

(** A started process that exited with status 0. *)
Definition succeeded (r : answer CompletedProcess) : bool :=
  match r with
  | Done cp => (returncode cp =? 0)%Z
  | Failed _ => false
  end.

(** The commands of the branch-resolution fallback. *)
Definition is_checkout (cmd : list str) : bool :=
  match cmd with
  | [g; c; _] => str_eqb g (py "git") && str_eqb c (py "checkout")
  | _ => false
  end.

(** What [run_git_command] prints and raises for a command that exited
    non-zero. *)
Definition failure_report (cmd : list str) (cp : CompletedProcess)
  : list event :=
  [EPrint (py "❌ Git command failed: " ++ join (py " ") cmd);
   EPrint (py "   Error: " ++ stderr cp)].

Definition failure_of (cmd : list str) (cp : CompletedProcess) : exn :=
  CalledProcessError (returncode cp) cmd (stdout cp) (stderr cp).

(** What [run_git_command] prints after the answer [r] to command [cmd]
    before it raises: the two lines of the report after a non-zero exit,
    nothing when the process could not be started. *)
Definition report_of (cmd : list str) (r : answer CompletedProcess)
  : list event :=
  match r with
  | Done cp => if (returncode cp =? 0)%Z then [] else failure_report cmd cp
  | Failed _ => []
  end.

(** [each_spawn Q seen tr]: every git invocation of [tr] satisfies [Q],
    which is told the events before the invocation ([seen] and what
    precedes it in [tr]), the command, its directory, the answer and the
    events after it. *)
Fixpoint each_spawn
  (Q : list event -> list str -> Path -> answer CompletedProcess
       -> list event -> Prop)
  (seen tr : list event) : Prop :=
  match tr with
  | [] => True
  | ESpawn c d r :: rest =>
    Q seen c d r rest /\ each_spawn Q (seen ++ [ESpawn c d r]) rest
  | e :: rest => each_spawn Q (seen ++ [e]) rest
  end.

(** A command outside the fallback that exits non-zero is followed by its
    report and nothing else, and its error is the outcome of the run. *)
Definition aborts (o : outcome unit) (seen : list event) (c : list str)
  (d : Path) (r : answer CompletedProcess) (rest : list event) : Prop :=
  forall cp, r = Done cp -> returncode cp <> 0%Z -> is_checkout c = false ->
    rest = failure_report c cp /\ o = Raised (failure_of c cp).

(** The working tree of a run with random bytes [bs] and home directory
    [home]: its parent directory and its path. *)
Definition project_worktree_dir_of (home : str) : Path :=
  parse home / py ".almondcoder" / name REPO_PATH.
Definition worktree_path_of (home : str) (bs : list byte) : Path :=
  project_worktree_dir_of home / worktree_name_of (token_of bs).

(** Events that leave a directory outside [wt] alone: output, existence
    checks, and the removal of [wt]. *)
Definition quiet (wt : Path) (e : event) : Prop :=
  match e with
  | EPrint _ | EExists _ _ => True
  | ERmtree q _ => q = wt
  | _ => False
  end.

(** A [git worktree add] is issued in the repository for the branch and
    the path derived from the random bytes and the home directory read
    before; the parent directory of the path was made before, and only
    quiet events lie between. *)
Definition placed (seen : list event) (c : list str) (d : Path)
  (r : answer CompletedProcess) (rest : list event) : Prop :=
  forall branch path base, c = git_worktree_add branch path base ->
    exists bs home before mid,
      branch = almond_branch_of (token_of bs)
      /\ path = path_str (worktree_path_of home bs)
      /\ d = REPO_PATH
      /\ In (EUrandom 16 bs) before
      /\ In (EHome (Done home)) before
      /\ seen = before
                ++ EMkdir (project_worktree_dir_of home) true true (Done tt)
                   :: mid
      /\ Forall (quiet (worktree_path_of home bs)) mid.

(** A [git worktree add] comes right after the existence check of its
    path, and after the removal of the path if the check found it. *)
Definition guarded (seen : list event) (c : list str) (d : Path)
  (r : answer CompletedProcess) (rest : list event) : Prop :=
  forall branch path base, c = git_worktree_add branch path base ->
    exists p before,
      path = path_str p /\ wf_path p /\ parts p <> []
      /\ (seen = before ++ [EExists p false]
          \/ exists warn,
               seen = before ++ [EExists p true; EPrint warn;
                                 ERmtree p (Done tt)]).

(** The three properties every git invocation of a run has. *)
Definition sound_spawn (o : outcome unit) (seen : list event) (c : list str)
  (d : Path) (r : answer CompletedProcess) (rest : list event) : Prop :=
  aborts o seen c d r rest /\ placed seen c d r rest
  /\ guarded seen c d r rest.

(** The run printed its summary: it came to its end. *)
Definition completed (tr : list event) : Prop :=
  In (EPrint (py "✅ Merge conflict scenario created successfully!")) tr.

(** The commits a run added to the log. *)
Definition new_commits (w w' : Sim.World) : nat :=
  (length (Sim.commits w') - length (Sim.commits w))%nat.

(** Lines, counted from 0, that a three-way merge cannot settle: both
    sides changed them, and not to the same text. *)
Definition conflict_lines (base ours theirs : list str) : list nat :=
  List.filter
    (fun i =>
       negb (bool_decide (ours !! i = theirs !! i))
       && negb (bool_decide (ours !! i = base !! i))
       && negb (bool_decide (theirs !! i = base !! i)))
    (seq 0 (length base `max` (length ours `max` length theirs))).

(** The writes of a trace. *)
Definition is_write (e : event) : bool :=
  match e with EWrite _ _ _ => true | _ => false end.
Definition writes (tr : list event) : list event := List.filter is_write tr.

(** ** Observations on every event *)

(** The requests of a trace other than output, in order. *)
Definition is_print (e : event) : bool :=
  match e with EPrint _ => true | _ => false end.
Definition effects (tr : list event) : list event :=
  List.filter (fun e => negb (is_print e)) tr.

(** The class of the exception a library call raised, for an event whose
    answer is a failure. *)
Definition failure (e : event) : option str :=
  match e with
  | EHome (Failed c) | EMkdir _ _ _ (Failed c) | ERmtree _ (Failed c)
  | EWrite _ _ (Failed c) | ESpawn _ _ (Failed c) => Some c
  | _ => None
  end.

(** The event is a command of the branch-resolution fallback. *)
Definition in_fallback (e : event) : bool :=
  match e with ESpawn c _ _ => is_checkout c | _ => false end.

(** How a run ends with exception [e]: with the report of a command
    outside the fallback that exited non-zero, or right after a library
    call outside the fallback that raised. *)
Definition raised_by (tr : list event) (e : exn) : Prop :=
  (exists pre c d cp,
     tr = pre ++ ESpawn c d (Done cp) :: failure_report c cp
     /\ returncode cp <> 0%Z /\ is_checkout c = false
     /\ e = failure_of c cp)
  \/ (exists pre ev cls,
        tr = pre ++ [ev] /\ failure ev = Some cls
        /\ in_fallback ev = false /\ e = PyError cls).

(** [each_event Q seen tr]: every event of [tr] satisfies [Q], which is
    told the events before it ([seen] and what precedes it in [tr]) and
    the events after it. *)
Fixpoint each_event (Q : list event -> event -> list event -> Prop)
  (seen tr : list event) : Prop :=
  match tr with
  | [] => True
  | e :: rest => Q seen e rest /\ each_event Q (seen ++ [e]) rest
  end.

(** The working tree for [home] and [bs] was added by a command that
    exited with 0. *)
Definition worktree_added (home : str) (bs : list byte) (seen : list event)
  : Prop :=
  exists base cp,
    In (ESpawn (git_worktree_add (almond_branch_of (token_of bs))
                  (path_str (worktree_path_of home bs)) base)
          REPO_PATH (Done cp)) seen
    /\ returncode cp = 0%Z.

(** [shutil.rmtree] is called on the path of the working tree only, right
    after the existence check found it and the warning was printed. *)
Definition removes_worktree (seen : list event) (e : event) : Prop :=
  match e with
  | ERmtree p _ =>
    exists bs home before warn,
      p = worktree_path_of home bs
      /\ seen = before ++ [EExists p true; EPrint warn]
      /\ In (EUrandom 16 bs) before
      /\ In (EHome (Done home)) before
  | _ => True
  end.

(** What the script itself changes in the file system: it writes the
    fixture file in the repository and, once the working tree is added,
    in the working tree; it makes the directory the working trees of the
    project go to. *)
Definition writes_fixture (seen : list event) (e : event) : Prop :=
  match e with
  | EWrite p data _ =>
    (p = REPO_PATH / TEST_FILE
     /\ (data = initial_content \/ data = main_content))
    \/ exists bs home,
         p = worktree_path_of home bs / TEST_FILE
         /\ data = almond_content
         /\ worktree_added home bs seen
  | EMkdir p parents exist_ok _ =>
    exists home,
      p = project_worktree_dir_of home /\ parents = true /\ exist_ok = true
      /\ In (EHome (Done home)) seen
  | _ => True
  end.

(** The commands the script starts in the repository. *)
Definition repo_command (c : list str) : Prop :=
  c = git_show_current
  \/ c = git_checkout (py "main") \/ c = git_checkout (py "master")
  \/ c = git_add
  \/ c = git_commit msg_initial \/ c = git_commit msg_main
  \/ exists bs home base,
       c = git_worktree_add (almond_branch_of (token_of bs))
             (path_str (worktree_path_of home bs)) base.

(** Every command is started in the repository, except the [git add] and
    the [git commit] of the working tree, which are started there once it
    is added. *)
Definition known_command (seen : list event) (e : event) : Prop :=
  match e with
  | ESpawn c d _ =>
    (d = REPO_PATH /\ repo_command c)
    \/ exists bs home,
         d = worktree_path_of home bs
         /\ (c = git_add \/ c = git_commit msg_almond)
         /\ worktree_added home bs seen
  | _ => True
  end.

(** A command that exited non-zero is followed by its report; after a
    command of the fallback the run goes on. *)
Definition reported (e : event) (rest : list event) : Prop :=
  match e with
  | ESpawn c d (Done cp) =>
    returncode cp <> 0%Z ->
    exists rest',
      rest = failure_report c cp ++ rest'
      /\ (is_checkout c = true -> rest' <> [])
  | _ => True
  end.

(** A library call outside the fallback that raises is the last event of
    the run, and what it raised is the outcome. *)
Definition stops (o : outcome unit) (e : event) (rest : list event) : Prop :=
  match failure e with
  | Some cls => in_fallback e = false -> rest = [] /\ o = Raised (PyError cls)
  | None => True
  end.

(** What holds of every event of a run with outcome [o]. *)
Definition tidy (o : outcome unit) (seen : list event) (e : event)
  (rest : list event) : Prop :=
  removes_worktree seen e /\ writes_fixture seen e /\ known_command seen e
  /\ reported e rest /\ stops o e rest.

(** The requests of steps 3 to 7 when they all succeed, for base branch
    [base]: the run wrote and committed the fixture, derived the token
    from sixteen random bytes, made the project's directory for working
    trees, removed the path of the working tree if the check found it,
    added the working tree, wrote and committed there, wrote and committed
    again in the repository, and printed the summary. *)
Definition scenario_effects (base : str) (tr : list event) : Prop :=
  exists bs home stale cp1 cp2 cp3 cp4 cp5 cp6 cp7,
    let P := worktree_path_of home bs in
    let B := almond_branch_of (token_of bs) in
    effects tr
    = [EWrite (REPO_PATH / TEST_FILE) initial_content (Done tt);
       ESpawn git_add REPO_PATH (Done cp1);
       ESpawn (git_commit msg_initial) REPO_PATH (Done cp2);
       EUrandom 16 bs;
       EHome (Done home);
       EMkdir (project_worktree_dir_of home) true true (Done tt);
       EExists P stale]
      ++ (if (stale : bool) then [ERmtree P (Done tt)] else [])
      ++ [ESpawn (git_worktree_add B (path_str P) base) REPO_PATH (Done cp3);
          EWrite (P / TEST_FILE) almond_content (Done tt);
          ESpawn git_add P (Done cp4);
          ESpawn (git_commit msg_almond) P (Done cp5);
          EWrite (REPO_PATH / TEST_FILE) main_content (Done tt);
          ESpawn git_add REPO_PATH (Done cp6);
          ESpawn (git_commit msg_main) REPO_PATH (Done cp7)]
    /\ length bs = 16%nat
    /\ Forall (fun cp => returncode cp = 0%Z)
         [cp1; cp2; cp3; cp4; cp5; cp6; cp7]
    /\ completed tr.

Definition scenario_ending (base : str) (tr : list event) (o : outcome unit)
  : Prop :=
  match o with
  | Returned _ => scenario_effects base tr
  | Raised e => raised_by tr e
  end.

(** How step 2 settles the base branch: [current] is the stripped output
    of [git branch --show-current], [switch] the checkouts tried. *)
Definition resolved (current : str) (switch : list event) (base : str)
  : Prop :=
  (str_in current [py "main"; py "master"] = true
   /\ switch = [] /\ base = current)
  \/ (str_in current [py "main"; py "master"] = false
      /\ ((exists r,
             switch = [ESpawn (git_checkout (py "main")) REPO_PATH r]
             /\ succeeded r = true /\ base = py "main")
          \/ (exists r1 r2,
                switch = [ESpawn (git_checkout (py "main")) REPO_PATH r1;
                          ESpawn (git_checkout (py "master")) REPO_PATH r2]
                /\ succeeded r1 = false /\ succeeded r2 = true
                /\ base = py "master"))).

(** A run through all seven steps: [pre] are steps 1 and 2, [trs] steps 3
    to 7. *)
Definition full_run (tr : list event) : Prop :=
  exists cp switch base pre trs,
    tr = pre ++ trs
    /\ effects pre
       = [EExists REPO_PATH true; EExists (REPO_PATH / py ".git") true;
          ESpawn git_show_current REPO_PATH (Done cp)] ++ switch
    /\ returncode cp = 0%Z
    /\ resolved (strip (stdout cp)) switch base
    /\ scenario_effects base trs.

(** The three ways [main] returns before step 3. *)
Definition early_exit (tr : list event) : Prop :=
  (effects tr = [EExists REPO_PATH false]
   /\ last (printed tr) = Some (py "   Please create the repository first."))
  \/ (effects tr
      = [EExists REPO_PATH true; EExists (REPO_PATH / py ".git") false]
      /\ last (printed tr)
         = Some (py "   Please initialize git first: cd "
                 ++ path_str REPO_PATH ++ py " && git init"))
  \/ (exists cp r1 r2,
        effects tr
        = [EExists REPO_PATH true; EExists (REPO_PATH / py ".git") true;
           ESpawn git_show_current REPO_PATH (Done cp);
           ESpawn (git_checkout (py "main")) REPO_PATH r1;
           ESpawn (git_checkout (py "master")) REPO_PATH r2]
        /\ returncode cp = 0%Z
        /\ str_in (strip (stdout cp)) [py "main"; py "master"] = false
        /\ succeeded r1 = false /\ succeeded r2 = false
        /\ last (printed tr)
           = Some (py "❌ Could not switch to main/master branch")).

Definition main_ending (tr : list event) (o : outcome unit) : Prop :=
  match o with
  | Returned _ => (early_exit tr /\ ~ completed tr) \/ full_run tr
  | Raised e => raised_by tr e
  end.

(** [n] written with exactly [w] hexadecimal digits, the most significant
    first (the digits of [n mod 16^w]). *)
Fixpoint digits (w : nat) (n : N) : str :=
  match w with
  | O => []
  | S w' => digits w' (n / 16) ++ [hex_digit (n mod 16)]
  end.

(** The summary names what the run made: the base branch, the branch and
    the path given to the [git worktree add] that exited with 0, also in
    the commands it prints for cleaning up. *)
Definition summary_names (base : str) (tr : list event) : Prop :=
  exists bs home cp,
    let B := almond_branch_of (token_of bs) in
    let P := worktree_path_of home bs in
    In (ESpawn (git_worktree_add B (path_str P) base) REPO_PATH (Done cp)) tr
    /\ returncode cp = 0%Z
    /\ In (EPrint (py "   • Main branch: " ++ base
                   ++ py " (with MAIN VERSION changes)")) tr
    /\ In (EPrint (py "   • Worktree branch: " ++ B
                   ++ py " (with ALMONDCODER VERSION changes)")) tr
    /\ In (EPrint (py "   • Worktree location: " ++ path_str P)) tr
    /\ In (EPrint (py "   3. Drag the '" ++ B ++ py "' node onto '"
                   ++ base ++ py "'")) tr
    /\ In (EPrint (py "   git worktree remove " ++ path_str P)) tr
    /\ In (EPrint (py "   git branch -D " ++ B)) tr.

(** ** More example worlds *)

(** The repository of a user whose home directory cannot be determined. *)
Definition homeless_repo : Sim.World :=
  Sim.mkWorld Sim.example_fs (Failed (py "RuntimeError"))
    (Sim.entropy Sim.example_repo) []
    (Sim.tips Sim.example_repo) (Sim.checked_out Sim.example_repo)
    (Sim.index Sim.example_repo) [] [].

(** The repository with an outside failure at the fourth git command,
    the [git worktree add], and the repository as that run leaves it. *)
Definition worktree_fault_repo : Sim.World :=
  Sim.mkWorld Sim.example_fs (Done (py "/Users/user"))
    (Sim.entropy Sim.example_repo) []
    (Sim.tips Sim.example_repo) (Sim.checked_out Sim.example_repo)
    (Sim.index Sim.example_repo) [] [false; false; false; true].

Definition interrupted_repo : Sim.World :=
  (Sim.interp main worktree_fault_repo).2.



(** * Properties *)

(** String literals are compared as written; [vm_compute] evaluates them. *)
Opaque py.

(** ** Strings *)

Section Strip.

Lemma lstrip_split (s : str) :
  exists l, s = l ++ lstrip s /\ Forall (fun c => isspace c = true) l.
Proof.
  induction s as [|c s IH]; simpl.
  - exists []. split; [reflexivity | constructor].
  - destruct (isspace c) eqn:Hc.
    + destruct IH as (l & Hs & Hl). exists (c :: l). split.
      * simpl. congruence.
      * constructor; assumption.
    + exists []. split; [reflexivity | constructor].
Qed.

Lemma lstrip_head (s : str) c :
  head (lstrip s) = Some c -> isspace c = false.
Proof.
  induction s as [|a s IH]; simpl; [discriminate|].
  destruct (isspace a) eqn:Ha; [exact IH|].
  simpl. intros [= <-]. exact Ha.
Qed.

Lemma rstrip_split (s : str) :
  exists r, s = rstrip s ++ r /\ Forall (fun c => isspace c = true) r.
Proof.
  unfold rstrip. destruct (lstrip_split (rev s)) as (l & Hs & Hl).
  exists (rev l). split.
  - rewrite <- rev_app_distr, <- Hs, rev_involutive. reflexivity.
  - apply Forall_rev. exact Hl.
Qed.

Lemma last_rev_head {A : Type} (l : list A) : last (rev l) = head l.
Proof. destruct l as [|a l]; [reflexivity|]. simpl. apply last_snoc. Qed.

Lemma rstrip_last (s : str) c :
  last (rstrip s) = Some c -> isspace c = false.
Proof.
  unfold rstrip. rewrite last_rev_head. apply lstrip_head.
Qed.

Lemma rstrip_head (s : str) c :
  (forall a, head s = Some a -> isspace a = false) ->
  head (rstrip s) = Some c -> isspace c = false.
Proof.
  intros Hs Hc. destruct (rstrip_split s) as (r & Hr & _).
  apply Hs. rewrite Hr. destruct (rstrip s); [discriminate | exact Hc].
Qed.

(** [strip] removes a run of white space at each end and nothing else, and
    what is left neither starts nor ends with white space. *)
Lemma strip_spec (s : str) :
  (exists l r, s = l ++ strip s ++ r
               /\ Forall (fun c => isspace c = true) l
               /\ Forall (fun c => isspace c = true) r)
  /\ (forall c, head (strip s) = Some c -> isspace c = false)
  /\ (forall c, last (strip s) = Some c -> isspace c = false).
Proof.
  unfold strip. split; [|split].
  - destruct (lstrip_split s) as (l & Hl & Fl).
    destruct (rstrip_split (lstrip s)) as (r & Hr & Fr).
    exists l, r. split; [|split; assumption].
    rewrite <- Hr. exact Hl.
  - intros c. apply rstrip_head. intros a. apply lstrip_head.
  - intros c. apply rstrip_last.
Qed.

End Strip.


(** ** Paths *)

Section Paths.

Lemma split_on_cons_plain sep (x : str) (l : str) :
  sep ∉ x -> split_on sep (x ++ sep :: l) = x :: split_on sep l.
Proof.
  induction x as [|c x IH]; intros Hx; simpl.
  - rewrite N.eqb_refl. reflexivity.
  - apply not_elem_of_cons in Hx as [Hc Hx].
    destruct (N.eqb_spec c sep) as [->|_]; [congruence|].
    rewrite (IH Hx). reflexivity.
Qed.

Lemma split_on_plain sep (x : str) : sep ∉ x -> split_on sep x = [x].
Proof.
  induction x as [|c x IH]; intros Hx; simpl; [reflexivity|].
  apply not_elem_of_cons in Hx as [Hc Hx].
  destruct (N.eqb_spec c sep) as [->|_]; [congruence|].
  rewrite (IH Hx). reflexivity.
Qed.

Lemma split_on_join sep (ps : list str) :
  Forall (fun x => sep ∉ x) ps -> ps <> [] ->
  split_on sep (join [sep] ps) = ps.
Proof.
  induction ps as [|x ps IH]; intros Hps Hne; [congruence|].
  apply Forall_cons in Hps as [Hx Hps].
  destruct ps as [|y ps].
  - simpl. apply split_on_plain. exact Hx.
  - change (join [sep] (x :: y :: ps)) with (x ++ sep :: join [sep] (y :: ps)).
    rewrite split_on_cons_plain by exact Hx.
    rewrite IH by (auto; congruence). reflexivity.
Qed.

Lemma split_on_no_sep sep (s : str) :
  Forall (fun x => sep ∉ x) (split_on sep s).
Proof.
  induction s as [|c s IH]; simpl.
  - repeat constructor. apply not_elem_of_nil.
  - destruct (N.eqb_spec c sep) as [->|Hc].
    + constructor; [apply not_elem_of_nil | exact IH].
    + destruct (split_on sep s) as [|w ws].
      * repeat constructor. apply not_elem_of_cons. split; [auto|].
        apply not_elem_of_nil.
      * apply Forall_cons in IH as [Hw Hws]. constructor; [|exact Hws].
        apply not_elem_of_cons. auto.
Qed.

Lemma keep_part_plain (x : str) : 47 ∉ x -> keep_part x = true -> plain x.
Proof.
  unfold keep_part, str_eqb, plain. intros Hx Hk.
  apply andb_prop in Hk as [H1 H2].
  apply negb_true_iff, bool_decide_eq_false in H1.
  apply negb_true_iff, bool_decide_eq_false in H2. auto.
Qed.

Lemma plain_keep_part (x : str) : plain x -> keep_part x = true.
Proof.
  unfold keep_part, str_eqb. intros (H1 & H2 & _).
  rewrite !bool_decide_eq_false_2 by assumption. reflexivity.
Qed.

Lemma filter_keep_plain (ps : list str) :
  Forall plain ps -> List.filter keep_part ps = ps.
Proof.
  induction 1 as [|x ps Hx _ IH]; simpl; [reflexivity|].
  rewrite (plain_keep_part x Hx), IH. reflexivity.
Qed.

Lemma parts_of_rel (rel : str) :
  Forall plain (List.filter keep_part (split_on 47 rel)).
Proof.
  pose proof (split_on_no_sep 47 rel) as H.
  induction H as [|x l Hx _ IH]; simpl; [constructor|].
  destruct (keep_part x) eqn:Hk; [|exact IH].
  constructor; [|exact IH]. apply keep_part_plain; assumption.
Qed.

Lemma splitroot_cases (s : str) :
  (splitroot s = ([], s) /\ slice 0 1 s <> [47])
  \/ (exists r, s = 47 :: r /\ splitroot s = ([47], r))
  \/ (exists r, s = 47 :: 47 :: r /\ splitroot s = ([47; 47], r)
                /\ slice 0 1 r <> [47]).
Proof.
  unfold splitroot, str_eqb.
  destruct s as [|a s]; [left; split; [reflexivity | discriminate]|].
  change (slice 0 1 (a :: s)) with [a].
  destruct (decide (a = 47)) as [->|Ha].
  2:{ rewrite bool_decide_eq_false_2 by congruence. left.
      split; [reflexivity | congruence]. }
  rewrite bool_decide_eq_true_2 by reflexivity. cbn [negb].
  destruct s as [|b s].
  { right; left. exists []. split; reflexivity. }
  change (slice 1 2 (47 :: b :: s)) with [b].
  change (slice 2 3 (47 :: b :: s)) with (slice 0 1 s).
  destruct (decide (b = 47)) as [->|Hb].
  2:{ rewrite (bool_decide_eq_false_2 ([b] = [47])) by congruence.
      right; left. eexists. split; reflexivity. }
  rewrite (bool_decide_eq_true_2 ([47] = [47])) by reflexivity. cbn [negb orb].
  destruct (decide (slice 0 1 s = [47])) as [Hs|Hs].
  - rewrite bool_decide_eq_true_2 by exact Hs.
    right; left. eexists. split; reflexivity.
  - rewrite bool_decide_eq_false_2 by exact Hs.
    right; right. exists s. repeat split; auto.
Qed.

(** Whatever the string, [Path(s)] is well formed. *)
Lemma parse_wf (s : str) : wf_path (parse s).
Proof.
  unfold parse, wf_path.
  destruct (splitroot_cases s)
    as [[-> _]|[(r & _ & ->)|(r & _ & -> & _)]];
    (split; [simpl; auto | apply parts_of_rel]).
Qed.

Lemma plain_head (x : str) :
  plain x -> exists c r, x = c :: r /\ c <> 47.
Proof.
  intros (H1 & _ & H3). destruct x as [|c r]; [congruence|].
  exists c, r. split; [reflexivity|]. intros ->. apply H3. left.
Qed.

Lemma wf_parts_split (ps : list str) :
  Forall plain ps ->
  List.filter keep_part (split_on 47 (join [47] ps)) = ps.
Proof.
  intros Hps. destruct ps as [|x ps]; [reflexivity|].
  rewrite split_on_join.
  - apply filter_keep_plain. exact Hps.
  - eapply Forall_impl; [exact Hps|]. intros y (_ & _ & Hy). exact Hy.
  - discriminate.
Qed.

Lemma join_head (x : str) (ps : list str) c r :
  x = c :: r -> exists r', join [47] (x :: ps) = c :: r'.
Proof.
  intros ->. destruct ps; simpl; eauto.
Qed.

(** [Path(str(p))] is [p]. *)
Lemma parse_path_str (p : Path) : wf_path p -> parse (path_str p) = p.
Proof.
  destruct p as [rt ps]. unfold wf_path, path_str, parse; simpl.
  intros [Hrt Hps].
  assert (Hhd : ps = [] \/ exists c r', join [47] ps = c :: r' /\ c <> 47).
  { destruct ps as [|x ps]; [left; reflexivity | right].
    apply Forall_cons in Hps as [Hx _].
    destruct (plain_head x Hx) as (c & r & Hxr & Hc).
    destruct (join_head x ps c r Hxr) as (r' & Hj). eauto. }
  pose proof (wf_parts_split ps Hps) as Hsplit.
  destruct Hrt as [->|[->| ->]].
  - destruct Hhd as [->|(c & r' & Hj & Hc)]; [reflexivity|].
    destruct ps as [|x ps]; [discriminate|].
    match goal with
    | |- context [splitroot ?t] => change t with (join [47] (x :: ps))
    end.
    destruct (splitroot_cases (join [47] (x :: ps)))
      as [[-> _]|[(r & Hr & _)|(r & Hr & _)]].
    + rewrite Hsplit. reflexivity.
    + rewrite Hj in Hr. congruence.
    + rewrite Hj in Hr. congruence.
  - assert (Hs : splitroot ([47] ++ join [47] ps) = ([47], join [47] ps)).
    { destruct Hhd as [->|(c & r' & Hj & Hc)]; [reflexivity|].
      rewrite Hj. unfold splitroot, str_eqb.
      change (slice 0 1 ([47] ++ c :: r')) with [47].
      change (slice 1 2 ([47] ++ c :: r')) with [c].
      rewrite (bool_decide_eq_true_2 ([47] = [47])) by reflexivity.
      rewrite (bool_decide_eq_false_2 ([c] = [47])) by congruence.
      reflexivity. }
    destruct ps as [|x ps].
    + reflexivity.
    + match goal with
      | |- context [splitroot ?t] =>
        change t with ([47] ++ join [47] (x :: ps))
      end.
      rewrite Hs, Hsplit. reflexivity.
  - assert (Hs : splitroot ([47; 47] ++ join [47] ps)
                 = ([47; 47], join [47] ps)).
    { destruct Hhd as [->|(c & r' & Hj & Hc)]; [reflexivity|].
      rewrite Hj. unfold splitroot, str_eqb.
      change (slice 0 1 ([47; 47] ++ c :: r')) with [47].
      change (slice 1 2 ([47; 47] ++ c :: r')) with [47].
      change (slice 2 3 ([47; 47] ++ c :: r')) with [c].
      rewrite !(bool_decide_eq_true_2 ([47] = [47])) by reflexivity.
      rewrite (bool_decide_eq_false_2 ([c] = [47])) by congruence.
      reflexivity. }
    destruct ps as [|x ps].
    + reflexivity.
    + match goal with
      | |- context [splitroot ?t] =>
        change t with ([47; 47] ++ join [47] (x :: ps))
      end.
      rewrite Hs, Hsplit. reflexivity.
Qed.

(** [p / x] for one plain component appends it. *)
Lemma parse_plain (x : str) : plain x -> parse x = mkPath [] [x].
Proof.
  intros Hx. destruct (plain_head x Hx) as (c & r & -> & Hc).
  unfold parse. destruct (splitroot_cases (c :: r))
    as [[-> _]|[(r0 & Hr & _)|(r0 & Hr & _)]]; try congruence.
  destruct Hx as (H1 & H2 & H3).
  rewrite split_on_plain by exact H3. simpl.
  rewrite plain_keep_part by (repeat split; assumption). reflexivity.
Qed.

Lemma div_plain (p : Path) (x : str) :
  plain x -> (p / x)%path = mkPath (root p) (parts p ++ [x]).
Proof. intros Hx. unfold div. rewrite parse_plain by exact Hx. reflexivity. Qed.

Lemma div_wf (p : Path) (s : str) : wf_path p -> wf_path (p / s)%path.
Proof.
  intros [Hr Hp]. unfold div. pose proof (parse_wf s) as [Hr' Hp'].
  destruct (root (parse s)) eqn:E.
  - split; [exact Hr | simpl; apply Forall_app; auto].
  - apply parse_wf.
Qed.

End Paths.


(** ** The random token *)

Section Token.

Lemma hex_digit_is_hex (d : N) : d < 16 -> is_hex_digit (hex_digit d) = true.
Proof.
  intros Hd. unfold hex_digit, is_hex_digit.
  destruct (N.ltb_spec d 10).
  - replace (48 <=? 48 + d) with true by (symmetry; apply N.leb_le; lia).
    replace (48 + d <=? 57) with true by (symmetry; apply N.leb_le; lia).
    reflexivity.
  - replace (97 <=? 87 + d) with true by (symmetry; apply N.leb_le; lia).
    replace (87 + d <=? 102) with true by (symmetry; apply N.leb_le; lia).
    apply orb_true_r.
Qed.

Lemma hex_aux_is_hex fuel : forall n acc,
  Forall (fun c => is_hex_digit c = true) acc ->
  Forall (fun c => is_hex_digit c = true) (hex_aux fuel n acc).
Proof.
  induction fuel as [|f IH]; intros n acc Hacc; simpl.
  - constructor; [|exact Hacc]. apply hex_digit_is_hex.
    apply N.mod_lt. discriminate.
  - destruct (N.ltb_spec n 16).
    + constructor; [|exact Hacc]. apply hex_digit_is_hex. assumption.
    + apply IH. constructor; [|exact Hacc]. apply hex_digit_is_hex.
      apply N.mod_lt. discriminate.
Qed.

Lemma hex_pad_is_hex w n :
  Forall (fun c => is_hex_digit c = true) (hex_pad w n).
Proof.
  unfold hex_pad. apply Forall_app. split.
  - apply Forall_forall. intros c Hc.
    apply list_elem_of_In, repeat_spec in Hc. subst. reflexivity.
  - apply hex_aux_is_hex. constructor.
Qed.

Lemma hex_pad_length w n : (w <= length (hex_pad w n))%nat.
Proof. unfold hex_pad. rewrite length_app, repeat_length. lia. Qed.

Lemma token_of_take bs : token_of bs = take 8 (hex_pad 32 (uuid4_int bs)).
Proof.
  unfold token_of, uuid_str, slice.
  change (8 - 0)%nat with 8%nat. rewrite !drop_0.
  rewrite take_app_le; [apply take_take|].
  rewrite length_take. pose proof (hex_pad_length 32 (uuid4_int bs)). lia.
Qed.

(** The token is eight hexadecimal digits, whatever the random bytes. *)
Lemma token_of_is_token bs : is_token (token_of bs).
Proof.
  rewrite token_of_take. split.
  - rewrite length_take. pose proof (hex_pad_length 32 (uuid4_int bs)). lia.
  - apply Forall_take, hex_pad_is_hex.
Qed.

Lemma hex_not_slash c : is_hex_digit c = true -> c <> 47.
Proof. intros H ->. discriminate. Qed.

Lemma worktree_name_plain t : is_token t -> plain (worktree_name_of t).
Proof.
  intros [_ Ht]. unfold plain, worktree_name_of.
  change (py "test-conflict-")
    with [116; 101; 115; 116; 45; 99; 111; 110; 102; 108; 105; 99; 116; 45].
  split; [discriminate|]. split; [discriminate|].
  rewrite elem_of_app. intros [H|H].
  - revert H. rewrite !elem_of_cons, elem_of_nil. intuition discriminate.
  - rewrite Forall_forall in Ht. apply Ht in H. discriminate.
Qed.

Example hex_255 : hex 255 = py "ff".
Proof. reflexivity. Qed.

Example uuid_str_ones :
  uuid_str (uuid4_int (repeat xff 16))
  = py "ffffffff-ffff-4fff-bfff-ffffffffffff".
Proof. vm_compute. reflexivity. Qed.

Example uuid_str_zeros :
  uuid_str (uuid4_int (repeat x00 16))
  = py "00000000-0000-4000-8000-000000000000".
Proof. vm_compute. reflexivity. Qed.

End Token.


(** ** The trace semantics *)

Lemma exec_runs {A : Type} (p : prog A) tr o : exec p tr o <-> runs p tr o.
Proof.
  split.
  - induction 1; simpl; eauto 8.
  - revert tr o. induction p; simpl; intros tr o Hr.
    + destruct Hr as [-> ->]. constructor.
    + destruct Hr as [-> ->]. constructor.
    + destruct Hr as (tr' & -> & Hr). constructor. auto.
    + destruct Hr as (b & tr' & -> & Hr). constructor. auto.
    + destruct Hr as (r & tr' & -> & Hr). constructor. auto.
    + destruct Hr as (r & tr' & -> & Hr). constructor. auto.
    + destruct Hr as (r & tr' & -> & Hr). constructor. auto.
    + destruct Hr as (r & tr' & -> & Hr). constructor. auto.
    + destruct Hr as (bs & tr' & -> & Hl & Hr). constructor; auto.
    + destruct Hr as (r & tr' & -> & Hr). constructor. auto.
Qed.

Lemma each_spawn_at Q pre : forall seen c d r post,
  each_spawn Q seen (pre ++ ESpawn c d r :: post) ->
  Q (seen ++ pre) c d r post.
Proof.
  induction pre as [|e pre IH]; intros seen c d r post H.
  - rewrite app_nil_r. simpl in H. tauto.
  - assert (H' : each_spawn Q (seen ++ [e]) (pre ++ ESpawn c d r :: post)).
    { destruct e; simpl in H; tauto. }
    apply IH in H'. rewrite <- app_assoc in H'. exact H'.
Qed.

Lemma each_spawn_and Q1 Q2 tr : forall seen,
  each_spawn (fun s c d r rest => Q1 s c d r rest /\ Q2 s c d r rest) seen tr
  <-> each_spawn Q1 seen tr /\ each_spawn Q2 seen tr.
Proof.
  induction tr as [|e tr IH]; intros seen; simpl; [tauto|].
  destruct e; rewrite ?IH; tauto.
Qed.

(** Unfolding the requests of a program under [runs], one at a time:
    [expose] brings the next request to the head, [step] opens it or
    splits on the answer the program is waiting for. *)
Ltac expose H :=
  cbn [bind mbind prog_bind mret prog_ret try_except lift print path_exists
       path_home mkdir rmtree write_text subprocess_run str_uuid4
       run_git_command negb default from_option id runs] in H.

Ltac stuck p :=
  lazymatch p with
  | bind ?q _ => stuck q
  | mbind _ ?q => stuck q
  | try_except ?q _ => stuck q
  | lift ?x => x
  | match ?x with _ => _ end => x
  end.

Ltac peel x :=
  lazymatch x with
  | negb ?y => peel y
  | _ => x
  end.

Ltac step H :=
  lazymatch type of H with
  | _ /\ _ => let E := fresh "E" in destruct H as [E H]; try subst
  | exists _, _ => let x := fresh "x" in destruct H as [x H]
  | runs ?p _ _ =>
    let x := stuck p in
    let x := peel x in
    let E := fresh "E" in
    destruct x eqn:E;
    repeat match goal with u : unit |- _ => destruct u end;
    expose H
  end.

Ltac run H := expose H; repeat step H.

Lemma plainb_plain (x : str) : plainb x = true -> plain x.
Proof.
  unfold plainb. intros H. apply andb_prop in H as [Hk Hf].
  apply keep_part_plain; [|exact Hk].
  rewrite forallb_forall in Hf. intros Hin.
  apply list_elem_of_In, Hf in Hin. discriminate.
Qed.

Lemma plain_almondcoder : plain (py ".almondcoder").
Proof. apply plainb_plain. vm_compute. reflexivity. Qed.

Lemma name_REPO_PATH : name REPO_PATH = py "website".
Proof. reflexivity. Qed.

Lemma plain_website : plain (py "website").
Proof. apply plainb_plain. vm_compute. reflexivity. Qed.

Lemma worktree_path_wf home bs :
  wf_path (worktree_path_of home bs)
  /\ worktree_path_of home bs
     = mkPath (root (parse home))
         (parts (parse home)
          ++ [py ".almondcoder"; py "website"; worktree_name_of (token_of bs)]).
Proof.
  unfold worktree_path_of, project_worktree_dir_of.
  split.
  - repeat apply div_wf. apply parse_wf.
  - rewrite name_REPO_PATH.
    rewrite !div_plain by
      (first [apply plain_almondcoder | apply plain_website
             | apply worktree_name_plain, token_of_is_token]).
    simpl. rewrite <- !app_assoc. reflexivity.
Qed.

Lemma worktree_path_parts home bs : parts (worktree_path_of home bs) <> [].
Proof.
  destruct (worktree_path_wf home bs) as [_ ->]. simpl.
  destruct (parts (parse home)); discriminate.
Qed.

Lemma git_worktree_add_inj b p m b' p' m' :
  git_worktree_add b p m = git_worktree_add b' p' m' ->
  b = b' /\ p = p' /\ m = m'.
Proof. intros H. injection H as -> -> ->. auto. Qed.

Lemma not_worktree_add_3 (a b c : str) b' p' m' :
  [a; b; c] = git_worktree_add b' p' m' -> False.
Proof. discriminate. Qed.

Lemma not_worktree_add_4 (a b c d : str) b' p' m' :
  [a; b; c; d] = git_worktree_add b' p' m' -> False.
Proof. discriminate. Qed.

Lemma snoc3 {A : Type} (l : list A) a b c :
  ((l ++ [a]) ++ [b]) ++ [c] = l ++ [a; b; c].
Proof. rewrite <- !app_assoc. reflexivity. Qed.

Ltac solve_aborts :=
  let cp := fresh "cp" in
  let Hr := fresh "Hr" in
  let Hrc := fresh "Hrc" in
  let Hck := fresh "Hck" in
  intros cp Hr Hrc Hck;
  first
    [ discriminate Hr
    | injection Hr as <-;
      first
        [ exfalso;
          match goal with
          | E : (returncode ?a =? 0)%Z = true, N : returncode ?a <> 0%Z |- _ =>
            apply N, Z.eqb_eq, E
          end
        | exfalso; vm_compute in Hck; discriminate Hck
        | split; reflexivity ] ].

Ltac find_in :=
  repeat (apply in_or_app; first [right; left; reflexivity | left]).

(** [Hc : c = git_worktree_add _ _ _]: either [c] is another command, or
    the three arguments are identified. *)
Ltac which_command Hc k :=
  lazymatch type of Hc with
  | git_worktree_add _ _ _ = _ =>
    apply git_worktree_add_inj in Hc as (<- & <- & <-); k
  | _ => exfalso;
         first [ exact (not_worktree_add_3 _ _ _ _ _ _ Hc)
               | exact (not_worktree_add_4 _ _ _ _ _ _ _ Hc) ]
  end.

Lemma snoc_mid3 {A : Type} (l : list A) a b c d :
  (((l ++ [a]) ++ [b]) ++ [c]) ++ [d] = l ++ a :: [b; c; d].
Proof. rewrite <- !app_assoc. reflexivity. Qed.

Lemma snoc_mid5 {A : Type} (l : list A) a b c d e f :
  (((((l ++ [a]) ++ [b]) ++ [c]) ++ [d]) ++ [e]) ++ [f]
  = l ++ a :: [b; c; d; e; f].
Proof. rewrite <- !app_assoc. reflexivity. Qed.

Ltac solve_placed :=
  let Hc := fresh "Hc" in
  intros ? ? ? Hc;
  which_command Hc
    ltac:(idtac; lazymatch goal with
          | |- context [EUrandom 16 ?bs] =>
            lazymatch goal with
            | |- context [EHome (Done ?h)] =>
              exists bs, h; do 2 eexists;
              split; [reflexivity|]; split; [reflexivity|];
              split; [reflexivity|];
              split; [|split; [|split;
                [first [apply snoc_mid3 | apply snoc_mid5]|]]];
              [find_in | find_in | repeat constructor]
            end
          end).

Ltac solve_guarded :=
  let Hc := fresh "Hc" in
  intros ? ? ? Hc;
  which_command Hc
    ltac:(idtac; lazymatch goal with
          | |- context [EUrandom 16 ?bs] =>
            lazymatch goal with
            | |- context [EHome (Done ?h)] =>
              exists (worktree_path_of h bs); eexists;
              split; [reflexivity|];
              split; [apply worktree_path_wf|];
              split; [apply worktree_path_parts|];
              first [ left; reflexivity
                    | right; eexists; apply snoc3 ]
            end
          end).

Ltac solve_spawns :=
  cbn [each_spawn];
  repeat lazymatch goal with
         | |- True => exact I
         | |- sound_spawn _ _ _ _ _ _ /\ _ =>
           split;
           [ split; [solve_aborts | split; [solve_placed | solve_guarded]] |]
         end.

Lemma scenario_spawns b tr o :
  runs (scenario b) tr o ->
  forall seen, each_spawn (sound_spawn o) seen tr.
Proof.
  intros H seen. unfold scenario, summary in H. run H.
  all: solve_spawns.
Qed.


Lemma main_spawns tr o :
  runs main tr o -> each_spawn (sound_spawn o) [] tr.
Proof.
  intros H. unfold main, resolve_branch in H. run H.
  all: cbn [each_spawn app].
  all: repeat lazymatch goal with
         | |- True => exact I
         | |- sound_spawn _ _ _ _ _ _ /\ _ =>
           split;
           [ split; [solve_aborts
                    | split; intros ? ? ? Hc; exfalso;
                      exact (not_worktree_add_3 _ _ _ _ _ _ Hc)] |]
         end.
  all: try (eapply scenario_spawns; eassumption).
Qed.


(** ** The simulated environment runs the trace semantics *)

Lemma replay_app tr1 : forall tr2 w w',
  Sim.replay (tr1 ++ tr2) w w'
  <-> exists w1, Sim.replay tr1 w w1 /\ Sim.replay tr2 w1 w'.
Proof.
  induction tr1 as [|e tr1 IH]; intros tr2 w w'; simpl.
  - split.
    + intros H. exists w. auto.
    + intros (w1 & -> & H). exact H.
  - split.
    + intros (w1 & Hm & H). apply IH in H as (w2 & H1 & H2). eauto.
    + intros (w2 & (w1 & Hm & H1) & H2). exists w1. split; [exact Hm|].
      apply IH. eauto.
Qed.

Lemma urandom_length n w : length (Sim.do_urandom n w).1 = n.
Proof.
  unfold Sim.do_urandom. simpl. rewrite length_take, length_app, repeat_length.
  lia.
Qed.

Lemma interp_sound {A : Type} (p : prog A) : forall w tr o w',
  Sim.interp p w = (tr, o, w') -> runs p tr o /\ Sim.replay tr w w'.
Proof.
  induction p as [a|e|s k IH|q k IH|k IH|q ps eo k IH|q k IH|q d k IH
                 |n k IH|c d k IH];
    intros w tr o w' Hi; cbn [Sim.interp] in Hi.
  - injection Hi as <- <- <-. simpl. auto.
  - injection Hi as <- <- <-. simpl. auto.
  - destruct (Sim.interp k (Sim.do_print s w)) as [[tr1 o1] w1] eqn:E.
    injection Hi as <- <- <-. apply IH in E as [Hr Hp].
    simpl. eauto 8.
  - destruct (Sim.interp (k (Sim.exists_at (Sim.fs w) q)) w)
      as [[tr1 o1] w1] eqn:E.
    injection Hi as <- <- <-. apply IH in E as [Hr Hp].
    simpl. eauto 10.
  - destruct (Sim.interp (k (Sim.home_dir w)) w) as [[tr1 o1] w1] eqn:E.
    injection Hi as <- <- <-. apply IH in E as [Hr Hp].
    simpl. eauto 10.
  - destruct (Sim.fs_mkdir q ps eo (Sim.fs w)) as [r m] eqn:Em.
    destruct (Sim.interp (k r) (Sim.set_fs w m)) as [[tr1 o1] w1] eqn:E.
    injection Hi as <- <- <-. apply IH in E as [Hr Hp].
    simpl. rewrite Em. eauto 10.
  - destruct (Sim.fs_rmtree q (Sim.fs w)) as [r m] eqn:Em.
    destruct (Sim.interp (k r) (Sim.set_fs w m)) as [[tr1 o1] w1] eqn:E.
    injection Hi as <- <- <-. apply IH in E as [Hr Hp].
    simpl. rewrite Em. eauto 10.
  - destruct (Sim.fs_write q d (Sim.fs w)) as [r m] eqn:Em.
    destruct (Sim.interp (k r) (Sim.set_fs w m)) as [[tr1 o1] w1] eqn:E.
    injection Hi as <- <- <-. apply IH in E as [Hr Hp].
    simpl. rewrite Em. eauto 10.
  - destruct (Sim.do_urandom n w) as [bs w0] eqn:Eu.
    destruct (Sim.interp (k bs) w0) as [[tr1 o1] w1] eqn:E.
    injection Hi as <- <- <-. apply IH in E as [Hr Hp].
    pose proof (urandom_length n w) as Hl. rewrite Eu in Hl.
    simpl. rewrite Eu. split; eauto 10.
  - destruct (Sim.git_exec c d w) as [r w0] eqn:Eg.
    destruct (Sim.interp (k r) w0) as [[tr1 o1] w1] eqn:E.
    injection Hi as <- <- <-. apply IH in E as [Hr Hp].
    simpl. rewrite Eg. eauto 10.
Qed.

(** Every world has its run. *)
Lemma interp_exec {A : Type} (p : prog A) w :
  exec p (Sim.interp p w).1.1 (Sim.interp p w).1.2.
Proof.
  destruct (Sim.interp p w) as [[tr o] w'] eqn:E.
  apply interp_sound in E as [Hr _]. apply exec_runs. exact Hr.
Qed.


(** ** Precondition failures *)

Ltac compute_answers H :=
  cbn [exists_answers omap list_omap head] in H.

(** C4: when the target directory does not exist, or exists without a
    [.git] entry, [main] prints its two-line error, makes no other request
    than the existence checks (in particular it starts no git command),
    returns normally, and the process exits with status 0. *)
Theorem C4_precondition_failure tr o :
  exec main tr o ->
  (head (exists_answers tr) = Some (REPO_PATH, false)
   \/ exists rest,
        exists_answers tr
        = (REPO_PATH, true) :: (REPO_PATH / py ".git", false) :: rest) ->
  o = Returned tt
  /\ exit_status o = 0%Z
  /\ spawns tr = []
  /\ Forall (fun e => match e with
                      | EPrint _ | EExists _ _ => True
                      | _ => False
                      end) tr
  /\ (drop 2 (printed tr)
      = [py "❌ Repository not found: " ++ path_str REPO_PATH;
         py "   Please create the repository first."]
      \/ drop 2 (printed tr)
         = [py "❌ Not a git repository: " ++ path_str REPO_PATH;
            py "   Please initialize git first: cd " ++ path_str REPO_PATH
            ++ py " && git init"]).
Proof.
  intros H Hh. apply exec_runs in H. unfold main, resolve_branch in H.
  run H.
  all: compute_answers Hh.
  all: first
         [ exfalso; destruct Hh as [Hh|[rest Hh]];
           [ discriminate Hh | injection Hh; intros; discriminate ]
         | idtac ].
  all: split; [reflexivity|]; split; [reflexivity|]; split; [reflexivity|].
  all: split; [repeat constructor|].
  all: cbn [printed omap list_omap drop].
  - right. reflexivity.
  - left. reflexivity.
Qed.


(** ** Branch resolution *)

Ltac compute_spawns H := cbn [spawns List.filter is_spawn] in H.

(** [Hf : succeeded r = false] for an answer that succeeded. *)
Ltac succeeded_false Hf :=
  cbn [succeeded] in Hf;
  match goal with
  | E : (returncode ?a =? 0)%Z = true |- _ => rewrite E in Hf; discriminate Hf
  end.

(** C3: when the current branch is neither [main] nor [master], the next
    command of [main] is [git checkout main]; if that fails, the next is
    [git checkout master]; if that fails too, [main] prints its error
    and returns.  The whole run is then the one written out below: after
    the two existence checks and [git branch --show-current] it made the
    two checkouts and nothing else but printing, so no file was written,
    nothing was committed, and no later step (random token, home
    directory, [mkdir], existence check, [rmtree], [git worktree add])
    was reached. *)
Theorem C3_fallback_chain tr o cp rest :
  exec main tr o ->
  spawns tr
  = ESpawn [py "git"; py "branch"; py "--show-current"] REPO_PATH (Done cp)
    :: rest ->
  returncode cp = 0%Z ->
  str_in (strip (stdout cp)) [py "main"; py "master"] = false ->
  exists r1 rest1,
    rest = ESpawn [py "git"; py "checkout"; py "main"] REPO_PATH r1 :: rest1
    /\ (succeeded r1 = false ->
        exists r2 rest2,
          rest1
          = ESpawn [py "git"; py "checkout"; py "master"] REPO_PATH r2
            :: rest2
          /\ (succeeded r2 = false ->
              rest2 = [] /\ writes tr = [] /\ o = Returned tt
              /\ exit_status o = 0%Z
              /\ last (printed tr)
                 = Some (py "❌ Could not switch to main/master branch")
              /\ effects tr
                 = [EExists REPO_PATH true;
                    EExists (REPO_PATH / py ".git") true;
                    ESpawn [py "git"; py "branch"; py "--show-current"]
                      REPO_PATH (Done cp);
                    ESpawn [py "git"; py "checkout"; py "main"] REPO_PATH r1;
                    ESpawn [py "git"; py "checkout"; py "master"] REPO_PATH
                      r2]
              /\ tr
                 = [EPrint (py "🔧 AlmondCoder Merge Conflict Test Setup (Worktree Version)");
                    EPrint (repeat_str (py "=") 50);
                    EExists REPO_PATH true;
                    EExists (REPO_PATH / py ".git") true;
                    EPrint (py "✅ Found git repository: "
                            ++ path_str REPO_PATH);
                    ESpawn [py "git"; py "branch"; py "--show-current"]
                      REPO_PATH (Done cp);
                    EPrint (py "📍 Current branch: " ++ strip (stdout cp));
                    EPrint (py "⚠️  Not on main/master. Switching to main...");
                    ESpawn [py "git"; py "checkout"; py "main"] REPO_PATH r1]
                   ++ report_of [py "git"; py "checkout"; py "main"] r1
                   ++ [ESpawn [py "git"; py "checkout"; py "master"]
                         REPO_PATH r2]
                   ++ report_of [py "git"; py "checkout"; py "master"] r2
                   ++ [EPrint
                         (py "❌ Could not switch to main/master branch")])).
Proof.
  intros H Hs Hrc Hin. apply exec_runs in H.
  change [py "git"; py "branch"; py "--show-current"]
    with git_show_current in *.
  change [py "git"; py "checkout"; py "main"]
    with (git_checkout (py "main")).
  change [py "git"; py "checkout"; py "master"]
    with (git_checkout (py "master")).
  unfold main, resolve_branch in H. run H.
  all: compute_spawns Hs.
  all: lazymatch type of Hs with
       | [] = _ => discriminate Hs
       | ESpawn _ _ (Failed _) :: _ = _ =>
         exfalso; injection Hs as Hs _; discriminate Hs
       | ESpawn _ _ (Done _) :: _ = _ => injection Hs as <- <-
       end.
  all: try match goal with
           | E : (returncode ?a =? 0)%Z = false, R : returncode ?a = 0%Z |- _ =>
             exfalso; apply Z.eqb_neq in E; contradiction
           end.
  all: try congruence.
  all: do 2 eexists; (split; [reflexivity|]); intros Hf;
       try succeeded_false Hf.
  all: do 2 eexists; (split; [reflexivity|]); intros Hf2;
       try succeeded_false Hf2.
  all: do 5 (split; [reflexivity|]).
  all: split; [reflexivity|].
  all: cbn [report_of];
       repeat match goal with
              | E : (returncode ?a =? 0)%Z = false
                |- context [(returncode ?a =? 0)%Z] => rewrite E
              end;
       reflexivity.
Qed.


(** ** Failing commands *)

(** C5: a git command outside the branch-resolution fallback that exits
    non-zero makes [run_git_command] print the command and its captured
    standard error and raise the error again; [main] ends there with that
    error (exit status 1).  Nothing is retried and nothing is undone: no
    request follows the two printed lines, so the simulated world after
    the run is the world the failing command left, with two more lines on
    the console. *)
Theorem C5_failed_command_aborts tr o pre c d cp post :
  exec main tr o ->
  tr = pre ++ ESpawn c d (Done cp) :: post ->
  returncode cp <> 0%Z ->
  is_checkout c = false ->
  post = [EPrint (py "❌ Git command failed: " ++ join (py " ") c);
          EPrint (py "   Error: " ++ stderr cp)]
  /\ o = Raised (CalledProcessError (returncode cp) c (stdout cp) (stderr cp))
  /\ exit_status o = 1%Z
  /\ forall w w',
       Sim.replay tr w w' ->
       exists w1,
         Sim.replay (pre ++ [ESpawn c d (Done cp)]) w w1
         /\ w' = Sim.do_print (py "   Error: " ++ stderr cp)
                   (Sim.do_print
                      (py "❌ Git command failed: " ++ join (py " ") c) w1).
Proof.
  intros H Htr Hrc Hck. apply exec_runs, main_spawns in H. subst tr.
  apply each_spawn_at in H as [Ha _].
  destruct (Ha cp eq_refl Hrc Hck) as [-> ->].
  split; [reflexivity|]. split; [reflexivity|]. split; [reflexivity|].
  intros w w' Hp.
  change (pre ++ ESpawn c d (Done cp) :: failure_report c cp)
    with (pre ++ [ESpawn c d (Done cp)] ++ failure_report c cp) in Hp.
  rewrite app_assoc in Hp. apply replay_app in Hp as (w1 & H1 & H2).
  exists w1. split; [exact H1|].
  simpl in H2. destruct H2 as (w2 & -> & w3 & -> & ->). reflexivity.
Qed.

(** ** The output of a command *)

Ltac in_list := cbn [In]; repeat first [left; reflexivity | right].

(** C9: when [run_git_command] returns, it has started the command once,
    the command exited with status 0, and the result is its standard
    output without the white space at both ends (so it never ends with a
    line feed).  In particular the name [main] prints as the current
    branch and tests against [main] and [master] is the stripped output of
    [git branch --show-current]. *)
Theorem C9_stdout_is_stripped cmd cwd tr s :
  exec (run_git_command cmd cwd) tr (Returned s) ->
  (exists cp,
     tr = [ESpawn cmd (default REPO_PATH cwd) (Done cp)]
     /\ returncode cp = 0%Z
     /\ s = strip (stdout cp)
     /\ exists l r,
          stdout cp = l ++ s ++ r
          /\ Forall (fun c => isspace c = true) l
          /\ Forall (fun c => isspace c = true) r)
  /\ (forall c, head s = Some c -> isspace c = false)
  /\ (forall c, last s = Some c -> isspace c = false)
  /\ last s <> Some 10
  /\ (forall trm o cp rest,
        exec main trm o ->
        spawns trm = ESpawn git_show_current REPO_PATH (Done cp) :: rest ->
        returncode cp = 0%Z ->
        In (EPrint (py "📍 Current branch: " ++ strip (stdout cp))) trm
        /\ (str_in (strip (stdout cp)) [py "main"; py "master"] = true ->
            In (EPrint (py "✅ Working on branch: " ++ strip (stdout cp)))
              trm)
        /\ (str_in (strip (stdout cp)) [py "main"; py "master"] = false ->
            exists r rest',
              rest = ESpawn (git_checkout (py "main")) REPO_PATH r :: rest')).
Proof.
  intros H. apply exec_runs in H. run H.
  all: try match goal with
           | E : Returned _ = Raised _ |- _ => discriminate E
           end.
  match goal with
  | E : Returned _ = Returned _ |- _ => injection E as ->
  end.
  destruct (strip_spec (stdout a)) as (Hsplit & Hhead & Hlast).
  split.
  { exists a. split; [reflexivity|]. split; [apply Z.eqb_eq; assumption|].
    split; [reflexivity | exact Hsplit]. }
  split; [exact Hhead|]. split; [exact Hlast|].
  split.
  { intros Hnl. apply Hlast in Hnl. discriminate Hnl. }
  clear. intros trm o cp rest H Hs Hrc. apply exec_runs in H.
  unfold main, resolve_branch in H. run H.
  all: compute_spawns Hs.
  all: lazymatch type of Hs with
       | [] = _ => discriminate Hs
       | ESpawn _ _ (Failed _) :: _ = _ =>
         exfalso; injection Hs as Hs _; discriminate Hs
       | ESpawn _ _ (Done _) :: _ = _ => injection Hs as <- <-
       end.
  all: try match goal with
           | E : (returncode ?a =? 0)%Z = false, R : returncode ?a = 0%Z |- _ =>
             exfalso; apply Z.eqb_neq in E; contradiction
           end.
  all: split; [in_list|].
  all: split; intros Hin; try congruence.
  all: try in_list.
  all: do 2 eexists; reflexivity.
Qed.


(** ** The simulated file system *)

Section FileSystem.

Import Sim.

Lemma node_at_lookup (m : gmap Path node) p :
  parts p <> [] -> node_at m p = m !! p.
Proof. unfold node_at. destruct (parts p); [congruence | reflexivity]. Qed.

Lemma under_refl p : under p p.
Proof. split; reflexivity. Qed.

(** After [shutil.rmtree(p)] succeeded nothing is left at or below [p],
    and everything else is as before. *)
Lemma fs_rmtree_done p m m' :
  fs_rmtree p m = (Done tt, m') ->
  node_at m p = Some Dir
  /\ (forall q, under p q -> m' !! q = None)
  /\ (forall q, ~ under p q -> m' !! q = m !! q).
Proof.
  unfold fs_rmtree. destruct (node_at m p) as [[|data]|] eqn:E; try discriminate.
  intros [= <-]. split; [reflexivity|]. split.
  - intros q Hq. apply map_lookup_filter_None. right. intros x _ Hn.
    apply Hn. exact Hq.
  - intros q Hq. destruct (m !! q) as [x|] eqn:Eq.
    + apply map_lookup_filter_Some. split; [exact Eq | exact Hq].
    + apply map_lookup_filter_None. left. exact Eq.
Qed.

(** [rmtree] refuses what is not a directory and changes nothing then. *)
Lemma fs_rmtree_failed p m cls m' :
  fs_rmtree p m = (Failed cls, m') ->
  m' = m /\ node_at m p <> Some Dir.
Proof.
  unfold fs_rmtree. destruct (node_at m p) as [[|data]|]; try discriminate;
    intros [= _ <-]; split; congruence.
Qed.

Lemma make_dirs_in ps : forall (m : gmap Path node) q,
  q ∈ ps -> make_dirs ps m !! q = Some Dir.
Proof.
  induction ps as [|p ps IH]; intros m q Hq; simpl.
  - apply elem_of_nil in Hq. contradiction.
  - destruct (decide (p = q)) as [->|Hne].
    + apply lookup_insert_eq.
    + rewrite lookup_insert_ne by exact Hne. apply IH.
      apply elem_of_cons in Hq as [->|Hq]; [congruence | exact Hq].
Qed.

Lemma make_dirs_out ps : forall (m : gmap Path node) q,
  q ∉ ps -> make_dirs ps m !! q = m !! q.
Proof.
  induction ps as [|p ps IH]; intros m q Hq; simpl; [reflexivity|].
  apply not_elem_of_cons in Hq as [Hne Hq].
  rewrite lookup_insert_ne by congruence. apply IH. exact Hq.
Qed.

Lemma chain_parts p q : q ∈ chain p -> parts q <> [].
Proof.
  unfold chain. intros Hq. apply list_elem_of_fmap in Hq as (n & -> & Hn).
  apply list_elem_of_In, in_seq in Hn. simpl.
  destruct (parts p) as [|x l]; [simpl in Hn; lia|].
  destruct n; [lia | discriminate].
Qed.

Lemma chain_self p : parts p <> [] -> p ∈ chain p.
Proof.
  intros Hp. unfold chain. apply list_elem_of_fmap.
  exists (length (parts p)). split.
  - rewrite firstn_all. destruct p; reflexivity.
  - apply list_elem_of_In, in_seq. destruct (parts p); [congruence|].
    simpl. lia.
Qed.

(** [mkdir(parents=True, exist_ok=True)] that succeeded: either [p] was
    a directory and nothing changed, or nothing was at [p] and there is
    now a directory at [p] and at every path above it, and nothing else
    changed. *)
Lemma fs_mkdir_parents_done p m m' :
  fs_mkdir p true true m = (Done tt, m') ->
  node_at m' p = Some Dir
  /\ ((node_at m p = Some Dir /\ m' = m)
      \/ (node_at m p = None
          /\ Forall (fun q => node_at m' q = Some Dir) (chain p)
          /\ forall q, q ∉ chain p -> m' !! q = m !! q)).
Proof.
  unfold fs_mkdir. destruct (node_at m p) as [[|data]|] eqn:E; try discriminate.
  - intros [= <-]. split; [exact E|]. left. auto.
  - destruct (existsb (is_file m) (chain p)) eqn:Ef; [discriminate|].
    intros [= <-].
    assert (Hp : parts p <> []).
    { intros Hp. unfold node_at in E. rewrite Hp in E. discriminate. }
    split.
    + rewrite node_at_lookup by exact Hp.
      apply make_dirs_in, chain_self, Hp.
    + right. split; [reflexivity|]. split.
      * apply Forall_forall. intros q Hq.
        rewrite node_at_lookup by (eapply chain_parts; exact Hq).
        apply make_dirs_in. exact Hq.
      * intros q Hq. apply make_dirs_out. exact Hq.
Qed.

End FileSystem.


(** ** Where the working tree is made *)

Lemma fs_do_print s w : Sim.fs (Sim.do_print s w) = Sim.fs w.
Proof. reflexivity. Qed.

Lemma fs_set_fs w m : Sim.fs (Sim.set_fs w m) = m.
Proof. reflexivity. Qed.

(** Quiet events keep every entry that is not at or below [wt]. *)
Lemma replay_quiet wt mid : forall w w' q,
  Forall (quiet wt) mid -> Sim.replay mid w w' -> ~ Sim.under wt q ->
  Sim.fs w' !! q = Sim.fs w !! q.
Proof.
  induction mid as [|e mid IH]; intros w w' q Hq Hp Hu; simpl in Hp.
  - subst. reflexivity.
  - apply Forall_cons in Hq as [He Hq]. destruct Hp as (w1 & Hm & Hp).
    rewrite (IH w1 w' q Hq Hp Hu). clear IH Hp.
    destruct e; simpl in He; try contradiction; simpl in Hm.
    + subst w1. reflexivity.
    + destruct Hm as [_ ->]. reflexivity.
    + subst p. destruct Hm as (m & Hm & ->). rewrite fs_set_fs.
      destruct r as [[]|cls].
      * apply fs_rmtree_done in Hm as (_ & _ & Hk). apply Hk, Hu.
      * apply fs_rmtree_failed in Hm as [-> _]. reflexivity.
Qed.

Lemma prefix_snoc_self {A : Type} (l : list A) x : ~ (l ++ [x]) `prefix_of` l.
Proof.
  intros H. apply prefix_length in H. rewrite length_app in H. simpl in H. lia.
Qed.

Lemma not_under_chain p x q :
  plain x -> q ∈ Sim.chain p -> ~ Sim.under (p / x) q.
Proof.
  intros Hx Hq [_ Hpre]. rewrite div_plain in Hpre by exact Hx. simpl in Hpre.
  unfold Sim.chain in Hq. apply list_elem_of_fmap in Hq as (n & -> & _).
  simpl in Hpre. apply prefix_length in Hpre.
  rewrite length_app, length_take in Hpre. simpl in Hpre. lia.
Qed.

Lemma parent_dir_parts home : parts (project_worktree_dir_of home) <> [].
Proof.
  unfold project_worktree_dir_of. rewrite name_REPO_PATH.
  rewrite (div_plain _ (py "website")) by apply plain_website. simpl.
  intros H. apply app_eq_nil in H as [_ H]. discriminate H.
Qed.

(** C8: every [git worktree add] of a run is issued in the repository,
    for the branch [almondcoder/test-conflict-<token>] and the path
    [<home>/.almondcoder/<repo-name>/test-conflict-<token>], where
    [<repo-name>] is the last component of the repository path
    ([website]), [<token>] is the eight hexadecimal digits derived from
    the random bytes and [<home>] is the home directory read before.
    Before it, [mkdir(parents=True, exist_ok=True)] succeeded on
    [<home>/.almondcoder/<repo-name>]; in the simulated file system that
    directory exists when the command starts, and so does every directory
    above it if it was absent. *)
Theorem C8_worktree_location tr o pre branch path base d r post :
  exec main tr o ->
  tr = pre ++ ESpawn (git_worktree_add branch path base) d r :: post ->
  exists bs home before mid,
    let token := token_of bs in
    let parent := parse home / py ".almondcoder" / name REPO_PATH in
    let wt := parent / (py "test-conflict-" ++ token) in
    is_token token
    /\ In (EUrandom 16 bs) before /\ In (EHome (Done home)) before
    /\ name REPO_PATH = py "website"
    /\ branch = py "almondcoder/test-conflict-" ++ token
    /\ path = path_str wt
    /\ wt = mkPath (root (parse home))
              (parts (parse home)
               ++ [py ".almondcoder"; py "website";
                   py "test-conflict-" ++ token])
    /\ d = REPO_PATH
    /\ pre = before ++ EMkdir parent true true (Done tt) :: mid
    /\ forall w w1,
         Sim.replay pre w w1 ->
         Sim.node_at (Sim.fs w1) parent = Some Sim.Dir
         /\ exists w0,
              Sim.replay before w w0
              /\ (Sim.node_at (Sim.fs w0) parent = None ->
                  Forall (fun q => Sim.node_at (Sim.fs w1) q = Some Sim.Dir)
                    (Sim.chain parent)).
Proof.
  intros H Htr. apply exec_runs, main_spawns in H. subst tr.
  apply each_spawn_at in H as (_ & Hpl & _).
  destruct (Hpl branch path base eq_refl)
    as (bs & home & before & mid & -> & -> & -> & Hu & Hh & Hpre & Hq).
  simpl in Hpre. subst pre.
  exists bs, home, before, mid. cbv zeta.
  split; [apply token_of_is_token|].
  split; [exact Hu|]. split; [exact Hh|].
  split; [apply name_REPO_PATH|].
  split; [reflexivity|]. split; [reflexivity|].
  split; [apply (worktree_path_wf home bs)|].
  split; [reflexivity|]. split; [reflexivity|].
  intros w w1 Hp. apply replay_app in Hp as (w0 & Hb & Hp).
  simpl in Hp. destruct Hp as (wm & (m & Hm & ->) & Hp).
  pose proof (worktree_name_plain _ (token_of_is_token bs)) as Hplain.
  pose proof (parent_dir_parts home) as Hparts.
  apply fs_mkdir_parents_done in Hm as [Hdir Hcases].
  assert (Hkeep : forall q, q ∈ Sim.chain (project_worktree_dir_of home) ->
                    Sim.node_at (Sim.fs w1) q = Sim.node_at m q).
  { intros q Hin. pose proof (chain_parts _ _ Hin) as Hqp.
    rewrite !node_at_lookup by exact Hqp.
    rewrite (replay_quiet _ mid _ w1 q Hq Hp); [apply f_equal, fs_set_fs|].
    apply not_under_chain; assumption. }
  split.
  - change (parse home / py ".almondcoder" / name REPO_PATH)
      with (project_worktree_dir_of home).
    rewrite Hkeep by (apply chain_self, Hparts). exact Hdir.
  - exists w0. split; [exact Hb|]. intros Habs.
    change (parse home / py ".almondcoder" / name REPO_PATH)
      with (project_worktree_dir_of home) in *.
    destruct Hcases as [[Hwas _]|(_ & Hall & _)]; [congruence|].
    apply Forall_forall. intros q Hin. rewrite Hkeep by exact Hin.
    rewrite Forall_forall in Hall. apply Hall, Hin.
Qed.


(** ** The existence checks *)

Lemma exists_at_lookup (m : gmap Path Sim.node) p n :
  m !! p = Some n -> Sim.exists_at m p = true.
Proof.
  intros H. unfold Sim.exists_at, Sim.node_at. apply bool_decide_eq_true.
  destruct (parts p); [eauto | rewrite H; eauto].
Qed.

Lemma exists_at_node (m : gmap Path Sim.node) p :
  is_Some (Sim.node_at m p) -> Sim.exists_at m p = true.
Proof. intros H. apply bool_decide_eq_true. exact H. Qed.

(** Opening a replayed trace, one event at a time. *)
Ltac replay_open Hp := cbn [Sim.replay] in Hp.

Ltac replay_step Hp :=
  let w1 := fresh "w" in
  let Hm := fresh "Hm" in
  destruct Hp as (w1 & Hm & Hp); cbn [Sim.move] in Hm.

Ltac world_fields H :=
  cbn [Sim.fs Sim.home_dir Sim.entropy Sim.console Sim.tips Sim.checked_out
       Sim.index Sim.commits Sim.faults Sim.do_print Sim.set_fs Sim.set_git]
    in H.

(** C10: the precondition on version-control metadata asks only that
    something exists at [<repo>/.git].  Whatever the entry is, a directory
    or a regular file (as in a linked working tree), [main] reports the
    repository as found and goes on to ask git for the current branch. *)
Theorem C10_git_entry_of_any_kind w n tr o w' :
  Sim.interp main w = (tr, o, w') ->
  is_Some (Sim.node_at (Sim.fs w) REPO_PATH) ->
  Sim.fs w !! (REPO_PATH / py ".git") = Some n ->
  exists_answers tr
  = (REPO_PATH, true) :: (REPO_PATH / py ".git", true)
    :: drop 2 (exists_answers tr)
  /\ In (EPrint (py "✅ Found git repository: " ++ path_str REPO_PATH)) tr
  /\ exists r rest, spawns tr = ESpawn git_show_current REPO_PATH r :: rest.
Proof.
  intros Hi Hrepo Hgit. apply interp_sound in Hi as [H Hp].
  unfold main, resolve_branch in H. run H.
  all: replay_open Hp; do 3 replay_step Hp; subst;
       destruct Hm1 as [Hb ->]; world_fields Hb.
  all: try (exfalso; rewrite (exists_at_node _ _ Hrepo) in Hb;
            discriminate Hb).
  all: replay_step Hp; destruct Hm as [Hb' ->]; world_fields Hb'.
  all: try (exfalso; rewrite (exists_at_lookup _ _ _ Hgit) in Hb';
            discriminate Hb').
  all: split; [reflexivity|]; split; [in_list|].
  all: cbn [spawns List.filter is_spawn]; do 2 eexists; reflexivity.
Qed.


(** ** The stale working-tree directory *)

(** C6: when [git worktree add] is started, the path it is given was
    checked just before; if the check found it, [shutil.rmtree] removed it
    first.  So in the simulated file system nothing exists at the path
    when the command starts, and if a directory was there at the check,
    nothing is left at or below it: the command cannot fail because of
    that directory. *)
Theorem C6_stale_directory_removed w tr o w' pre branch path base d r post :
  Sim.interp main w = (tr, o, w') ->
  tr = pre ++ ESpawn (git_worktree_add branch path base) d r :: post ->
  exists p before checks wc wi,
    path = path_str p /\ parse path = p
    /\ pre = before ++ checks
    /\ (checks = [EExists p false]
        \/ exists warn,
             checks = [EExists p true; EPrint warn; ERmtree p (Done tt)])
    /\ Sim.replay before w wc
    /\ Sim.replay pre w wi
    /\ (Sim.node_at (Sim.fs wc) p = Some Sim.Dir ->
        In (ERmtree p (Done tt)) checks
        /\ forall q, Sim.under p q -> Sim.fs wi !! q = None)
    /\ Sim.exists_at (Sim.fs wi) (parse path) = false.
Proof.
  intros Hi Htr. apply interp_sound in Hi as [H Hp].
  apply main_spawns in H. subst tr.
  apply each_spawn_at in H as (_ & _ & Hg).
  destruct (Hg branch path base eq_refl)
    as (p & before & -> & Hwf & Hparts & Hchecks).
  simpl in Hchecks.
  apply replay_app in Hp as (wi & Hpre & _).
  rewrite (parse_path_str p Hwf).
  destruct Hchecks as [->|(warn & ->)].
  - pose proof Hpre as Hpre'.
    apply replay_app in Hpre' as (wc & Hb & Hc). simpl in Hc.
    destruct Hc as (w1 & [Hf ->] & ->).
    exists p, before, [EExists p false], wc, wc.
    repeat (split; [first [reflexivity | assumption | left; reflexivity]|]).
    split; [|symmetry; exact Hf].
    intros Hdir. exfalso. unfold Sim.exists_at in Hf. rewrite Hdir in Hf.
    rewrite bool_decide_eq_true_2 in Hf by eauto. discriminate Hf.
  - pose proof Hpre as Hpre'.
    apply replay_app in Hpre' as (wc & Hb & Hc). simpl in Hc.
    destruct Hc as (w1 & [Ht ->] & w2 & -> & w3 & (m & Hm & ->) & ->).
    rewrite fs_do_print in Hm.
    apply fs_rmtree_done in Hm as (Hdir & Hgone & _).
    exists p, before, [EExists p true; EPrint warn; ERmtree p (Done tt)],
      wc, (Sim.set_fs (Sim.do_print warn wc) m).
    repeat (split; [first [reflexivity | assumption
                          | right; eexists; reflexivity]|]).
    split.
    + intros _. split; [in_list|]. intros q Hq. rewrite fs_set_fs.
      apply Hgone, Hq.
    + rewrite fs_set_fs. unfold Sim.exists_at.
      rewrite node_at_lookup by exact Hparts.
      rewrite (Hgone p (under_refl p)).
      apply bool_decide_eq_false. intros [x Hx]. discriminate Hx.
Qed.


(** ** The simulated git *)

Section Git.

Import Sim.

Lemma parse_git_show : parse_git git_show_current = ShowCurrent.
Proof. vm_compute. reflexivity. Qed.

Lemma parse_git_add : parse_git git_add = Add TEST_FILE.
Proof. vm_compute. reflexivity. Qed.

Lemma parse_git_commit msg : parse_git (git_commit msg) = CommitM msg.
Proof. vm_compute. reflexivity. Qed.

Lemma parse_git_worktree b p m :
  parse_git (git_worktree_add b p m) = WorktreeAdd b p m.
Proof. vm_compute. reflexivity. Qed.

Lemma parse_git_checkout b : parse_git (git_checkout b) = Checkout b.
Proof. vm_compute. reflexivity. Qed.

Lemma fatal_nonzero rc err cp :
  rc <> 0%Z -> fatal rc err = Done cp -> returncode cp <> 0%Z.
Proof. intros Hrc [= <-]. exact Hrc. Qed.

Ltac fatal_case H Hrc :=
  exfalso; apply (f_equal fst) in H; cbn [fst] in H;
  eapply fatal_nonzero in H; [exact (H Hrc) | discriminate].

(** The world with the faults that are still to come replaced. *)
Lemma pop_fault_fields w f w1 :
  pop_fault w = (f, w1) ->
  exists fl,
    w1 = mkWorld (fs w) (home_dir w) (entropy w) (console w) (tips w)
           (checked_out w) (index w) (commits w) fl.
Proof.
  unfold pop_fault. destruct (faults w) as [|f0 fl] eqn:E.
  - intros [= <- <-]. exists []. destruct w; simpl in *. congruence.
  - intros [= <- <-]. eauto.
Qed.

(** A git command that exits with status 0 ran in a working tree, without
    an outside fault, and did what [git_in] says. *)
Lemma git_exec_done c d w cp w' :
  git_exec c d w = (Done cp, w') ->
  returncode cp = 0%Z ->
  exists b fl,
    checked_out w !! d = Some b
    /\ git_in (mkWorld (fs w) (home_dir w) (entropy w) (console w) (tips w)
                 (checked_out w) (index w) (commits w) fl)
         d b (parse_git c)
       = (Done cp, w').
Proof.
  unfold git_exec. intros H Hrc.
  destruct (node_at (fs w) d) as [[|data]|]; try discriminate.
  destruct (pop_fault w) as [f w1] eqn:Ef.
  apply pop_fault_fields in Ef as (fl & ->).
  destruct f.
  { fatal_case H Hrc. }
  cbn [checked_out] in H.
  destruct (checked_out w !! d) as [b|].
  2:{ fatal_case H Hrc. }
  eauto.
Qed.

Lemma git_add_done d w cp w' :
  git_exec git_add d w = (Done cp, w') ->
  returncode cp = 0%Z ->
  exists b fl data,
    checked_out w !! d = Some b
    /\ node_at (fs w) (d / TEST_FILE) = Some (File data)
    /\ w' = mkWorld (fs w) (home_dir w) (entropy w) (console w) (tips w)
              (checked_out w)
              (<[d := <[TEST_FILE := data]> (default ∅ (index w !! d))]>
                 (index w))
              (commits w) fl.
Proof.
  intros H Hrc. apply git_exec_done in H as (b & fl & Hb & H); [|exact Hrc].
  rewrite parse_git_add in H. cbn [git_in fs index] in H.
  destruct (node_at (fs w) (d / TEST_FILE)) as [[|data]|] eqn:En.
  1,3: fatal_case H Hrc.
  apply (f_equal snd) in H. cbn [snd] in H. subst w'.
  exists b, fl, data. auto.
Qed.

Lemma git_commit_done msg d w cp w' :
  git_exec (git_commit msg) d w = (Done cp, w') ->
  returncode cp = 0%Z ->
  exists b fl,
    checked_out w !! d = Some b
    /\ default ∅ (index w !! d) <> default ∅ (tips w !! b)
    /\ w' = mkWorld (fs w) (home_dir w) (entropy w) (console w)
              (<[b := default ∅ (index w !! d)]> (tips w))
              (checked_out w) (index w)
              (mkCommit b msg (default ∅ (index w !! d)) :: commits w) fl.
Proof.
  intros H Hrc. apply git_exec_done in H as (b & fl & Hb & H); [|exact Hrc].
  rewrite parse_git_commit in H. cbn [git_in index] in H.
  unfold tip in H. cbn [tips] in H.
  destruct (decide (default ∅ (index w !! d) = default ∅ (tips w !! b)))
    as [He|Hne].
  { rewrite bool_decide_eq_true_2 in H by exact He.
    exfalso. apply (f_equal fst) in H. cbn [fst] in H.
    injection H as <-. discriminate Hrc. }
  rewrite bool_decide_eq_false_2 in H by exact Hne.
  apply (f_equal snd) in H. cbn [snd] in H. subst w'.
  exists b, fl. auto.
Qed.

Lemma git_worktree_add_done b' path base d w cp w' :
  git_exec (git_worktree_add b' path base) d w = (Done cp, w') ->
  returncode cp = 0%Z ->
  exists b,
    checked_out w !! d = Some b
    /\ (b' ∉ dom (tips w))
    /\ (base ∈ dom (tips w))
    /\ exists_at (fs w) (parse path) = false
    /\ checked_out w !! parse path = None
    /\ tips w' = <[b' := default ∅ (tips w !! base)]> (tips w)
    /\ checked_out w' = <[parse path := b']> (checked_out w)
    /\ index w' = <[parse path := default ∅ (tips w !! base)]> (index w)
    /\ commits w' = commits w
    /\ home_dir w' = home_dir w /\ entropy w' = entropy w
    /\ console w' = console w.
Proof.
  intros H Hrc. apply git_exec_done in H as (b & fl & Hb & H); [|exact Hrc].
  rewrite parse_git_worktree in H. cbn [git_in tips fs checked_out] in H.
  destruct (decide (b' ∈ dom (tips w))) as [Hin|Hin].
  { rewrite bool_decide_eq_true_2 in H by exact Hin.
    fatal_case H Hrc. }
  rewrite bool_decide_eq_false_2 in H by exact Hin.
  destruct (decide (base ∉ dom (tips w))) as [Hb'|Hb'].
  { rewrite bool_decide_eq_true_2 in H by exact Hb'.
    fatal_case H Hrc. }
  rewrite bool_decide_eq_false_2 in H by exact Hb'.
  destruct (exists_at (fs w) (parse path)) eqn:Ee.
  { fatal_case H Hrc. }
  destruct (checked_out w !! parse path) as [x|] eqn:Ec.
  { rewrite bool_decide_eq_true_2 in H by eauto.
    fatal_case H Hrc. }
  rewrite bool_decide_eq_false_2 in H by (intros [? ?]; discriminate).
  apply (f_equal snd) in H. cbn [snd] in H. subst w'. exists b.
  split; [exact Hb|]. split; [exact Hin|].
  split; [apply dec_stable; exact Hb'|].
  unfold tip. cbn. auto 12.
Qed.

End Git.


(** ** A run that comes to its end *)

Lemma fs_write_done q d (m m' : gmap Path Sim.node) :
  Sim.fs_write q d m = (Done tt, m') -> m' = <[q := Sim.File d]> m.
Proof.
  unfold Sim.fs_write.
  destruct (Sim.node_at m q) as [[|x]|];
    destruct (Sim.node_at m (Sim.parent q)) as [[|y]|];
    (discriminate || (intros [= <-]; reflexivity)).
Qed.

Lemma plain_TEST_FILE : plain TEST_FILE.
Proof. apply plainb_plain. vm_compute. reflexivity. Qed.

Lemma node_at_written (m : gmap Path Sim.node) d data :
  Sim.node_at (<[d / TEST_FILE := Sim.File data]> m) (d / TEST_FILE)
  = Some (Sim.File data).
Proof.
  rewrite node_at_lookup.
  - apply lookup_insert_eq.
  - rewrite div_plain by apply plain_TEST_FILE. simpl.
    intros H. apply app_eq_nil in H as [_ H]. discriminate H.
Qed.

Ltac replay_event Hp :=
  let w1 := fresh "w" in
  let Hm := fresh "Hm" in
  lazymatch type of Hp with
  | exists _, Sim.move (ESpawn _ _ _) _ _ /\ _ => fail
  | _ => idtac
  end;
  destruct Hp as (w1 & Hm & Hp);
  lazymatch type of Hm with
  | Sim.move (EPrint _) _ _ => cbn [Sim.move] in Hm; subst w1
  | Sim.move (EExists _ _) _ _ =>
    cbn [Sim.move] in Hm; destruct Hm as [Hm ->]
  | Sim.move (EHome _) _ _ => cbn [Sim.move] in Hm; destruct Hm as [Hm ->]
  | Sim.move (EUrandom _ _) _ _ =>
    cbn [Sim.move] in Hm; unfold Sim.do_urandom in Hm;
    apply (f_equal snd) in Hm; cbn [snd] in Hm; subst w1
  | Sim.move (EMkdir _ _ _ _) _ _ =>
    cbn [Sim.move] in Hm; destruct Hm as (? & Hm & ->)
  | Sim.move (ERmtree _ _) _ _ =>
    cbn [Sim.move] in Hm; destruct Hm as (? & Hm & ->)
  | Sim.move (EWrite _ _ _) _ _ =>
    cbn [Sim.move] in Hm; destruct Hm as (? & Hm & ->);
    apply fs_write_done in Hm; subst
  end.

(** The next event of [Hp] is a command that exited with 0: [lem] says
    what it did. *)
Ltac replay_git Hp Hm :=
  let w1 := fresh "w" in
  destruct Hp as (w1 & Hm & Hp); cbn [Sim.move] in Hm.

Ltac rc_zero := apply Z.eqb_eq; assumption.

Ltac fields :=
  cbn [Sim.fs Sim.home_dir Sim.entropy Sim.console Sim.tips Sim.checked_out
       Sim.index Sim.commits Sim.faults Sim.do_print Sim.set_fs Sim.set_git]
    in *.

Ltac before_worktree l :=
  lazymatch l with
  | ESpawn (git_worktree_add _ _ _) _ _ :: _ => constr:(@nil event)
  | ?e :: ?r => let b := before_worktree r in constr:(e :: b)
  end.

Ltac from_worktree l :=
  lazymatch l with
  | ESpawn (git_worktree_add _ _ _) _ _ :: _ => l
  | _ :: ?r => from_worktree r
  end.

Ltac simplify_lookups Hne :=
  repeat (first [ rewrite lookup_insert_eq
                | rewrite (lookup_insert_ne _ _ _ _ Hne) ];
          cbn [default from_option id]).

(** What a scenario that ran to its end has done to the simulated
    repository. *)
Lemma scenario_returns b tr :
  runs (scenario b) tr (Returned tt) ->
  forall w w', Sim.replay tr w w' ->
  exists bs home cp b0 before after wm,
    let B := almond_branch_of (token_of bs) in
    let P := worktree_path_of home bs in
    let t1 := <[TEST_FILE := initial_content]>
                (default ∅ (Sim.index w !! REPO_PATH)) in
    let tips1 := <[b0 := t1]> (Sim.tips w) in
    let tb := default ∅ (tips1 !! b) in
    let t2 := <[TEST_FILE := almond_content]> tb in
    let t3 := <[TEST_FILE := main_content]> t1 in
    In (EUrandom 16 bs) tr
    /\ In (EHome (Done home)) tr
    /\ tr = before
            ++ ESpawn (git_worktree_add B (path_str P) b) REPO_PATH (Done cp)
               :: after
    /\ returncode cp = 0%Z
    /\ Sim.replay before w wm
    /\ Sim.commits wm = Sim.mkCommit b0 msg_initial t1 :: Sim.commits w
    /\ Sim.tips wm = tips1
    /\ Sim.checked_out w !! REPO_PATH = Some b0
    /\ (B ∉ dom tips1)
    /\ (b ∈ dom tips1)
    /\ P <> REPO_PATH
    /\ Sim.commits w'
       = [Sim.mkCommit b0 msg_main t3; Sim.mkCommit B msg_almond t2;
          Sim.mkCommit b0 msg_initial t1] ++ Sim.commits w
    /\ Sim.tips w' = <[b0 := t3]> (<[B := t2]> (<[B := tb]> tips1))
    /\ Sim.checked_out w' = <[P := B]> (Sim.checked_out w).
Proof.
  intros H w w' Hp. unfold scenario, summary in H. run H.
  all: try discriminate H.
  all: clear H.
  all: change (parse a1 / py ".almondcoder" / name REPO_PATH /
               worktree_name_of (slice 0 8 (uuid_str (uuid4_int x0))))
         with (worktree_path_of a1 x0) in *.
  all: change (slice 0 8 (uuid_str (uuid4_int x0))) with (token_of x0) in *.
  all: lazymatch type of Hp with
       | Sim.replay ?l _ _ =>
         let l1 := before_worktree l in
         let l2 := from_worktree l in
         pose (before := l1); change l with (before ++ l2) in Hp
       end.
  all: apply replay_app in Hp as (wm & Hb & Hp); pose proof Hb as Hbefore.
  all: unfold before in Hb; replay_open Hb; replay_open Hp.
  (* the first commit *)
  all: repeat replay_event Hb.
  all: replay_git Hb Hadd1;
       apply git_add_done in Hadd1
         as (b0 & fl1 & data1 & Hco1 & Hn1 & ->); [|rc_zero]; fields.
  all: rewrite node_at_written in Hn1; injection Hn1 as <-.
  all: replay_git Hb Hci1;
       apply git_commit_done in Hci1 as (b1 & fl2 & Hco2 & _ & ->);
       [|rc_zero]; fields.
  all: rewrite Hco1 in Hco2; injection Hco2 as <-.
  all: rewrite lookup_insert_eq in Hb; cbn [default from_option id] in Hb.
  all: repeat replay_event Hb; subst wm; fields.
  (* the working tree and its commit *)
  all: pose proof (worktree_path_wf a1 x0) as [Hwf _].
  all: replay_git Hp Hwt;
       apply git_worktree_add_done in Hwt
         as (b2 & Hco3 & HB & Hbase & _ & Hreg & Htips & Hco & Hidx & Hcs & _);
       [|rc_zero]; fields.
  all: rewrite (parse_path_str _ Hwf) in *.
  all: repeat replay_event Hp; fields.
  all: replay_git Hp Hadd2;
       apply git_add_done in Hadd2
         as (b3 & fl3 & data2 & Hco4 & Hn2 & ->); [|rc_zero]; fields.
  all: rewrite node_at_written in Hn2; injection Hn2 as <-.
  all: rewrite Hco, lookup_insert_eq in Hco4; injection Hco4 as <-.
  all: replay_git Hp Hci2;
       apply git_commit_done in Hci2 as (b4 & fl4 & Hco5 & _ & ->);
       [|rc_zero]; fields.
  all: rewrite Hco, lookup_insert_eq in Hco5; injection Hco5 as <-.
  all: rewrite lookup_insert_eq in Hp; cbn [default from_option id] in Hp.
  all: rewrite Hidx, lookup_insert_eq in Hp;
       cbn [default from_option id] in Hp.
  all: repeat replay_event Hp; fields.
  (* the second commit on the base branch *)
  all: assert (Hne : worktree_path_of a1 x0 <> REPO_PATH)
         by (intros Heq; rewrite Heq in Hreg; congruence).
  all: replay_git Hp Hadd3;
       apply git_add_done in Hadd3
         as (b5 & fl5 & data3 & Hco6 & Hn3 & ->); [|rc_zero]; fields.
  all: rewrite node_at_written in Hn3; injection Hn3 as <-.
  all: clear Hco6.
  all: replay_git Hp Hci3;
       apply git_commit_done in Hci3 as (b6 & fl6 & Hco7 & _ & ->);
       [|rc_zero]; fields.
  all: rewrite Hco, lookup_insert_ne, Hco1 in Hco7 by exact Hne;
       injection Hco7 as <-.
  all: repeat replay_event Hp; subst w'; fields.
  all: exists x0, a1, a2, b0, before; do 2 eexists; cbv zeta.
  all: split; [in_list|]; split; [in_list|]; split; [reflexivity|].
  all: split; [rc_zero|]; split; [exact Hbefore|].
  all: split; [reflexivity|]; split; [reflexivity|].
  all: split; [exact Hco1|];
       split; [exact HB|]; split; [exact Hbase|]; split; [exact Hne|].
  all: rewrite ?Hcs, ?Htips, ?Hco, ?Hidx.
  all: simplify_lookups Hne.
  all: split; [reflexivity|]; split; reflexivity.
Qed.


(** ** Branches are never removed *)

Section Branches.

Import Sim.

Lemma pop_fault_tips w f w1 : pop_fault w = (f, w1) -> tips w1 = tips w.
Proof. intros H. apply pop_fault_fields in H as (fl & ->). reflexivity. Qed.

Lemma git_in_tips_mono w d b c r w' :
  git_in w d b c = (r, w') -> dom (tips w) ⊆ dom (tips w').
Proof.
  destruct c; cbn [git_in].
  - intros [= _ <-]. reflexivity.
  - destruct (bool_decide _); intros [= _ <-]; reflexivity.
  - destruct (node_at _ _) as [[|data]|]; intros [= _ <-]; reflexivity.
  - destruct (bool_decide _); intros [= _ <-]; [reflexivity|].
    cbn [tips set_git]. rewrite dom_insert_L. set_solver.
  - repeat (destruct (bool_decide _); [intros [= _ <-]; reflexivity|]).
    destruct (exists_at _ _); [intros [= _ <-]; reflexivity|].
    destruct (bool_decide _); intros [= _ <-]; [reflexivity|].
    cbn [tips set_git]. rewrite dom_insert_L. set_solver.
  - intros [= _ <-]. reflexivity.
Qed.

Lemma git_exec_tips_mono c d w r w' :
  git_exec c d w = (r, w') -> dom (tips w) ⊆ dom (tips w').
Proof.
  unfold git_exec.
  destruct (node_at (fs w) d) as [[|data]|]; try (intros [= _ <-]; reflexivity).
  destruct (pop_fault w) as [f w1] eqn:Ef. apply pop_fault_tips in Ef.
  destruct f; [intros [= _ <-]; rewrite Ef; reflexivity|].
  destruct (checked_out w1 !! d) as [b|];
    [|intros [= _ <-]; rewrite Ef; reflexivity].
  intros H. apply git_in_tips_mono in H. rewrite Ef in H. exact H.
Qed.

Lemma move_tips_mono e w w' : move e w w' -> dom (tips w) ⊆ dom (tips w').
Proof.
  destruct e; cbn [move].
  - intros ->. reflexivity.
  - intros [_ ->]. reflexivity.
  - intros [_ ->]. reflexivity.
  - intros (m & _ & ->). reflexivity.
  - intros (m & _ & ->). reflexivity.
  - intros (m & _ & ->). reflexivity.
  - unfold do_urandom. intros [= _ <-]. reflexivity.
  - apply git_exec_tips_mono.
Qed.

(** Along a run no branch disappears. *)
Lemma replay_tips_mono tr : forall w w',
  replay tr w w' -> dom (tips w) ⊆ dom (tips w').
Proof.
  induction tr as [|e tr IH]; intros w w' H; simpl in H.
  - subst. reflexivity.
  - destruct H as (w1 & Hm & H). apply move_tips_mono in Hm. apply IH in H.
    etransitivity; eassumption.
Qed.

End Branches.


(** ** Runs of [main] that come to their end *)

Ltac prefix_before l x :=
  lazymatch l with
  | x => constr:(@nil event)
  | ?e :: ?r => let p := prefix_before r x in constr:(e :: p)
  end.

(** [Hc : In (EPrint msg) l] for a list [l] of other events. *)
Ltac not_printed Hc :=
  cbn [In] in Hc;
  repeat (destruct Hc as [Hc|Hc];
          [ exfalso;
            first [ discriminate Hc
                  | injection Hc as Hc; vm_compute in Hc; discriminate Hc ]
          |]);
  try contradiction.

(** A run that printed its summary went through the scenario. *)
Lemma main_completed tr :
  runs main tr (Returned tt) -> completed tr ->
  exists pre b trs,
    tr = pre ++ trs /\ runs (scenario b) trs (Returned tt).
Proof.
  intros H Hc. unfold completed in Hc. unfold main, resolve_branch in H. run H.
  all: try discriminate H.
  all: lazymatch goal with
       | H : runs (scenario ?b) ?x _ |- ?l = _ /\ _ => idtac
       | H : runs (scenario ?b) ?x _ |- exists _ _ _, ?l = _ /\ _ =>
         let p := prefix_before l x in
         exists p, b, x; split; [reflexivity | exact H]
       | _ => exfalso; not_printed Hc
       end.
Qed.


(** ** Two runs in a row *)

Lemma almond_branch_inj t1 t2 :
  almond_branch_of t1 = almond_branch_of t2 -> t1 = t2.
Proof. unfold almond_branch_of. apply app_inv_head. Qed.

Lemma last_three {A : Type} (l : list A) x y z :
  last (l ++ [x; y; z]) = Some z.
Proof. rewrite last_app. reflexivity. Qed.

Lemma worktree_path_inj home1 bs1 home2 bs2 :
  worktree_path_of home1 bs1 = worktree_path_of home2 bs2 ->
  token_of bs1 = token_of bs2.
Proof.
  destruct (worktree_path_wf home1 bs1) as [_ ->].
  destruct (worktree_path_wf home2 bs2) as [_ ->].
  intros H. apply (f_equal parts) in H. cbn [parts] in H.
  apply (f_equal (fun l => last l)) in H.
  rewrite !last_three in H. apply (inj Some) in H.
  unfold worktree_name_of in H. apply app_inv_head in H. exact H.
Qed.

(** C7: when [main] runs twice in a row on the same repository and both
    runs come to their end, each run has created its working tree with a
    [git worktree add] that exited with 0, and the two runs used different
    tokens: their branch names differ and their working-tree paths
    differ, so the second run met no collision. *)
Theorem C7_successive_runs_differ w tr1 w1 tr2 w2 :
  Sim.interp main w = (tr1, Returned tt, w1) -> completed tr1 ->
  Sim.interp main w1 = (tr2, Returned tt, w2) -> completed tr2 ->
  exists bs1 home1 base1 cp1 bs2 home2 base2 cp2,
    In (ESpawn (git_worktree_add (almond_branch_of (token_of bs1))
                  (path_str (worktree_path_of home1 bs1)) base1)
          REPO_PATH (Done cp1)) tr1
    /\ returncode cp1 = 0%Z
    /\ In (ESpawn (git_worktree_add (almond_branch_of (token_of bs2))
                     (path_str (worktree_path_of home2 bs2)) base2)
             REPO_PATH (Done cp2)) tr2
    /\ returncode cp2 = 0%Z
    /\ is_token (token_of bs1) /\ is_token (token_of bs2)
    /\ token_of bs1 <> token_of bs2
    /\ almond_branch_of (token_of bs1) <> almond_branch_of (token_of bs2)
    /\ worktree_path_of home1 bs1 <> worktree_path_of home2 bs2
    /\ almond_branch_of (token_of bs1) ∈ dom (Sim.tips w2)
    /\ almond_branch_of (token_of bs2) ∈ dom (Sim.tips w2).
Proof.
  intros Hi1 Hc1 Hi2 Hc2.
  apply interp_sound in Hi1 as [Hr1 Hp1].
  apply interp_sound in Hi2 as [Hr2 Hp2].
  destruct (main_completed _ Hr1 Hc1) as (pre1 & b1 & trs1 & -> & Hs1).
  destruct (main_completed _ Hr2 Hc2) as (pre2 & b2 & trs2 & -> & Hs2).
  apply replay_app in Hp1 as (ws1 & Hpre1 & Hp1).
  pose proof Hp2 as Hall2.
  apply replay_app in Hp2 as (ws2 & Hpre2 & Hp2).
  destruct (scenario_returns _ _ Hs1 _ _ Hp1)
    as (bs1 & home1 & cp1 & c1 & bf1 & af1 & wm1 & _ & _ & Ht1 & Hrc1 & _ & _
        & _ & _ & _ & _ & _ & _ & Htips1 & _).
  destruct (scenario_returns _ _ Hs2 _ _ Hp2)
    as (bs2 & home2 & cp2 & c2 & bf2 & af2 & wm2 & _ & _ & Ht2 & Hrc2 & _ & _
        & _ & _ & Hfresh2 & _ & _ & _ & Htips2 & _).
  cbv zeta in *.
  assert (Hin1 : almond_branch_of (token_of bs1) ∈ dom (Sim.tips w1)).
  { rewrite Htips1, !dom_insert_L.
    apply elem_of_union_r, elem_of_union_l, elem_of_singleton. reflexivity. }
  assert (Hne : almond_branch_of (token_of bs1)
                <> almond_branch_of (token_of bs2)).
  { intros Heq. apply Hfresh2. rewrite <- Heq, dom_insert_L.
    apply replay_tips_mono in Hpre2. apply elem_of_union_r, Hpre2, Hin1. }
  exists bs1, home1, b1, cp1, bs2, home2, b2, cp2.
  split; [rewrite Ht1; apply in_or_app; right; apply in_or_app; right; left;
          reflexivity|].
  split; [exact Hrc1|].
  split; [rewrite Ht2; apply in_or_app; right; apply in_or_app; right; left;
          reflexivity|].
  split; [exact Hrc2|].
  split; [apply token_of_is_token|]. split; [apply token_of_is_token|].
  split; [intros Heq; apply Hne; rewrite Heq; reflexivity|].
  split; [exact Hne|].
  split.
  { intros Heq. apply worktree_path_inj in Heq. apply Hne. rewrite Heq.
    reflexivity. }
  split.
  - apply replay_tips_mono in Hall2. apply Hall2, Hin1.
  - rewrite Htips2, !dom_insert_L.
    apply elem_of_union_r, elem_of_union_l, elem_of_singleton. reflexivity.
Qed.


(** ** A run from a primary branch *)

Lemma show_current_done d w cp w' :
  Sim.git_exec git_show_current d w = (Done cp, w') ->
  returncode cp = 0%Z ->
  exists b fl,
    Sim.checked_out w !! d = Some b
    /\ stdout cp = b ++ nl
    /\ w' = Sim.mkWorld (Sim.fs w) (Sim.home_dir w) (Sim.entropy w)
              (Sim.console w) (Sim.tips w) (Sim.checked_out w) (Sim.index w)
              (Sim.commits w) fl.
Proof.
  intros H Hrc. apply git_exec_done in H as (b & fl & Hb & H); [|exact Hrc].
  rewrite parse_git_show in H. cbn [Sim.git_in] in H.
  exists b, fl. split; [exact Hb|].
  pose proof (f_equal fst H) as H1. pose proof (f_equal snd H) as H2.
  cbn [fst snd] in H1, H2. unfold Sim.ok in H1. injection H1 as <-.
  split; [reflexivity | symmetry; exact H2].
Qed.

Lemma strip_primary b :
  b = py "main" \/ b = py "master" ->
  strip (b ++ nl) = b /\ str_in b [py "main"; py "master"] = true.
Proof. intros [-> | ->]; vm_compute; split; reflexivity. Qed.

(** From a repository on [main] or [master], a run that returns went
    straight into the scenario, and the repository is untouched when the
    scenario starts. *)
Lemma main_on_primary w tr w' b0 :
  Sim.interp main w = (tr, Returned tt, w') ->
  Sim.exists_at (Sim.fs w) REPO_PATH = true ->
  Sim.exists_at (Sim.fs w) (REPO_PATH / py ".git") = true ->
  Sim.checked_out w !! REPO_PATH = Some b0 ->
  b0 = py "main" \/ b0 = py "master" ->
  exists pre trs ws,
    tr = pre ++ trs
    /\ runs (scenario b0) trs (Returned tt)
    /\ Sim.replay pre w ws
    /\ Sim.replay trs ws w'
    /\ Sim.tips ws = Sim.tips w
    /\ Sim.checked_out ws = Sim.checked_out w
    /\ Sim.index ws = Sim.index w
    /\ Sim.commits ws = Sim.commits w.
Proof.
  intros Hi Hrepo Hgit Hco Hb0. apply interp_sound in Hi as [H Hp].
  unfold main, resolve_branch in H. run H.
  all: try discriminate H.
  all: try lazymatch goal with
           | H : runs (scenario _) ?x _ |- _ =>
             lazymatch type of Hp with
             | Sim.replay ?l _ _ =>
               let p := prefix_before l x in
               change l with (p ++ x) in Hp;
               apply replay_app in Hp as (ws & Hpre & Hp);
               pose proof Hpre as Hpre0;
               rename Hp into Hrest; rename Hpre into Hp
             end
           end.
  all: replay_open Hp; repeat replay_event Hp; fields.
  all: try congruence.
  all: replay_git Hp Hsc;
       apply show_current_done in Hsc as (b & fl & Hb & Hout & ->);
       [|rc_zero]; fields.
  all: rewrite Hco in Hb; injection Hb as <-.
  all: destruct (strip_primary b0 Hb0) as [Hstrip Hin].
  all: rewrite Hout, Hstrip in *.
  all: try congruence.
  all: repeat replay_event Hp; subst ws; fields.
  all: lazymatch goal with
       | H : runs (scenario _) ?x _ |- exists _ _ _, ?l = _ /\ _ =>
         let p := prefix_before l x in exists p, x; eexists
       end.
  all: split; [reflexivity|]; split; [exact H|]; split; [exact Hpre0|].
  all: split; [exact Hrest|]; auto.
Qed.


(** ** The three commits *)

Lemma almond_not_primary t b :
  b = py "main" \/ b = py "master" -> almond_branch_of t <> b.
Proof.
  unfold almond_branch_of. intros [-> | ->] H.
  - apply (f_equal (take 4)) in H. vm_compute in H. discriminate H.
  - apply (f_equal (take 4)) in H. vm_compute in H. discriminate H.
Qed.

(** C1 (as the code has it): from an initialized repository on [main] or
    [master], a run of [main] that returns has made exactly one commit on
    the base branch before the worktree step, one new branch
    [almondcoder/test-conflict-<token>] with an eight-digit hexadecimal
    token, one commit on that branch and one more commit on the base
    branch: three new commits in all. *)
Theorem C1_three_new_commits w tr w' b0 :
  Sim.interp main w = (tr, Returned tt, w') ->
  Sim.exists_at (Sim.fs w) REPO_PATH = true ->
  Sim.exists_at (Sim.fs w) (REPO_PATH / py ".git") = true ->
  Sim.checked_out w !! REPO_PATH = Some b0 ->
  b0 = py "main" \/ b0 = py "master" ->
  exists token path cp before after wm c1 c2 c3,
    let B := py "almondcoder/test-conflict-" ++ token in
    is_token token
    /\ tr = before
            ++ ESpawn (git_worktree_add B path b0) REPO_PATH (Done cp)
               :: after
    /\ returncode cp = 0%Z
    /\ Sim.replay before w wm
    /\ Sim.commits wm = c1 :: Sim.commits w
    /\ (B ∉ dom (Sim.tips wm))
    /\ dom (Sim.tips w') = {[B]} ∪ dom (Sim.tips wm)
    /\ Sim.commits w' = [c3; c2; c1] ++ Sim.commits w
    /\ Sim.c_branch c1 = b0 /\ Sim.c_message c1 = msg_initial
    /\ Sim.c_branch c2 = B /\ Sim.c_message c2 = msg_almond
    /\ Sim.c_branch c3 = b0 /\ Sim.c_message c3 = msg_main
    /\ new_commits w w' = 3%nat.
Proof.
  intros Hi Hrepo Hgit Hco Hb0.
  destruct (main_on_primary _ _ _ _ Hi Hrepo Hgit Hco Hb0)
    as (pre & trs & ws & -> & Hs & Hpre & Hp & Ht & Hc & Hx & Hm).
  destruct (scenario_returns _ _ Hs _ _ Hp)
    as (bs & home & cp & b1 & bf & af & wm & _ & _ & -> & Hrc & Hbf & Hcm
        & Htm & Hco1 & Hfresh & Hbase & _ & Hcs & Hts & _).
  cbv zeta in *. rewrite Hc, Hco in Hco1. injection Hco1 as <-.
  rewrite Ht, Hx, Hm in *.
  eexists (token_of bs), _, cp, (pre ++ bf), af, wm, _, _, _. cbv zeta.
  split; [apply token_of_is_token|].
  split; [rewrite <- app_assoc; reflexivity|].
  split; [exact Hrc|].
  split; [apply replay_app; eauto|].
  split; [exact Hcm|].
  split; [rewrite Htm; exact Hfresh|].
  split.
  { rewrite Hts, Htm, !dom_insert_L. apply set_eq. intros x.
    rewrite !elem_of_union. tauto. }
  split; [exact Hcs|].
  repeat (split; [reflexivity|]).
  unfold new_commits. rewrite Hcs, length_app. simpl. lia.
Qed.

(** At the example repository the run returns with three new commits, so
    the count of four does not hold there. *)
Lemma C1_four_commits_counterexample :
  let r := Sim.interp main Sim.example_repo in
  r.1.2 = Returned tt
  /\ completed r.1.1
  /\ Sim.exists_at (Sim.fs Sim.example_repo) REPO_PATH = true
  /\ Sim.exists_at (Sim.fs Sim.example_repo) (REPO_PATH / py ".git") = true
  /\ Sim.checked_out Sim.example_repo !! REPO_PATH = Some (py "main")
  /\ new_commits Sim.example_repo r.2 = 3%nat
  /\ new_commits Sim.example_repo r.2 <> 4%nat.
Proof.
  vm_compute. repeat split; try discriminate.
  repeat first [left; reflexivity | right].
Qed.

(** ** The conflicting contents *)

(** C2: after such a run the tip of the base branch holds [main_content]
    in the fixture file and the tip of the new branch holds
    [almond_content].  Both texts have four lines; lines 1 and 4 are the
    same in both ([Line 1: Initial content], [Line 4: Final line]), lines
    2 and 3 differ, and against the content both commits start from
    ([initial_content]) lines 2 and 3 are changed on both sides: a merge
    conflicts there. *)
Theorem C2_conflicting_contents w tr w' b0 :
  Sim.interp main w = (tr, Returned tt, w') ->
  Sim.exists_at (Sim.fs w) REPO_PATH = true ->
  Sim.exists_at (Sim.fs w) (REPO_PATH / py ".git") = true ->
  Sim.checked_out w !! REPO_PATH = Some b0 ->
  b0 = py "main" \/ b0 = py "master" ->
  exists token tbase tfeat c1,
    let B := py "almondcoder/test-conflict-" ++ token in
    is_token token
    /\ Sim.tips w' !! b0 = Some tbase
    /\ Sim.tips w' !! B = Some tfeat
    /\ tbase !! TEST_FILE = Some main_content
    /\ tfeat !! TEST_FILE = Some almond_content
    /\ last (Sim.commits w') = last (c1 :: Sim.commits w)
    /\ In c1 (Sim.commits w')
    /\ Sim.c_tree c1 !! TEST_FILE = Some initial_content
    /\ lines main_content
       = [py "Line 1: Initial content";
          py "Line 2: MAIN VERSION - This is the manual change";
          py "Line 3: MAIN VERSION - Modified directly on main";
          py "Line 4: Final line"]
    /\ lines almond_content
       = [py "Line 1: Initial content";
          py "Line 2: ALMONDCODER VERSION - This is the AI's change";
          py "Line 3: ALMONDCODER VERSION - Modified by the assistant";
          py "Line 4: Final line"]
    /\ conflict_lines (lines initial_content) (lines main_content)
         (lines almond_content) = [1; 2]%nat.
Proof.
  intros Hi Hrepo Hgit Hco Hb0.
  destruct (main_on_primary _ _ _ _ Hi Hrepo Hgit Hco Hb0)
    as (pre & trs & ws & -> & Hs & Hpre & Hp & Ht & Hc & Hx & Hm).
  destruct (scenario_returns _ _ Hs _ _ Hp)
    as (bs & home & cp & b1 & bf & af & wm & _ & _ & -> & Hrc & Hbf & Hcm
        & Htm & Hco1 & Hfresh & Hbase & _ & Hcs & Hts & _).
  cbv zeta in *. rewrite Hc, Hco in Hco1. injection Hco1 as <-.
  rewrite Ht, Hx, Hm in *.
  pose proof (almond_not_primary (token_of bs) b0 Hb0) as Hne.
  eexists (token_of bs), _, _, _. cbv zeta.
  split; [apply token_of_is_token|].
  split; [rewrite Hts; apply lookup_insert_eq|].
  split.
  { rewrite Hts.
    rewrite lookup_insert_ne by (intros Heq; apply Hne; symmetry; exact Heq).
    apply lookup_insert_eq. }
  split; [apply lookup_insert_eq|].
  split; [apply lookup_insert_eq|].
  split; [rewrite Hcs; reflexivity|].
  split; [rewrite Hcs; right; right; left; reflexivity|].
  split; [apply lookup_insert_eq|].
  split; [vm_compute; reflexivity|].
  split; [vm_compute; reflexivity|].
  vm_compute. reflexivity.
Qed.


(** ** The claims at the example worlds *)

(** A run is named by its world once its outcome is known. *)
Lemma interp_outcome {A : Type} (p : prog A) w o :
  (Sim.interp p w).1.2 = o ->
  Sim.interp p w = ((Sim.interp p w).1.1, o, (Sim.interp p w).2).
Proof. destruct (Sim.interp p w) as [[tr o'] w']. simpl. intros ->. reflexivity. Qed.

Lemma C1_three_new_commits_witness :
  let r := Sim.interp main Sim.example_repo in
  exists token,
    is_token token /\ new_commits Sim.example_repo r.2 = 3%nat.
Proof.
  cbv zeta.
  destruct (C1_three_new_commits Sim.example_repo
              (Sim.interp main Sim.example_repo).1.1
              (Sim.interp main Sim.example_repo).2 (py "main"))
    as (token & path & cp & before & after & wm & c1 & c2 & c3 & Ht & H).
  - apply interp_outcome. vm_compute. reflexivity.
  - vm_compute. reflexivity.
  - vm_compute. reflexivity.
  - vm_compute. reflexivity.
  - left. reflexivity.
  - exists token. split; [exact Ht|]. apply H.
Defined.

Lemma C2_conflicting_contents_witness :
  let r := Sim.interp main Sim.example_repo in
  exists (tbase tfeat : gmap str str),
    Sim.tips r.2 !! py "main" = Some tbase
    /\ tbase !! TEST_FILE = Some main_content
    /\ tfeat !! TEST_FILE = Some almond_content
    /\ conflict_lines (lines initial_content) (lines main_content)
         (lines almond_content) = [1; 2]%nat.
Proof.
  cbv zeta.
  destruct (C2_conflicting_contents Sim.example_repo
              (Sim.interp main Sim.example_repo).1.1
              (Sim.interp main Sim.example_repo).2 (py "main"))
    as (token & tbase & tfeat & c1 & _ & Hb & _ & Hm & Ha & _ & _ & _ & _ & _
        & Hc).
  - apply interp_outcome. vm_compute. reflexivity.
  - vm_compute. reflexivity.
  - vm_compute. reflexivity.
  - vm_compute. reflexivity.
  - left. reflexivity.
  - exists tbase, tfeat. auto.
Defined.

Lemma C3_fallback_chain_witness :
  let r := Sim.interp main Sim.linked_repo in
  r.1.2 = Returned tt /\ writes r.1.1 = []
  /\ length (spawns r.1.1) = 3%nat.
Proof.
  cbv zeta.
  destruct (C3_fallback_chain (Sim.interp main Sim.linked_repo).1.1
              (Sim.interp main Sim.linked_repo).1.2
              (mkCompleted 0 (py "topic" ++ nl) [])
              (drop 1 (spawns (Sim.interp main Sim.linked_repo).1.1)))
    as (r1 & rest1 & Hrest & Hnext).
  - apply interp_exec.
  - vm_compute. reflexivity.
  - reflexivity.
  - vm_compute. reflexivity.
  - assert (Hr1 : r1 = Sim.fatal 1 (py "pathspec did not match")).
    { vm_compute in Hrest. injection Hrest as Hr _. symmetry. exact Hr. }
    subst r1. destruct (Hnext eq_refl) as (r2 & rest2 & Hrest1 & Hlast).
    assert (Hr2 : r2 = Sim.fatal 1 (py "pathspec did not match")).
    { vm_compute in Hrest. vm_compute in Hrest1. injection Hrest as <-.
      injection Hrest1 as Hr _. symmetry. exact Hr. }
    subst r2. destruct (Hlast eq_refl) as (_ & Hw & Ho & _).
    split; [exact Ho|]. split; [exact Hw|]. vm_compute. reflexivity.
Defined.

Lemma C4_precondition_failure_witness :
  let r := Sim.interp main Sim.no_repo in
  r.1.2 = Returned tt /\ exit_status r.1.2 = 0%Z /\ spawns r.1.1 = [].
Proof.
  cbv zeta.
  destruct (C4_precondition_failure (Sim.interp main Sim.no_repo).1.1
              (Sim.interp main Sim.no_repo).1.2)
    as (Ho & He & Hs & _).
  - apply interp_exec.
  - left. vm_compute. reflexivity.
  - auto.
Defined.

Lemma C5_failed_command_aborts_witness :
  let r := Sim.interp main Sim.faulty_repo in
  exit_status r.1.2 = 1%Z
  /\ drop 12 r.1.1
     = [EPrint (py "❌ Git command failed: "
                ++ join (py " ") (git_commit msg_initial));
        EPrint (py "   Error: " ++ py "fatal: failed" ++ nl)].
Proof.
  cbv zeta.
  destruct (C5_failed_command_aborts (Sim.interp main Sim.faulty_repo).1.1
              (Sim.interp main Sim.faulty_repo).1.2
              (take 11 (Sim.interp main Sim.faulty_repo).1.1)
              (git_commit msg_initial) REPO_PATH
              (mkCompleted 1 [] (py "fatal: failed" ++ nl))
              (drop 12 (Sim.interp main Sim.faulty_repo).1.1))
    as (Hpost & _ & He & _).
  - apply interp_exec.
  - vm_compute. reflexivity.
  - discriminate.
  - reflexivity.
  - split; [exact He | exact Hpost].
Defined.

Lemma C6_stale_directory_removed_witness :
  let r := Sim.interp main Sim.stale_repo in
  exists p wi,
    p = parse (py "/Users/user/.almondcoder/website/test-conflict-deadbeef")
    /\ Sim.replay (take 21 r.1.1) Sim.stale_repo wi
    /\ Sim.exists_at (Sim.fs wi) p = false.
Proof.
  cbv zeta.
  destruct (C6_stale_directory_removed Sim.stale_repo
              (Sim.interp main Sim.stale_repo).1.1
              (Sim.interp main Sim.stale_repo).1.2
              (Sim.interp main Sim.stale_repo).2
              (take 21 (Sim.interp main Sim.stale_repo).1.1)
              (almond_branch_of (py "deadbeef"))
              (py "/Users/user/.almondcoder/website/test-conflict-deadbeef")
              (py "main") REPO_PATH (Sim.ok [])
              (drop 22 (Sim.interp main Sim.stale_repo).1.1))
    as (p & before & checks & wc & wi & _ & Hp & _ & _ & _ & Hr & _ & He).
  - apply interp_outcome. vm_compute. reflexivity.
  - vm_compute. reflexivity.
  - exists p, wi. rewrite Hp in He. auto.
Defined.

Lemma C7_successive_runs_differ_witness :
  let r1 := Sim.interp main Sim.example_repo in
  let r2 := Sim.interp main r1.2 in
  exists bs1 bs2,
    token_of bs1 <> token_of bs2
    /\ almond_branch_of (token_of bs1) ∈ dom (Sim.tips r2.2)
    /\ almond_branch_of (token_of bs2) ∈ dom (Sim.tips r2.2).
Proof.
  cbv zeta.
  destruct (C7_successive_runs_differ Sim.example_repo
              (Sim.interp main Sim.example_repo).1.1
              (Sim.interp main Sim.example_repo).2
              (Sim.interp main (Sim.interp main Sim.example_repo).2).1.1
              (Sim.interp main (Sim.interp main Sim.example_repo).2).2)
    as (bs1 & home1 & base1 & cp1 & bs2 & home2 & base2 & cp2 & _ & _ & _ & _
        & _ & _ & Hne & _ & _ & H1 & H2).
  - apply interp_outcome. vm_compute. reflexivity.
  - vm_compute. repeat first [left; reflexivity | right].
  - apply interp_outcome. vm_compute. reflexivity.
  - vm_compute. repeat first [left; reflexivity | right].
  - exists bs1, bs2. auto.
Defined.

Lemma C8_worktree_location_witness :
  let r := Sim.interp main Sim.example_repo in
  exists bs home,
    py "/Users/user/.almondcoder/website/test-conflict-deadbeef"
    = path_str (parse home / py ".almondcoder" / name REPO_PATH
                / (py "test-conflict-" ++ token_of bs))
    /\ is_token (token_of bs).
Proof.
  cbv zeta.
  destruct (C8_worktree_location (Sim.interp main Sim.example_repo).1.1
              (Sim.interp main Sim.example_repo).1.2
              (take 19 (Sim.interp main Sim.example_repo).1.1)
              (almond_branch_of (py "deadbeef"))
              (py "/Users/user/.almondcoder/website/test-conflict-deadbeef")
              (py "main") REPO_PATH (Sim.ok [])
              (drop 20 (Sim.interp main Sim.example_repo).1.1))
    as (bs & home & before & mid & Ht & _ & _ & _ & _ & Hp & _).
  - apply interp_exec.
  - vm_compute. reflexivity.
  - exists bs, home. auto.
Defined.

Lemma C9_stdout_is_stripped_witness :
  exists cp,
    returncode cp = 0%Z /\ py "main" = strip (stdout cp)
    /\ last (py "main") <> Some 10.
Proof.
  destruct (C9_stdout_is_stripped git_show_current None
              [ESpawn git_show_current REPO_PATH
                 (Done (mkCompleted 0 (py "  main" ++ nl) []))]
              (py "main"))
    as ((cp & _ & Hrc & Hs & _) & _ & _ & Hnl & _).
  - apply exec_runs. unfold run_git_command, subprocess_run.
    cbn [bind mbind prog_bind try_except runs default from_option].
    do 2 eexists. split; [reflexivity|].
    cbn [returncode Z.eqb bind try_except stdout runs].
    split; [reflexivity|]. vm_compute. reflexivity.
  - exists cp. auto.
Defined.

Lemma C10_git_entry_of_any_kind_witness :
  let r := Sim.interp main Sim.linked_repo in
  exists c rest, spawns r.1.1 = ESpawn git_show_current REPO_PATH c :: rest.
Proof.
  cbv zeta.
  destruct (C10_git_entry_of_any_kind Sim.linked_repo
              (Sim.File (py "gitdir: /srv/main/.git/worktrees/w"))
              (Sim.interp main Sim.linked_repo).1.1
              (Sim.interp main Sim.linked_repo).1.2
              (Sim.interp main Sim.linked_repo).2)
    as (_ & _ & H).
  - apply interp_outcome. vm_compute. reflexivity.
  - vm_compute. eauto.
  - vm_compute. reflexivity.
  - exact H.
Defined.



(** ** What [run_git_command] raises *)

(** X1: [run_git_command] raises in two ways only.  When the command
    exits non-zero it prints its two-line report (the command line and
    the captured standard error) and raises the [CalledProcessError]
    again.  When the process cannot be started at all, the handler does
    not apply: nothing is printed and the exception of [subprocess.run]
    goes up as it is.  Either way the command was started once, in [cwd]
    or, without one, in the repository. *)
Theorem run_git_command_raises cmd cwd tr e :
  exec (run_git_command cmd cwd) tr (Raised e) ->
  (exists cp,
     tr = ESpawn cmd (default REPO_PATH cwd) (Done cp) :: failure_report cmd cp
     /\ returncode cp <> 0%Z
     /\ e = CalledProcessError (returncode cp) cmd (stdout cp) (stderr cp))
  \/ (exists cls,
        tr = [ESpawn cmd (default REPO_PATH cwd) (Failed cls)]
        /\ e = PyError cls).
Proof.
  intros H. apply exec_runs in H. unfold run_git_command, subprocess_run in H.
  cbn [bind mbind prog_bind try_except runs] in H.
  destruct H as (r & tr' & -> & H). destruct r as [cp|cls].
  - destruct (returncode cp =? 0)%Z eqn:E;
      cbn [bind try_except print runs mbind prog_bind] in H.
    + destruct H as [_ H]. discriminate H.
    + destruct H as (t1 & -> & t2 & -> & -> & H). injection H as H.
      subst e. left. exists cp. split; [reflexivity|].
      split; [apply Z.eqb_neq, E | reflexivity].
  - cbn [bind try_except runs] in H. destruct H as [-> H]. injection H as H. subst e.
    right. exists cls. auto.
Qed.


(** ** Every run of the scenario *)

Lemma each_event_at Q pre : forall seen e post,
  each_event Q seen (pre ++ e :: post) -> Q (seen ++ pre) e post.
Proof.
  induction pre as [|x pre IH]; intros seen e post H.
  - rewrite app_nil_r. simpl in H. tauto.
  - simpl in H. destruct H as [_ H]. apply IH in H.
    rewrite <- app_assoc in H. exact H.
Qed.

Lemma raised_by_app pre tr e : raised_by tr e -> raised_by (pre ++ tr) e.
Proof.
  intros [(p & c & d & cp & -> & H) | (p & ev & cls & -> & H)].
  - left. exists (pre ++ p), c, d, cp. rewrite <- app_assoc. auto.
  - right. exists (pre ++ p), ev, cls. rewrite <- app_assoc. auto.
Qed.

Lemma each_event_cons Q seen e rest :
  Q seen e rest -> each_event Q (seen ++ [e]) rest ->
  each_event Q seen (e :: rest).
Proof. simpl. auto. Qed.

Lemma tidy_print o seen s rest : tidy o seen (EPrint s) rest.
Proof. repeat split. Qed.

Lemma tidy_exists o seen p b rest : tidy o seen (EExists p b) rest.
Proof. repeat split. Qed.

Lemma tidy_urandom o seen n bs rest : tidy o seen (EUrandom n bs) rest.
Proof. repeat split. Qed.

Lemma snoc2 {A : Type} (l : list A) a b : (l ++ [a]) ++ [b] = l ++ [a; b].
Proof. rewrite <- app_assoc. reflexivity. Qed.

(** The random bytes and the home directory of the run, read off the
    goal. *)
Ltac with_home k :=
  lazymatch goal with
  | |- context [parse ?h / py ".almondcoder"] => k h
  end.

Ltac with_run k :=
  lazymatch goal with
  | |- context [uuid4_int ?bs] => with_home ltac:(fun h => k bs h)
  end.

(** The names of the run's values are unfolded in the goal, so that they
    compare with the trace as the script computed it. *)
Ltac unfold_run :=
  cbv delta [worktree_added worktree_path_of project_worktree_dir_of
             token_of] beta.

(** [In (ESpawn (git_worktree_add _ _ _) _ _) l] for a list built by
    appending single events. *)
Ltac find_worktree :=
  repeat (apply in_or_app;
          lazymatch goal with
          | |- _ \/ In _ [ESpawn (git_worktree_add _ _ _) _ _] =>
            right; left; reflexivity
          | _ => left
          end).

Ltac solve_added :=
  lazymatch goal with
  | |- worktree_added _ _ ?s =>
    lazymatch s with
    | context [ESpawn (git_worktree_add _ _ ?base) REPO_PATH (Done ?cp)] =>
      exists base, cp; unfold_run; split; [find_worktree | rc_zero]
    end
  end.

Ltac solve_removes :=
  first
    [ exact I
    | cbn [removes_worktree];
      with_run ltac:(fun bs h =>
        exists bs, h; do 2 eexists; unfold_run;
        split; [reflexivity|];
        split; [apply snoc2|];
        split; find_in) ].

Ltac solve_writes :=
  first
    [ exact I
    | cbn [writes_fixture];
      lazymatch goal with
      | |- (_ /\ (initial_content = _ \/ _)) \/ _ =>
        left; split; [reflexivity | left; reflexivity]
      | |- (_ /\ (main_content = _ \/ _)) \/ _ =>
        left; split; [reflexivity | right; reflexivity]
      | |- (_ /\ (almond_content = _ \/ _)) \/ _ =>
        right;
        with_run ltac:(fun bs h =>
          exists bs, h; split; [unfold_run; reflexivity|];
          split; [reflexivity | solve_added])
      | |- exists _, _ =>
        with_home ltac:(fun h =>
          exists h; split; [unfold_run; reflexivity|];
          split; [reflexivity|]; split; [reflexivity | find_in])
      end ].

Ltac pick_command :=
  unfold repo_command;
  lazymatch goal with
  | |- git_show_current = _ \/ _ => left; reflexivity
  | |- git_checkout (py "main") = _ \/ _ => right; left; reflexivity
  | |- git_checkout (py "master") = _ \/ _ => do 2 right; left; reflexivity
  | |- git_add = _ \/ _ => do 3 right; left; reflexivity
  | |- git_commit msg_initial = _ \/ _ => do 4 right; left; reflexivity
  | |- git_commit msg_main = _ \/ _ => do 5 right; left; reflexivity
  | |- git_worktree_add _ _ ?b = _ \/ _ =>
    do 6 right;
    with_run ltac:(fun bs h => exists bs, h, b; unfold_run; reflexivity)
  end.

Ltac solve_known :=
  first
    [ exact I
    | cbn [known_command];
      lazymatch goal with
      | |- (REPO_PATH = REPO_PATH /\ _) \/ _ =>
        left; split; [reflexivity | pick_command]
      | |- _ =>
        right;
        with_run ltac:(fun bs h =>
          exists bs, h; split; [unfold_run; reflexivity|];
          split;
          [ lazymatch goal with
            | |- git_add = _ \/ _ => left; reflexivity
            | |- _ => right; reflexivity
            end
          | solve_added ])
      end ].

Ltac solve_reported :=
  first
    [ exact I
    | let Hrc := fresh "Hrc" in
      cbn [reported]; intros Hrc;
      first
        [ exfalso;
          match goal with
          | E : (returncode ?a =? 0)%Z = true, N : returncode ?a <> 0%Z |- _ =>
            apply N, Z.eqb_eq, E
          end
        | let Hck := fresh "Hck" in
          lazymatch goal with
          | |- exists r, _ :: _ :: ?m = _ /\ _ =>
            exists m; split; [reflexivity|]; intros Hck;
            lazymatch m with
            | _ :: _ => discriminate
            | [] =>
              exfalso;
              lazymatch type of Hck with
              | is_checkout (git_worktree_add _ _ _) = _ =>
                cbn [is_checkout git_worktree_add] in Hck; discriminate Hck
              | _ => vm_compute in Hck; discriminate Hck
              end
            end
          end ] ].

Ltac solve_stops :=
  first
    [ exact I
    | let Hck := fresh "Hck" in
      cbn [stops failure]; intros Hck;
      lazymatch goal with
      | |- [] = [] /\ _ => split; reflexivity
      | |- _ =>
        exfalso; cbn [in_fallback] in Hck; vm_compute in Hck;
        discriminate Hck
      end ].

Ltac solve_events :=
  repeat lazymatch goal with
         | |- each_event _ _ [] => exact I
         | |- each_event _ _ (EPrint _ :: _) =>
           apply each_event_cons; [apply tidy_print|]
         | |- each_event _ _ (EExists _ _ :: _) =>
           apply each_event_cons; [apply tidy_exists|]
         | |- each_event _ _ (EUrandom _ _ :: _) =>
           apply each_event_cons; [apply tidy_urandom|]
         | |- each_event _ _ (_ :: _) =>
           apply each_event_cons;
           [ split; [solve_removes
                    | split; [solve_writes
                             | split; [solve_known
                                      | split; [solve_reported
                                               | solve_stops]]]] |]
         end.

(** Parts of a list of events given by its elements. *)
Ltac front l :=
  lazymatch l with
  | [_] => constr:(@nil event)
  | ?e :: ?r => let f := front r in constr:(e :: f)
  end.

Ltac front3 l :=
  lazymatch l with
  | [_; _; _] => constr:(@nil event)
  | ?e :: ?r => let f := front3 r in constr:(e :: f)
  end.

Ltac last_of l :=
  lazymatch l with
  | [?e] => e
  | _ :: ?r => last_of r
  end.

Ltac answers l :=
  lazymatch l with
  | [] => constr:(@nil CompletedProcess)
  | ESpawn _ _ (Done ?cp) :: ?r =>
    let t := answers r in constr:(cp :: t)
  | _ :: ?r => answers r
  end.

Ltac not_checkout :=
  lazymatch goal with
  | |- is_checkout (git_worktree_add _ _ _) = false => reflexivity
  | |- is_checkout _ = false => vm_compute; reflexivity
  | |- _ => reflexivity
  end.

(** [In (EPrint msg) l] for a list [l] given by its elements. *)
Ltac find_print :=
  repeat lazymatch goal with
         | |- In (EPrint ?msg) (EPrint ?m :: _) =>
           tryif constr_eq m msg then apply in_eq else apply in_cons
         | |- In _ (_ :: _) => apply in_cons
         end.

Ltac solve_raised :=
  lazymatch goal with
  | |- raised_by ?l (PyError ?c) =>
    let f := front l in
    let e := last_of l in
    right; exists f, e, c;
    split; [reflexivity|]; split; [reflexivity|];
    split; [cbn [in_fallback]; not_checkout | reflexivity]
  | |- raised_by ?l (CalledProcessError _ _ _ _) =>
    let f := front3 l in
    lazymatch goal with
    | N : (returncode ?cp =? 0)%Z = false |- _ =>
      lazymatch l with
      | context [ESpawn ?c ?d (Done cp)] =>
        left; exists f, c, d, cp;
        split; [reflexivity|];
        split; [apply Z.eqb_neq; exact N|];
        split; [not_checkout | reflexivity]
      end
    end
  end.

Ltac solve_effects :=
  unfold scenario_effects;
  lazymatch goal with
  | |- context [EExists _ ?st] =>
    with_run ltac:(fun bs h =>
      lazymatch goal with
      | |- context [effects ?l] =>
        let a := answers l in
        lazymatch a with
        | [?c1; ?c2; ?c3; ?c4; ?c5; ?c6; ?c7] =>
          exists bs, h, st, c1, c2, c3, c4, c5, c6, c7
        end
      end)
  end;
  cbv zeta; unfold_run;
  split; [cbn [effects List.filter is_print negb app]; reflexivity|];
  split; [assumption|];
  split; [repeat constructor; rc_zero|];
  unfold completed; find_print.

Ltac solve_ending :=
  lazymatch goal with
  | |- scenario_ending _ _ (Returned _) => cbn [scenario_ending]; solve_effects
  | |- scenario_ending _ _ (Raised _) => cbn [scenario_ending]; solve_raised
  end.

Lemma scenario_cases b tr o :
  runs (scenario b) tr o ->
  (forall seen, each_event (tidy o) seen tr) /\ scenario_ending b tr o.
Proof.
  intros H. unfold scenario, summary in H. run H.
  all: split; [intros seen; solve_events | solve_ending].
Qed.


(** ** Every run of [main] *)

Ltac answer_ok :=
  lazymatch goal with
  | |- succeeded (Failed _) = false => reflexivity
  | |- succeeded (Done ?a) = ?v =>
    cbn [succeeded];
    lazymatch goal with
    | E : (returncode a =? 0)%Z = v |- _ => exact E
    end
  end.

Ltac branch_test :=
  lazymatch goal with
  | E : str_in ?c ?l = ?v |- str_in ?c ?l = ?v => exact E
  end.

Ltac compute_effects := cbn [effects List.filter is_print negb app].

Ltac solve_resolved :=
  unfold resolved;
  lazymatch goal with
  | E : str_in _ _ = true |- _ =>
    left; split; [branch_test | split; reflexivity]
  | E : str_in _ _ = false |- _ =>
    right; split; [branch_test|];
    lazymatch goal with
    | |- (exists r, [_] = _ /\ _) \/ _ =>
      left; eexists; split; [reflexivity|];
      split; [answer_ok | reflexivity]
    | |- _ =>
      right; do 2 eexists; split; [reflexivity|];
      split; [answer_ok | split; [answer_ok | reflexivity]]
    end
  end.

Ltac last_printed := cbn [printed omap list_omap last]; reflexivity.

Ltac solve_early l :=
  unfold early_exit;
  lazymatch l with
  | context [EExists REPO_PATH false] =>
    left; split; [compute_effects; reflexivity | last_printed]
  | context [EExists (REPO_PATH / py ".git") false] =>
    right; left; split; [compute_effects; reflexivity | last_printed]
  | context [ESpawn git_show_current REPO_PATH (Done ?cp)] =>
    lazymatch l with
    | context [ESpawn (git_checkout (py "main")) REPO_PATH ?r1] =>
      lazymatch l with
      | context [ESpawn (git_checkout (py "master")) REPO_PATH ?r2] =>
        do 2 right; exists cp, r1, r2;
        split; [compute_effects; reflexivity|];
        split; [rc_zero|];
        split; [branch_test|];
        split; [answer_ok|];
        split; [answer_ok | last_printed]
      end
    end
  end.

Ltac solve_main_ending :=
  lazymatch goal with
  | H : runs (scenario ?b) ?x ?o |- main_ending ?l ?o =>
    let p := prefix_before l x in
    let He := fresh "He" in
    pose proof (proj2 (scenario_cases _ _ _ H)) as He;
    change l with (p ++ x);
    destruct o as [[]|e]; cbn [main_ending scenario_ending] in *;
    [ right;
      lazymatch l with
      | context [ESpawn git_show_current REPO_PATH (Done ?cp)] =>
        exists cp; eexists; exists b, p, x;
        split; [reflexivity|];
        split; [compute_effects; reflexivity|];
        split; [rc_zero|];
        split; [solve_resolved | exact He]
      end
    | apply raised_by_app; exact He ]
  | |- main_ending _ (Raised _) => cbn [main_ending]; solve_raised
  | |- main_ending ?l (Returned _) =>
    let Hc := fresh "Hc" in
    cbn [main_ending]; left;
    split; [solve_early l | intros Hc; unfold completed in Hc; not_printed Hc]
  end.

Ltac solve_main_events :=
  solve_events;
  try lazymatch goal with
      | H : runs (scenario _) _ _ |- each_event _ _ _ =>
        apply (proj1 (scenario_cases _ _ _ H))
      end.

Lemma main_cases tr o :
  runs main tr o -> each_event (tidy o) [] tr /\ main_ending tr o.
Proof.
  intros H. unfold main, resolve_branch in H. run H.
  all: split; [solve_main_events | solve_main_ending].
Qed.


(** ** How a run of [main] ends *)

(** X2: a run of [main] that printed its summary went through all seven
    steps, in the order of the source: the two existence checks found the
    repository, [git branch --show-current] exited with 0, the base
    branch was settled (the current branch if it is [main] or [master],
    else [main] after its checkout, else [master] after its checkout),
    and steps 3 to 7 made their requests one after the other, every
    command exiting with 0. *)
Theorem main_full_run tr :
  exec main tr (Returned tt) -> completed tr -> full_run tr.
Proof.
  intros H Hc. apply exec_runs, main_cases in H as [_ H].
  cbn [main_ending] in H. destruct H as [[_ Hn] | H]; [|exact H].
  contradiction.
Qed.

(** X3: a run of [main] that returns without the summary left before step
    3, in one of three ways: the repository directory was not found, it
    has no [.git] entry, or the current branch is neither [main] nor
    [master] and both checkouts failed (by a non-zero exit or by an
    exception, which the bare [except] swallows alike).  In each case the
    last line printed is the error of that case and no other request was
    made. *)
Theorem main_early_exit tr :
  exec main tr (Returned tt) -> ~ completed tr -> early_exit tr.
Proof.
  intros H Hc. apply exec_runs, main_cases in H as [_ H].
  cbn [main_ending] in H. destruct H as [[H _] | H]; [exact H|].
  exfalso. apply Hc.
  destruct H as (cp & switch & base & pre & trs & -> & _ & _ & _ & Hs).
  destruct Hs as (bs & home & stale & c1 & c2 & c3 & c4 & c5 & c6 & c7 & Hs).
  cbv zeta in Hs. destruct Hs as (_ & _ & _ & Hs).
  unfold completed in *. apply in_or_app. right. exact Hs.
Qed.

(** X4: an exception escapes [main] in two ways only.  Either a command
    outside the branch-resolution fallback exited non-zero: the trace
    ends with that command and the two lines of its report, and the
    exception is its [CalledProcessError].  Or a library call outside the
    fallback raised (the home directory, [mkdir], [rmtree], [write_text],
    or a process that could not be started): that call is the last event
    of the trace, nothing is printed after it, and the exception is the
    one the call raised.  The process then exits with status 1. *)
Theorem main_raises tr e :
  exec main tr (Raised e) -> raised_by tr e /\ exit_status (Raised e) = 1%Z.
Proof.
  intros H. apply exec_runs, main_cases in H as [_ H].
  split; [exact H | reflexivity].
Qed.

(** ** What a run of [main] touches *)

Lemma worktree_not_above_repo home bs :
  ~ Sim.under (worktree_path_of home bs) REPO_PATH.
Proof.
  destruct (worktree_path_wf home bs) as [_ ->].
  intros [_ [k Hk]]. cbn [parts] in Hk.
  assert (Hin : In (py ".almondcoder") (parts REPO_PATH)).
  { rewrite Hk. apply in_or_app. left. apply in_or_app. right. left.
    reflexivity. }
  vm_compute in Hin.
  repeat (destruct Hin as [Hin|Hin]; [discriminate Hin|]).
  exact Hin.
Qed.

(** X5: [main] calls [shutil.rmtree] on nothing but the path of the
    working tree, [<home>/.almondcoder/website/test-conflict-<token>]
    for the home directory and the random bytes read before, and only
    right after the existence check of that path answered [True] and the
    warning was printed.  The repository is neither that path nor below
    it. *)
Theorem main_removes_only_worktree tr o pre p r post :
  exec main tr o -> tr = pre ++ ERmtree p r :: post ->
  exists bs home before warn,
    p = worktree_path_of home bs
    /\ pre = before ++ [EExists p true; EPrint warn]
    /\ In (EUrandom 16 bs) before
    /\ In (EHome (Done home)) before
    /\ ~ Sim.under p REPO_PATH.
Proof.
  intros H ->. apply exec_runs, main_cases in H as [H _].
  apply each_event_at in H as [H _]. cbn [removes_worktree app] in H.
  destruct H as (bs & home & before & warn & -> & Hpre & Hb & Hh).
  exists bs, home, before, warn.
  repeat (split; [assumption || reflexivity|]).
  apply worktree_not_above_repo.
Qed.

(** X6: what [main] itself changes in the file system.  Every
    [write_text] goes to the fixture file: in the repository with the
    initial or the main content, or in the working tree with the almond
    content, and there only after [git worktree add] for that working
    tree exited with 0.  Every [mkdir] is that of
    [<home>/.almondcoder/website] with [parents=True, exist_ok=True],
    for the home directory read before. *)
Theorem main_writes_only_fixture tr o pre e post :
  exec main tr o -> tr = pre ++ e :: post -> writes_fixture pre e.
Proof.
  intros H ->. apply exec_runs, main_cases in H as [H _].
  apply each_event_at in H as (_ & H & _). exact H.
Qed.

(** X7: every process [main] starts is one of its git command lines, run
    in the repository, except [git add abc.txt] and the commit of the
    almond content, which run in the working tree once [git worktree
    add] for it exited with 0.  In particular the clean-up commands of
    the summary are printed, never run. *)
Theorem main_known_commands tr o pre c d r post :
  exec main tr o -> tr = pre ++ ESpawn c d r :: post ->
  (d = REPO_PATH /\ repo_command c)
  \/ exists bs home,
       d = worktree_path_of home bs
       /\ (c = git_add \/ c = git_commit msg_almond)
       /\ worktree_added home bs pre.
Proof.
  intros H ->. apply exec_runs, main_cases in H as [H _].
  apply each_event_at in H as (_ & _ & H & _). exact H.
Qed.

(** X8: every command that exits non-zero is reported, the checkouts of
    the fallback included: the two lines of [run_git_command] follow it
    at once.  After a failed checkout the run goes on (the bare [except]
    swallows the error after its report was printed). *)
Theorem main_reports_nonzero tr o pre c d cp post :
  exec main tr o -> tr = pre ++ ESpawn c d (Done cp) :: post ->
  returncode cp <> 0%Z ->
  exists post',
    post = failure_report c cp ++ post'
    /\ (is_checkout c = true -> post' <> []).
Proof.
  intros H -> Hrc. apply exec_runs, main_cases in H as [H _].
  apply each_event_at in H as (_ & _ & _ & H & _). exact (H Hrc).
Qed.

(** X9: no failure of a library call is passed over outside the
    fallback.  When the home directory cannot be determined, or [mkdir],
    [rmtree] or [write_text] raises, or a process outside the fallback
    cannot be started, that call is the last event of the run: nothing is
    printed, the exception escapes [main] as it was raised. *)
Theorem main_stops_at_failure tr o pre e cls post :
  exec main tr o -> tr = pre ++ e :: post ->
  failure e = Some cls -> in_fallback e = false ->
  post = [] /\ o = Raised (PyError cls).
Proof.
  intros H -> Hf Hck. apply exec_runs, main_cases in H as [H _].
  apply each_event_at in H as (_ & _ & _ & _ & H).
  unfold stops in H. rewrite Hf in H. exact (H Hck).
Qed.


(** ** The token and the random bytes *)

Section TokenBytes.

Lemma hex_aux_acc fuel : forall n acc,
  hex_aux fuel n acc = hex_aux fuel n [] ++ acc.
Proof.
  induction fuel as [|f IH]; intros n acc; simpl.
  - reflexivity.
  - destruct (n <? 16); [reflexivity|].
    rewrite (IH _ (_ :: acc)), (IH _ [_]), <- app_assoc. reflexivity.
Qed.

Lemma digits_length w : forall n, length (digits w n) = w.
Proof.
  induction w as [|w IH]; intros n; simpl; [reflexivity|].
  rewrite length_app, IH. simpl. lia.
Qed.

Lemma digits_zero w : digits w 0 = repeat 48 w.
Proof.
  induction w as [|w IH]; simpl; [reflexivity|].
  change (0 / 16)%N with 0. rewrite IH. change (hex_digit (0 mod 16)) with 48.
  symmetry. apply (repeat_cons w 48).
Qed.

Lemma digits_small w n :
  n < 16 -> digits (S w) n = repeat 48 w ++ [hex_digit n].
Proof.
  intros Hn. simpl. rewrite N.div_small, N.mod_small by exact Hn.
  rewrite digits_zero. reflexivity.
Qed.

Lemma pow16_S (k : nat) : 16 ^ N.of_nat (S k) = 16 * 16 ^ N.of_nat k.
Proof. rewrite Nat2N.inj_succ, N.pow_succ_r'. reflexivity. Qed.

Lemma hex_aux_digits fuel : forall n k,
  n < 16 ^ N.of_nat (S fuel) -> n < 16 ^ N.of_nat (S k) ->
  repeat 48 (S k - length (hex_aux fuel n [])) ++ hex_aux fuel n []
  = digits (S k) n.
Proof.
  induction fuel as [|f IH]; intros n k Hf Hk.
  - change (16 ^ N.of_nat 1) with 16 in Hf.
    cbn [hex_aux length]. rewrite N.mod_small by exact Hf.
    rewrite digits_small by exact Hf. f_equal. f_equal. lia.
  - cbn [hex_aux]. destruct (N.ltb_spec n 16) as [Hn|Hn].
    + cbn [length]. rewrite digits_small by exact Hn. f_equal. f_equal. lia.
    + rewrite hex_aux_acc, length_app. cbn [length].
      destruct k as [|k].
      { change (16 ^ N.of_nat 1) with 16 in Hk. lia. }
      rewrite pow16_S in Hf, Hk.
      assert (Hf' : n / 16 < 16 ^ N.of_nat (S f))
        by (apply N.Div0.div_lt_upper_bound; exact Hf).
      assert (Hk' : n / 16 < 16 ^ N.of_nat (S k))
        by (apply N.Div0.div_lt_upper_bound; exact Hk).
      specialize (IH (n / 16)%N k Hf' Hk').
      change (digits (S (S k)) n)
        with (digits (S k) (n / 16) ++ [hex_digit (n mod 16)]).
      rewrite <- IH, <- app_assoc. f_equal. f_equal. lia.
Qed.

Lemma size_fuel n : n < 16 ^ N.of_nat (S (N.to_nat (N.size n))).
Proof.
  rewrite Nat2N.inj_succ, N2Nat.id.
  apply N.lt_le_trans with (2 ^ N.size n); [apply N.size_gt|].
  apply N.le_trans with (2 ^ N.succ (N.size n)).
  - apply N.pow_le_mono_r; lia.
  - apply N.pow_le_mono_l. lia.
Qed.

(** Within its width, ['%0<w>x'] writes exactly [w] digits. *)
Lemma hex_pad_digits k n :
  n < 16 ^ N.of_nat (S k) -> hex_pad (S k) n = digits (S k) n.
Proof.
  intros Hk. unfold hex_pad, hex. cbv zeta.
  apply hex_aux_digits; [apply size_fuel | exact Hk].
Qed.

Lemma take_digits j : forall m n,
  take j (digits (j + m) n) = digits j (n / 16 ^ N.of_nat m).
Proof.
  intros m. induction m as [|m IH]; intros n.
  - rewrite Nat.add_0_r, N.pow_0_r, N.div_1_r.
    apply firstn_all2. rewrite digits_length. lia.
  - replace (j + S m)%nat with (S (j + m)) by lia. cbn [digits].
    rewrite take_app_le by (rewrite digits_length; lia).
    rewrite IH, pow16_S, N.Div0.div_div. reflexivity.
Qed.

Lemma hex_digit_inj a b : a < 16 -> b < 16 -> hex_digit a = hex_digit b -> a = b.
Proof.
  unfold hex_digit. intros Ha Hb.
  destruct (N.ltb_spec a 10), (N.ltb_spec b 10); lia.
Qed.

Lemma digits_inj w : forall n m,
  n < 16 ^ N.of_nat w -> m < 16 ^ N.of_nat w ->
  digits w n = digits w m -> n = m.
Proof.
  induction w as [|w IH]; intros n m Hn Hm H.
  - change (16 ^ N.of_nat 0) with 1 in *. lia.
  - rewrite pow16_S in Hn, Hm. cbn [digits] in H.
    apply app_inj_tail in H as [H1 H2].
    apply IH in H1; try (apply N.Div0.div_lt_upper_bound; assumption).
    apply hex_digit_inj in H2; try (apply N.mod_lt; discriminate).
    rewrite (N.div_mod n 16), (N.div_mod m 16) by discriminate.
    rewrite H1, H2. reflexivity.
Qed.

(** *** The integer of a byte string *)

Lemma fold_bytes bs : forall acc,
  fold_left (fun acc b => acc * 256 + Byte.to_N b) bs acc
  = acc * 256 ^ N.of_nat (length bs) + int_from_bytes bs.
Proof.
  unfold int_from_bytes.
  induction bs as [|b bs IH]; intros acc; cbn [fold_left length].
  - change (256 ^ N.of_nat 0) with 1. lia.
  - rewrite IH, (IH (0 * 256 + Byte.to_N b)).
    rewrite Nat2N.inj_succ, N.pow_succ_r'. lia.
Qed.

Lemma int_from_bytes_app l1 l2 :
  int_from_bytes (l1 ++ l2)
  = int_from_bytes l1 * 256 ^ N.of_nat (length l2) + int_from_bytes l2.
Proof.
  unfold int_from_bytes at 1. rewrite fold_left_app.
  apply fold_bytes.
Qed.

Lemma byte_small b : Byte.to_N b < 256.
Proof. destruct b; reflexivity. Qed.

Lemma int_from_bytes_lt bs : int_from_bytes bs < 256 ^ N.of_nat (length bs).
Proof.
  induction bs as [|b bs IH] using rev_ind.
  - reflexivity.
  - rewrite int_from_bytes_app, length_app. cbn [length].
    change (int_from_bytes [b]) with (Byte.to_N b).
    change (256 ^ N.of_nat 1) with 256.
    replace (length bs + 1)%nat with (S (length bs)) by lia.
    rewrite (Nat2N.inj_succ (length bs)), N.pow_succ_r'.
    pose proof (byte_small b).
    generalize dependent (256 ^ N.of_nat (length bs)). intros X HX. lia.
Qed.

Lemma byte_to_N_inj a b : Byte.to_N a = Byte.to_N b -> a = b.
Proof.
  intros H. apply (f_equal Byte.of_N) in H.
  rewrite !Byte.of_to_N in H. injection H as ->. reflexivity.
Qed.

Lemma int_from_bytes_inj l1 : forall l2,
  length l1 = length l2 -> int_from_bytes l1 = int_from_bytes l2 -> l1 = l2.
Proof.
  induction l1 as [|a l1 IH] using rev_ind; intros l2 Hl H.
  - destruct l2; [reflexivity | discriminate].
  - destruct l2 as [|b l2 _] using rev_ind.
    { rewrite length_app in Hl. simpl in Hl. lia. }
    rewrite !length_app in Hl. cbn [length] in Hl.
    rewrite !int_from_bytes_app in H.
    change (int_from_bytes [a]) with (Byte.to_N a) in H.
    change (int_from_bytes [b]) with (Byte.to_N b) in H.
    cbn [length] in H. change (256 ^ N.of_nat 1) with 256 in H.
    pose proof (byte_small a) as Ha. pose proof (byte_small b) as Hb.
    assert (int_from_bytes l1 = int_from_bytes l2 /\ Byte.to_N a = Byte.to_N b)
      as [E1 E2] by lia.
    apply IH in E1; [|lia]. apply byte_to_N_inj in E2. subst. reflexivity.
Qed.

(** *** The top of a version-4 UUID *)

Lemma testbit_mask c s j :
  N.log2 c < j - s -> s <= j -> N.testbit (N.shiftl c s) j = false.
Proof.
  intros Hc Hs. rewrite N.shiftl_spec_high' by exact Hs.
  apply N.bits_above_log2. exact Hc.
Qed.

Lemma uuid4_int_high bs i :
  96 <= i -> N.testbit (uuid4_int bs) i = N.testbit (int_from_bytes bs) i.
Proof.
  intros Hi. unfold uuid4_int. cbv zeta.
  rewrite N.lor_spec, N.ldiff_spec, N.lor_spec, N.ldiff_spec.
  rewrite (testbit_mask 0xc000 48), (testbit_mask 0x8000 48),
    (testbit_mask 0xf000 64), (testbit_mask 4 76);
    try (cbn; lia).
  rewrite !orb_false_r, !andb_true_r. reflexivity.
Qed.

Lemma uuid4_int_top bs :
  (uuid4_int bs / 2 ^ 96 = int_from_bytes bs / 2 ^ 96)%N.
Proof.
  rewrite <- !N.shiftr_div_pow2. apply N.bits_inj. intros i.
  rewrite !N.shiftr_spec'. apply uuid4_int_high. lia.
Qed.

Lemma uuid4_int_lt bs :
  length bs = 16%nat -> uuid4_int bs < 2 ^ 128.
Proof.
  intros Hl. pose proof (int_from_bytes_lt bs) as Hb. rewrite Hl in Hb.
  change (256 ^ N.of_nat 16) with (2 ^ 128) in Hb.
  destruct (N.eq_dec (uuid4_int bs) 0) as [->|Hz]; [reflexivity|].
  apply N.log2_lt_pow2; [lia|].
  destruct (N.lt_ge_cases (N.log2 (uuid4_int bs)) 128) as [H|H]; [exact H|].
  exfalso.
  pose proof (N.bit_log2 (uuid4_int bs) Hz) as Hbit.
  rewrite uuid4_int_high in Hbit by lia.
  destruct (N.eq_dec (int_from_bytes bs) 0) as [E|E].
  { rewrite E, N.bits_0 in Hbit. discriminate. }
  rewrite N.bits_above_log2 in Hbit; [discriminate|].
  apply N.lt_le_trans with 128; [|exact H].
  apply N.log2_lt_pow2; lia.
Qed.

Lemma top_bytes bs :
  length bs = 16%nat ->
  (int_from_bytes bs / 2 ^ 96)%N = int_from_bytes (take 4 bs).
Proof.
  intros Hl. rewrite <- (take_drop 4 bs) at 1.
  rewrite int_from_bytes_app.
  assert (Hd : length (drop 4 bs) = 12%nat) by (rewrite length_drop; lia).
  pose proof (int_from_bytes_lt (drop 4 bs)) as Hlt. rewrite Hd in *.
  change (256 ^ N.of_nat 12) with (2 ^ 96) in *.
  rewrite N.div_add_l by discriminate.
  rewrite (N.div_small _ _ Hlt). lia.
Qed.

Lemma token_of_digits bs :
  length bs = 16%nat -> token_of bs = digits 8 (int_from_bytes (take 4 bs)).
Proof.
  intros Hl. rewrite token_of_take.
  rewrite (hex_pad_digits 31) by (apply uuid4_int_lt; exact Hl).
  rewrite (take_digits 8 24).
  change (16 ^ N.of_nat 24) with (2 ^ 96).
  rewrite uuid4_int_top, top_bytes by exact Hl. reflexivity.
Qed.

Lemma four_bytes_lt (bs : list byte) :
  (4 <= length bs)%nat -> int_from_bytes (take 4 bs) < 16 ^ N.of_nat 8.
Proof.
  intros Hl. pose proof (int_from_bytes_lt (take 4 bs)) as H.
  rewrite length_take in H. replace (4 `min` length bs)%nat with 4%nat in H by lia.
  exact H.
Qed.

End TokenBytes.

(** X10: the token [str(uuid.uuid4())[:8]] is the first four of the
    sixteen random bytes written as eight hexadecimal digits: the
    version and variant bits of the UUID lie outside it.  Two draws give
    the same token exactly when they agree on their first four bytes, so
    the token carries thirty-two random bits. *)
Theorem token_first_four_bytes bs bs' :
  length bs = 16%nat -> length bs' = 16%nat ->
  token_of bs = hex_pad 8 (int_from_bytes (take 4 bs))
  /\ (token_of bs = token_of bs' <-> take 4 bs = take 4 bs').
Proof.
  intros Hl Hl'.
  pose proof (four_bytes_lt bs ltac:(lia)) as Hb.
  pose proof (four_bytes_lt bs' ltac:(lia)) as Hb'.
  split.
  - rewrite (hex_pad_digits 7) by exact Hb. apply token_of_digits, Hl.
  - rewrite !token_of_digits by assumption. split.
    + intros H. apply digits_inj in H; [|exact Hb|exact Hb'].
      apply int_from_bytes_inj in H; [exact H|].
      rewrite !length_take. lia.
    + intros ->. reflexivity.
Qed.


(** ** The files a complete run leaves *)

Lemma node_at_insert_ne (m : gmap Path Sim.node) p q x :
  p <> q -> Sim.node_at (<[q := x]> m) p = Sim.node_at m p.
Proof.
  intros Hne. unfold Sim.node_at. destruct (parts p); [reflexivity|].
  apply lookup_insert_ne. intros Heq. apply Hne. symmetry. exact Heq.
Qed.

Lemma fixture_paths_differ home bs :
  worktree_path_of home bs / TEST_FILE <> REPO_PATH / TEST_FILE.
Proof.
  intros H. apply (worktree_not_above_repo home bs).
  rewrite !div_plain in H by apply plain_TEST_FILE.
  injection H as Hr Hp. apply app_inv_tail in Hp.
  split; [exact Hr|]. rewrite Hp. reflexivity.
Qed.

Ltac before_almond l :=
  lazymatch l with
  | EWrite _ almond_content _ :: _ => constr:(@nil event)
  | ?e :: ?r => let b := before_almond r in constr:(e :: b)
  end.

Ltac from_almond l :=
  lazymatch l with
  | EWrite _ almond_content _ :: _ => l
  | _ :: ?r => from_almond r
  end.

Ltac added Hp :=
  let Hm := fresh "Hadd" in
  replay_git Hp Hm;
  apply git_add_done in Hm as (? & ? & ? & _ & _ & ->); [|rc_zero]; fields.

Ltac committed Hp :=
  let Hm := fresh "Hci" in
  replay_git Hp Hm;
  apply git_commit_done in Hm as (? & ? & _ & _ & ->); [|rc_zero]; fields.

Lemma scenario_layout b tr :
  runs (scenario b) tr (Returned tt) ->
  forall w w', Sim.replay tr w w' ->
  exists bs home,
    In (EUrandom 16 bs) tr
    /\ In (EHome (Done home)) tr
    /\ Sim.node_at (Sim.fs w') (REPO_PATH / TEST_FILE)
       = Some (Sim.File main_content)
    /\ Sim.node_at (Sim.fs w') (worktree_path_of home bs / TEST_FILE)
       = Some (Sim.File almond_content).
Proof.
  intros H w w' Hp. unfold scenario, summary in H. run H.
  all: try discriminate H.
  all: clear H.
  all: lazymatch type of Hp with
       | context [EUrandom 16 ?bs] =>
         lazymatch type of Hp with
         | context [EHome (Done ?h)] =>
           exists bs, h;
           split; [in_list|]; split; [in_list|];
           change (parse h / py ".almondcoder" / name REPO_PATH /
                   worktree_name_of (slice 0 8 (uuid_str (uuid4_int bs))))
             with (worktree_path_of h bs) in Hp
         end
       end.
  all: lazymatch type of Hp with
       | Sim.replay ?l _ _ =>
         let l1 := before_almond l in
         let l2 := from_almond l in
         change l with (l1 ++ l2) in Hp
       end.
  all: apply replay_app in Hp as (wm & _ & Hp); replay_open Hp.
  all: repeat replay_event Hp; fields.
  all: added Hp; committed Hp.
  all: repeat replay_event Hp; fields.
  all: added Hp; committed Hp.
  all: repeat replay_event Hp; subst w'; fields.
  all: split; [apply node_at_written|].
  all: rewrite node_at_insert_ne by apply fixture_paths_differ.
  all: apply node_at_written.
Qed.

(** X11: in the simulated environment, after a run of [main] that printed
    its summary, the fixture file of the repository holds the main
    content and the fixture file of the working tree, at
    [<home>/.almondcoder/website/test-conflict-<token>/abc.txt], holds
    the almond content: each working copy is left as its branch was
    committed. *)
Theorem main_layout w tr w' :
  Sim.interp main w = (tr, Returned tt, w') -> completed tr ->
  exists bs home,
    In (EUrandom 16 bs) tr
    /\ In (EHome (Done home)) tr
    /\ Sim.node_at (Sim.fs w') (REPO_PATH / TEST_FILE)
       = Some (Sim.File main_content)
    /\ Sim.node_at (Sim.fs w') (worktree_path_of home bs / TEST_FILE)
       = Some (Sim.File almond_content).
Proof.
  intros Hi Hc. apply interp_sound in Hi as [Hr Hp].
  destruct (main_completed _ Hr Hc) as (pre & b & trs & -> & Hs).
  apply replay_app in Hp as (ws & _ & Hp).
  destruct (scenario_layout _ _ Hs _ _ Hp) as (bs & home & Hb & Hh & H1 & H2).
  exists bs, home.
  split; [apply in_or_app; right; exact Hb|].
  split; [apply in_or_app; right; exact Hh|].
  split; assumption.
Qed.


(** ** Nothing to commit *)

Section Evaluation.

Import Sim.

Lemma interp_bind {A B : Type} (p : prog A) (f : A -> prog B) : forall w,
  interp (bind p f) w
  = match interp p w with
    | (tr, Returned a, w1) =>
      let '(tr2, o, w2) := interp (f a) w1 in (tr ++ tr2, o, w2)
    | (tr, Raised e, w1) => (tr, Raised e, w1)
    end.
Proof.
  induction p as [a|e|s k IH|q k IH|k IH|q ps eo k IH|q k IH|q d k IH
                 |n k IH|c d k IH];
    intros w; cbn [bind interp].
  - destruct (interp (f a) w) as [[tr o] w1]. reflexivity.
  - reflexivity.
  - rewrite IH. destruct (interp k (do_print s w)) as [[tr [a|e]] w1];
      [destruct (interp (f a) w1) as [[tr2 o] w2]|]; reflexivity.
  - rewrite IH.
    destruct (interp (k (exists_at (fs w) q)) w) as [[tr [a|e]] w1];
      [destruct (interp (f a) w1) as [[tr2 o] w2]|]; reflexivity.
  - rewrite IH. destruct (interp (k (home_dir w)) w) as [[tr [a|e]] w1];
      [destruct (interp (f a) w1) as [[tr2 o] w2]|]; reflexivity.
  - destruct (fs_mkdir q ps eo (fs w)) as [r m]. rewrite IH.
    destruct (interp (k r) (set_fs w m)) as [[tr [a|e]] w1];
      [destruct (interp (f a) w1) as [[tr2 o] w2]|]; reflexivity.
  - destruct (fs_rmtree q (fs w)) as [r m]. rewrite IH.
    destruct (interp (k r) (set_fs w m)) as [[tr [a|e]] w1];
      [destruct (interp (f a) w1) as [[tr2 o] w2]|]; reflexivity.
  - destruct (fs_write q d (fs w)) as [r m]. rewrite IH.
    destruct (interp (k r) (set_fs w m)) as [[tr [a|e]] w1];
      [destruct (interp (f a) w1) as [[tr2 o] w2]|]; reflexivity.
  - destruct (do_urandom n w) as [bs w0]. rewrite IH.
    destruct (interp (k bs) w0) as [[tr [a|e]] w1];
      [destruct (interp (f a) w1) as [[tr2 o] w2]|]; reflexivity.
  - destruct (git_exec c d w) as [r w0]. rewrite IH.
    destruct (interp (k r) w0) as [[tr [a|e]] w1];
      [destruct (interp (f a) w1) as [[tr2 o] w2]|]; reflexivity.
Qed.

Lemma interp_mbind {A B : Type} (p : prog A) (f : A -> prog B) w :
  interp (p ≫= f) w
  = match interp p w with
    | (tr, Returned a, w1) =>
      let '(tr2, o, w2) := interp (f a) w1 in (tr ++ tr2, o, w2)
    | (tr, Raised e, w1) => (tr, Raised e, w1)
    end.
Proof. apply interp_bind. Qed.

Lemma interp_print s w :
  interp (print s) w = ([EPrint s], Returned tt, do_print s w).
Proof. reflexivity. Qed.

Lemma interp_path_exists p w :
  interp (path_exists p) w
  = ([EExists p (exists_at (fs w) p)], Returned (exists_at (fs w) p), w).
Proof. reflexivity. Qed.

Lemma interp_write_text p d w m :
  fs_write p d (fs w) = (Done tt, m) ->
  interp (write_text p d) w = ([EWrite p d (Done tt)], Returned tt, set_fs w m).
Proof. intros H. cbn [interp write_text]. rewrite H. reflexivity. Qed.

(** One call of [run_git_command] in the simulated environment. *)
Lemma interp_run_git_command cmd cwd w :
  interp (run_git_command cmd cwd) w
  = match git_exec cmd (default REPO_PATH cwd) w with
    | (Done cp, w1) =>
      if (returncode cp =? 0)%Z
      then ([ESpawn cmd (default REPO_PATH cwd) (Done cp)],
            Returned (strip (stdout cp)), w1)
      else (ESpawn cmd (default REPO_PATH cwd) (Done cp)
              :: failure_report cmd cp,
            Raised (failure_of cmd cp),
            do_print (py "   Error: " ++ stderr cp)
              (do_print (py "❌ Git command failed: " ++ join (py " ") cmd)
                 w1))
    | (Failed cls, w1) =>
      ([ESpawn cmd (default REPO_PATH cwd) (Failed cls)],
       Raised (PyError cls), w1)
    end.
Proof.
  unfold run_git_command, subprocess_run.
  cbn [bind mbind prog_bind try_except interp].
  destruct (git_exec cmd (default REPO_PATH cwd) w) as [[cp|cls] w1].
  - destruct (returncode cp =? 0)%Z; reflexivity.
  - reflexivity.
Qed.

(** A command started in a working tree, with no outside fault to come. *)
Lemma git_exec_in c d w b :
  node_at (fs w) d = Some Dir -> faults w = [] ->
  checked_out w !! d = Some b ->
  git_exec c d w = git_in w d b (parse_git c).
Proof.
  intros Hd Hf Hb. unfold git_exec, pop_fault. rewrite Hd, Hf, Hb.
  reflexivity.
Qed.

End Evaluation.


Section NothingToCommit.

Import Sim.

Lemma parent_fixture : parent (REPO_PATH / TEST_FILE) = REPO_PATH.
Proof. vm_compute. reflexivity. Qed.

Lemma repo_not_fixture : REPO_PATH <> REPO_PATH / TEST_FILE.
Proof. vm_compute. discriminate. Qed.

Lemma interp_resolve_primary w b0 :
  node_at (fs w) REPO_PATH = Some Dir ->
  checked_out w !! REPO_PATH = Some b0 ->
  b0 = py "main" \/ b0 = py "master" ->
  faults w = [] ->
  interp resolve_branch w
  = ([ESpawn git_show_current REPO_PATH (ok (b0 ++ nl));
      EPrint (py "📍 Current branch: " ++ b0)],
     Returned (Some b0),
     do_print (py "📍 Current branch: " ++ b0) w).
Proof.
  intros Hdir Hco Hb0 Hf. unfold resolve_branch.
  rewrite interp_mbind, interp_run_git_command. cbn [default from_option].
  rewrite (git_exec_in _ _ _ b0 Hdir Hf Hco), parse_git_show.
  cbn [git_in ok returncode stdout Z.eqb].
  destruct (strip_primary b0 Hb0) as [-> Hin].
  rewrite interp_mbind, interp_print, Hin. reflexivity.
Qed.

Lemma interp_scenario_clean w b0 :
  node_at (fs w) REPO_PATH = Some Dir ->
  node_at (fs w) (REPO_PATH / TEST_FILE) <> Some Dir ->
  checked_out w !! REPO_PATH = Some b0 ->
  faults w = [] ->
  <[TEST_FILE := initial_content]> (default ∅ (index w !! REPO_PATH))
  = default ∅ (tips w !! b0) ->
  exists tr w' out err,
    interp (scenario b0) w
    = (tr,
       Raised (CalledProcessError 1 (git_commit msg_initial) out err),
       w')
    /\ spawns tr
       = [ESpawn git_add REPO_PATH (ok []);
          ESpawn (git_commit msg_initial) REPO_PATH
            (Done (mkCompleted 1 out err))]
    /\ tips w' = tips w /\ commits w' = commits w
    /\ checked_out w' = checked_out w.
Proof.
  intros Hdir Hfile Hco Hf Hclean. unfold scenario.
  rewrite interp_mbind, interp_print.
  assert (Hw : fs_write (REPO_PATH / TEST_FILE) initial_content (fs w)
               = (Done tt,
                  <[REPO_PATH / TEST_FILE := File initial_content]> (fs w))).
  { unfold fs_write. rewrite parent_fixture, Hdir.
    destruct (node_at (fs w) (REPO_PATH / TEST_FILE)) as [[|x]|];
      [contradiction|reflexivity|reflexivity]. }
  rewrite interp_mbind, (interp_write_text _ _ (do_print _ w) _ Hw).
  rewrite interp_mbind, interp_run_git_command. cbn [default from_option].
  rewrite (git_exec_in _ _ _ b0), parse_git_add; fields;
    [| rewrite node_at_insert_ne by apply repo_not_fixture; exact Hdir
     | exact Hf | exact Hco ].
  cbn [git_in]. fields. rewrite node_at_written.
  cbn [ok returncode Z.eqb].
  rewrite interp_mbind, interp_run_git_command. cbn [default from_option].
  rewrite (git_exec_in _ _ _ b0), parse_git_commit; fields;
    [| rewrite node_at_insert_ne by apply repo_not_fixture; exact Hdir
     | exact Hf | exact Hco ].
  cbn [git_in]. fields. unfold tip. fields.
  rewrite lookup_insert_eq. cbn [default from_option id].
  rewrite bool_decide_eq_true_2 by exact Hclean.
  cbn [returncode Z.eqb].
  do 4 eexists. split; [reflexivity|].
  split; [reflexivity|]. fields. auto.
Qed.

End NothingToCommit.

(** X12: in the simulated environment, when the index of the repository
    with the fixture staged is the tip of the base branch (the fixture is
    already committed with the initial content, as a run leaves it that
    stopped between its first commit and its last), [main] stops at its
    first commit: git has nothing to commit and exits with 1, whatever
    it prints; the [CalledProcessError] with that status escapes, three
    commands were started, and the run adds no branch and no commit. *)
Theorem main_nothing_to_commit w b0 :
  Sim.node_at (Sim.fs w) REPO_PATH = Some Sim.Dir ->
  Sim.exists_at (Sim.fs w) (REPO_PATH / py ".git") = true ->
  Sim.node_at (Sim.fs w) (REPO_PATH / TEST_FILE) <> Some Sim.Dir ->
  Sim.checked_out w !! REPO_PATH = Some b0 ->
  b0 = py "main" \/ b0 = py "master" ->
  Sim.faults w = [] ->
  <[TEST_FILE := initial_content]> (default ∅ (Sim.index w !! REPO_PATH))
  = default ∅ (Sim.tips w !! b0) ->
  exists tr w' out err,
    Sim.interp main w
    = (tr,
       Raised (CalledProcessError 1 (git_commit msg_initial) out err),
       w')
    /\ spawns tr
       = [ESpawn git_show_current REPO_PATH (Sim.ok (b0 ++ nl));
          ESpawn git_add REPO_PATH (Sim.ok []);
          ESpawn (git_commit msg_initial) REPO_PATH
            (Done (mkCompleted 1 out err))]
    /\ Sim.tips w' = Sim.tips w /\ Sim.commits w' = Sim.commits w
    /\ Sim.checked_out w' = Sim.checked_out w.
Proof.
  intros Hdir Hgit Hfile Hco Hb0 Hf Hclean. unfold main.
  rewrite interp_mbind, interp_print.
  rewrite interp_mbind, interp_print.
  assert (Hrepo : Sim.exists_at (Sim.fs w) REPO_PATH = true)
    by (unfold Sim.exists_at; rewrite Hdir; reflexivity).
  rewrite interp_mbind, interp_path_exists. fields. rewrite Hrepo.
  cbn [negb].
  rewrite interp_mbind, interp_path_exists. fields. rewrite Hgit.
  cbn [negb].
  rewrite interp_mbind, interp_print.
  rewrite interp_mbind, (interp_resolve_primary _ b0); fields;
    [| assumption ..].
  rewrite interp_mbind, interp_print.
  match goal with
  | |- context [Sim.interp (scenario b0) ?w0] =>
    destruct (interp_scenario_clean w0 b0)
      as (tr & w' & out & err & -> & Hs & Ht & Hc & Hk); fields;
      [assumption ..|]
  end.
  do 2 eexists. exists out, err.
  split; [reflexivity|].
  split.
  { unfold spawns in *. rewrite !List.filter_app, Hs. reflexivity. }
  auto.
Qed.



(** ** The summary *)

(** [In e l] for a list [l] given by its elements, [e] among them as it
    is written. *)
Ltac find_event :=
  repeat lazymatch goal with
         | |- In ?x (?y :: _) =>
           tryif constr_eq x y then apply in_eq else apply in_cons
         end.

Lemma scenario_summary b tr :
  runs (scenario b) tr (Returned tt) -> summary_names b tr.
Proof.
  intros H. unfold scenario, summary in H. run H.
  all: try discriminate H.
  all: clear H.
  all: unfold summary_names.
  all: with_run ltac:(fun bs h =>
         lazymatch goal with
         | |- context [ESpawn (git_worktree_add _ _ _) _ (Done ?cp)] =>
           exists bs, h, cp
         end).
  all: cbv zeta; unfold_run.
  all: split; [find_event|]; split; [rc_zero|].
  all: repeat (split; [find_event|]).
  all: find_event.
Qed.

Lemma summary_names_app pre b tr :
  summary_names b tr -> summary_names b (pre ++ tr).
Proof.
  intros (bs & home & cp & H). cbv zeta in H.
  destruct H as (H1 & Hrc & H2 & H3 & H4 & H5 & H6 & H7).
  exists bs, home, cp. cbv zeta.
  repeat (split; [first [exact Hrc | apply in_or_app; right; assumption]|]).
  apply in_or_app. right. assumption.
Qed.

(** X13: the summary of a complete run names what the run made.  The
    base branch, the new branch and the path of the working tree it
    prints, also in the commands for cleaning up, are those given to the
    [git worktree add] that exited with 0. *)
Theorem main_summary_names tr :
  exec main tr (Returned tt) -> completed tr ->
  exists base, summary_names base tr.
Proof.
  intros H Hc. apply exec_runs in H.
  destruct (main_completed _ H Hc) as (pre & b & trs & -> & Hs).
  exists b. apply summary_names_app, scenario_summary, Hs.
Qed.


(** ** The properties at the example worlds *)

(** The run of a world, named with its outcome. *)
Lemma interp_exec_as {A : Type} (p : prog A) w o :
  (Sim.interp p w).1.2 = o -> exec p (Sim.interp p w).1.1 o.
Proof. intros <-. apply interp_exec. Qed.

Lemma run_git_command_raises_witness :
  exists cls,
    [ESpawn git_add REPO_PATH (Failed (py "FileNotFoundError"))]
    = [ESpawn git_add REPO_PATH (Failed cls)]
    /\ PyError (py "FileNotFoundError") = PyError cls.
Proof.
  destruct (run_git_command_raises git_add None
              [ESpawn git_add REPO_PATH (Failed (py "FileNotFoundError"))]
              (PyError (py "FileNotFoundError")))
    as [(cp & H & _) | H].
  - apply exec_runs. unfold run_git_command, subprocess_run.
    cbn [bind mbind prog_bind try_except runs default from_option].
    do 2 eexists. split; [reflexivity|].
    cbn [bind try_except runs]. split; reflexivity.
  - exfalso. injection H as H. discriminate H.
  - exact H.
Defined.

Lemma main_full_run_witness :
  full_run (Sim.interp main Sim.example_repo).1.1.
Proof.
  apply main_full_run.
  - apply interp_exec_as. vm_compute. reflexivity.
  - vm_compute. repeat first [left; reflexivity | right].
Defined.

Lemma main_early_exit_witness :
  early_exit (Sim.interp main Sim.no_repo).1.1.
Proof.
  apply main_early_exit.
  - apply interp_exec_as. vm_compute. reflexivity.
  - vm_compute. intros H.
    repeat (destruct H as [H|H]; [discriminate H|]). exact H.
Defined.

Lemma main_raises_witness :
  raised_by (Sim.interp main Sim.faulty_repo).1.1
    (CalledProcessError 1 (git_commit msg_initial) []
       (py "fatal: failed" ++ nl)).
Proof.
  apply (main_raises (Sim.interp main Sim.faulty_repo).1.1).
  apply interp_exec_as. vm_compute. reflexivity.
Defined.

Lemma main_removes_only_worktree_witness :
  let r := Sim.interp main Sim.stale_repo in
  exists bs home,
    parse (py "/Users/user/.almondcoder/website/test-conflict-deadbeef")
    = worktree_path_of home bs
    /\ In (EUrandom 16 bs) r.1.1.
Proof.
  cbv zeta.
  destruct (main_removes_only_worktree
              (Sim.interp main Sim.stale_repo).1.1
              (Sim.interp main Sim.stale_repo).1.2
              (take 20 (Sim.interp main Sim.stale_repo).1.1)
              (parse (py "/Users/user/.almondcoder/website/test-conflict-deadbeef"))
              (Done tt)
              (drop 21 (Sim.interp main Sim.stale_repo).1.1))
    as (bs & home & before & warn & Hp & Hpre & Hb & _).
  - apply interp_exec.
  - vm_compute. reflexivity.
  - exists bs, home. split; [exact Hp|].
    rewrite <- (take_drop 20 (Sim.interp main Sim.stale_repo).1.1).
    apply in_or_app. left. rewrite Hpre. apply in_or_app. left. exact Hb.
Defined.

Lemma main_writes_only_fixture_witness :
  writes_fixture (take 9 (Sim.interp main Sim.example_repo).1.1)
    (EWrite (REPO_PATH / TEST_FILE) initial_content (Done tt)).
Proof.
  apply (main_writes_only_fixture (Sim.interp main Sim.example_repo).1.1
           (Sim.interp main Sim.example_repo).1.2 _ _
           (drop 10 (Sim.interp main Sim.example_repo).1.1)).
  - apply interp_exec.
  - vm_compute. reflexivity.
Defined.

Lemma main_known_commands_witness :
  (REPO_PATH = REPO_PATH /\ repo_command git_add)
  \/ exists bs home,
       REPO_PATH = worktree_path_of home bs
       /\ (git_add = git_add \/ git_add = git_commit msg_almond)
       /\ worktree_added home bs
            (take 10 (Sim.interp main Sim.example_repo).1.1).
Proof.
  apply (main_known_commands (Sim.interp main Sim.example_repo).1.1
           (Sim.interp main Sim.example_repo).1.2 _ _ _ (Sim.ok [])
           (drop 11 (Sim.interp main Sim.example_repo).1.1)).
  - apply interp_exec.
  - vm_compute. reflexivity.
Defined.

Lemma main_reports_nonzero_witness :
  exists post',
    drop 12 (Sim.interp main Sim.faulty_repo).1.1
    = failure_report (git_commit msg_initial)
        (mkCompleted 1 [] (py "fatal: failed" ++ nl))
      ++ post'.
Proof.
  destruct (main_reports_nonzero (Sim.interp main Sim.faulty_repo).1.1
              (Sim.interp main Sim.faulty_repo).1.2
              (take 11 (Sim.interp main Sim.faulty_repo).1.1)
              (git_commit msg_initial) REPO_PATH
              (mkCompleted 1 [] (py "fatal: failed" ++ nl))
              (drop 12 (Sim.interp main Sim.faulty_repo).1.1))
    as (post' & H & _).
  - apply interp_exec.
  - vm_compute. reflexivity.
  - discriminate.
  - exists post'. exact H.
Defined.

Lemma main_stops_at_failure_witness :
  drop 15 (Sim.interp main homeless_repo).1.1 = []
  /\ (Sim.interp main homeless_repo).1.2
     = Raised (PyError (py "RuntimeError")).
Proof.
  apply (main_stops_at_failure (Sim.interp main homeless_repo).1.1 _
           (take 14 (Sim.interp main homeless_repo).1.1)
           (EHome (Failed (py "RuntimeError")))).
  - apply interp_exec.
  - vm_compute. reflexivity.
  - reflexivity.
  - reflexivity.
Defined.

Lemma token_first_four_bytes_witness :
  let bs := take 16 (Sim.entropy Sim.example_repo) in
  token_of bs = hex_pad 8 (int_from_bytes (take 4 bs))
  /\ token_of bs <> token_of (repeat x00 16).
Proof.
  cbv zeta.
  destruct (token_first_four_bytes (take 16 (Sim.entropy Sim.example_repo))
              (repeat x00 16))
    as [H1 H2].
  - reflexivity.
  - reflexivity.
  - split.
    + exact H1.
    + intros H. apply H2 in H. discriminate H.
Defined.

Lemma main_layout_witness :
  let r := Sim.interp main Sim.example_repo in
  exists bs home,
    Sim.node_at (Sim.fs r.2) (worktree_path_of home bs / TEST_FILE)
    = Some (Sim.File almond_content)
    /\ Sim.node_at (Sim.fs r.2) (REPO_PATH / TEST_FILE)
       = Some (Sim.File main_content).
Proof.
  cbv zeta.
  destruct (main_layout Sim.example_repo
              (Sim.interp main Sim.example_repo).1.1
              (Sim.interp main Sim.example_repo).2)
    as (bs & home & _ & _ & H1 & H2).
  - apply interp_outcome. vm_compute. reflexivity.
  - vm_compute. repeat first [left; reflexivity | right].
  - exists bs, home. auto.
Defined.

Lemma main_nothing_to_commit_witness :
  exists tr w' out err,
    Sim.interp main interrupted_repo
    = (tr,
       Raised (CalledProcessError 1 (git_commit msg_initial) out err),
       w')
    /\ Sim.commits w' = Sim.commits interrupted_repo.
Proof.
  destruct (main_nothing_to_commit interrupted_repo (py "main"))
    as (tr & w' & out & err & Hi & _ & _ & Hc & _).
  - vm_compute. reflexivity.
  - vm_compute. reflexivity.
  - vm_compute. discriminate.
  - vm_compute. reflexivity.
  - left. reflexivity.
  - vm_compute. reflexivity.
  - vm_compute. reflexivity.
  - exists tr, w', out, err. auto.
Defined.

Lemma main_summary_names_witness :
  exists base, summary_names base (Sim.interp main Sim.example_repo).1.1.
Proof.
  apply main_summary_names.
  - apply interp_exec_as. vm_compute. reflexivity.
  - vm_compute. repeat first [left; reflexivity | right].
Defined.
